(** * sonde-link backend: a shallow embedding and its properties

    The development follows the TypeScript sources of the backend:

    - [routes/balloons.routes.ts]   (health route, the wind service and the
      SQLite [DatabaseService] that are stored next to the routes),
    - [services/windborne.service.ts] (ingest controller and source client),
    - [services/database.factory.ts]  (the tracker with the match score and the
      two-phase assignment),
    - the trajectory prediction service.

    JavaScript numbers are IEEE-754 binary64 values: they are embedded as the
    kernel's primitive floats, so [+], [*], [<], [Math.sqrt] ... are the very
    operations the program runs.  The transcendental functions of [Math]
    (implementation-approximated in ECMAScript) are a parameter of the model,
    the record [MathLib].  ISO-8601 UTC timestamps (the output of
    [Date.prototype.toISOString]) are embedded as the instant they denote, in
    milliseconds since the epoch: the encoding is a bijection that preserves the
    order used by the SQL comparisons on the [timestamp] columns. *)

From Stdlib Require Import Floats ZArith List Bool Lia DecimalString DecimalPos.
From stdpp Require Import gmap strings list fin_maps sorting.

Set Warnings "-inexact-float,-register-all,-clear-no-such-hyp".
Local Open Scope Z_scope.

(** ** JavaScript numbers *)

Module JS.

(** [ToBoolean] on a number: [0], [-0] and [NaN] are falsy. *)
Definition truthy (x : float) : bool :=
  negb (PrimFloat.is_nan x || PrimFloat.is_zero x).

(** [x > y] and [x >= y] (both false as soon as an operand is [NaN]). *)
Definition gt (x y : float) : bool := (y <? x)%float.
Definition ge (x y : float) : bool := (y <=? x)%float.

Definition is_finite (x : float) : bool :=
  negb (PrimFloat.is_nan x || PrimFloat.is_infinity x).

(** [Math.min] and [Math.max] of two numbers: [NaN] is contagious and
    [-0] is smaller than [+0]. *)
Definition Math_min (x y : float) : float :=
  if PrimFloat.is_nan x || PrimFloat.is_nan y then nan
  else if (x <? y)%float then x
  else if (y <? x)%float then y
  else if PrimFloat.get_sign x then x else y.

Definition Math_max (x y : float) : float :=
  if PrimFloat.is_nan x || PrimFloat.is_nan y then nan
  else if (x <? y)%float then y
  else if (y <? x)%float then x
  else if PrimFloat.get_sign x then y else x.

(** The number denoted by an integer (exact below 2^53, which covers
    every millisecond count and every balloon number the program meets). *)
Definition of_Z (z : Z) : float :=
  SF2Prim (binary_normalize prec emax z 0 false).

(** [x % y]: the remainder of the truncating division, computed exactly on
    the mantissas. The result takes the sign of the dividend. *)
Definition rem (x y : float) : float :=
  match Prim2SF x, Prim2SF y with
  | S754_nan, _ | _, S754_nan => nan
  | S754_infinity _, _ => nan
  | _, S754_zero _ => nan
  | _, S754_infinity _ => x
  | S754_zero _, _ => x
  | S754_finite sx mx ex, S754_finite _ my ey =>
      let e := Z.min ex ey in
      let X := (Z.pos mx * 2 ^ (ex - e))%Z in
      let Y := (Z.pos my * 2 ^ (ey - e))%Z in
      SF2Prim (binary_normalize prec emax (cond_Zopp sx (X mod Y)) e sx)
  end.

Definition PI : float := 0x1.921fb54442d18p+1%float.

End JS.

(** The part of [Math] that ECMAScript leaves to the implementation. *)
Record MathLib : Type := {
  Math_sin : float -> float;
  Math_cos : float -> float;
  Math_asin : float -> float;
  Math_atan2 : float -> float -> float;
  Math_exp : float -> float;
  Math_log : float -> float;
  Math_pow : float -> float -> float;
}.

(** ** Time *)

Definition Timestamp := Z.
Definition HOUR_MS : Z := 3600000.

(** [getTimestampForOffset]: the wall clock truncated to the hour (UTC),
    [hourOffset] hours back; [getCurrentTimestamp] is offset 0. *)
Definition getTimestampForOffset (now : Z) (hourOffset : Z) : Timestamp :=
  (now / HOUR_MS) * HOUR_MS - hourOffset * HOUR_MS.

Definition getCurrentTimestamp (now : Z) : Timestamp :=
  getTimestampForOffset now 0.

(** ** Health route *)

Inductive HealthStatus := healthy | degraded | unhealthy.

(** [WindborneService.getDataAgeMinutes] *)
Definition getDataAgeMinutes (lastUpdateTimestamp : option Timestamp) (now : Z) : Z :=
  match lastUpdateTimestamp with
  | None => -1
  | Some lastUpdate => (now - lastUpdate) / (1000 * 60)
  end.

(** The classification of [GET /api/health], from the data age alone. (The
    handler's [catch] answers 500 with [unhealthy] when reading the balloon
    data throws; the reads of this model do not fail.) *)
Definition health_status (dataAge : Z) : HealthStatus :=
  if dataAge <? 0 then unhealthy
  else if 90 <? dataAge then unhealthy
  else if 65 <? dataAge then degraded
  else healthy.

(** ** Completions: a value, or a thrown exception *)

Inductive JsError :=
| AxiosError (status : option Z)   (* no response at all, or a refused status *)
| TypeError
| InsufficientData.

Inductive Completion (A : Type) : Type :=
| Normal (a : A)
| Throw (e : JsError).
Arguments Normal {A} a.
Arguments Throw {A} e.

Definition bindC {A B} (c : Completion A) (k : A -> Completion B) : Completion B :=
  match c with
  | Normal a => k a
  | Throw e => Throw e
  end.

(** [try { body } catch (error) { handler }] *)
Definition try_catch {A} (body : Completion A) (handler : JsError -> Completion A)
  : Completion A :=
  match body with
  | Normal a => Normal a
  | Throw e => handler e
  end.

#[global] Instance Completion_bind : MBind Completion := fun A B k c => bindC c k.
#[global] Instance Completion_ret : MRet Completion := fun A a => Normal a.

(** ** Source client: [WindborneService.fetchHourData] *)

(** The body axios hands over in [response.data]: the parsed JSON value, or
    the raw text when the body is not JSON. *)
Inductive json :=
| JNull
| JBool (b : bool)
| JNum (x : float)
| JStr (s : string)
| JArr (items : list json)
| JObj (fields : list (string * json)).

(** The outcome of the HTTP exchange, before axios looks at the status. *)
Inductive HttpOutcome :=
| NoResponse                          (* timeout, DNS or connection failure *)
| Response (status : Z) (data : json).

(** [axios.get(url, { validateStatus })]: rejects when there is no response or
    when [validateStatus] refuses the status. *)
Definition axios_get (validateStatus : Z -> bool) (o : HttpOutcome) : Completion json :=
  match o with
  | NoResponse => Throw (AxiosError None)
  | Response status data =>
      if validateStatus status then Normal data else Throw (AxiosError (Some status))
  end.

(** Reading [.length] throws on [null], and yields something on every other
    value; the success log line of [fetchHourData] reads [response.data.length]. *)
Definition read_length (data : json) : Completion unit :=
  match data with
  | JNull => Throw TypeError
  | _ => Normal tt
  end.

Definition Array_isArray (v : json) : bool :=
  match v with JArr _ => true | _ => false end.

(** The callback of [response.data.filter]. *)
Definition valid_entry (entry : json) : bool :=
  match entry with
  | JArr items =>
      if negb (Nat.eqb (length items) 3) then false
      else
        match items with
        | [JNum lat; JNum lon; JNum alt] =>       (* typeof ... === 'number' *)
            JS.ge lat (-90) && (lat <=? 90)%float &&
            JS.ge lon (-180) && (lon <=? 180)%float &&
            JS.gt alt 0 && (alt <? 50)%float
        | _ => false
        end
  | _ => false
  end.

Definition fetchHourData_try (o : HttpOutcome) : Completion (list json) :=
  data ← axios_get (fun status => (200 <=? status) && (status <? 300)) o;
  _ ← read_length data;
  match data with
  | JArr entries => Normal (filter valid_entry entries)
  | _ => Normal []                    (* "Invalid data: not an array" *)
  end.

Definition fetchHourData (o : HttpOutcome) : Completion (list json) :=
  try_catch (fetchHourData_try o) (fun _ => Normal []).

(** [RawBalloonData]: the typed view of an entry, [raw[0]], [raw[1]], [raw[2]]. *)
Record RawBalloonData := mkRaw { raw0 : float; raw1 : float; raw2 : float }.

Definition raw_of_json (entry : json) : RawBalloonData :=
  match entry with
  | JArr [JNum lat; JNum lon; JNum alt] => mkRaw lat lon alt
  | _ => mkRaw nan nan nan
  end.

(** The observations the spec calls valid: exactly three finite numbers with
    [-90 <= lat <= 90], [-180 <= lon <= 180] and [0 < alt < 50]. *)
Definition spec_valid_observation (entry : json) : bool :=
  match entry with
  | JArr [JNum lat; JNum lon; JNum alt] =>
      JS.is_finite lat && JS.is_finite lon && JS.is_finite alt &&
      ((-90 <=? lat) && (lat <=? 90) &&
       (-180 <=? lon) && (lon <=? 180) &&
       (0 <? alt) && (alt <? 50))%float
  | _ => false
  end.

(** ** Data model ([types/balloon.ts]) *)

Inductive Status := Active | New | Lost.

Record BalloonDataPoint := mkBalloon {
  id : string;
  latitude : float;
  longitude : float;
  altitude_km : float;
  timestamp : Timestamp;
  hour_offset : Z;
  speed_kmh : option float;       (* optional: absent on a first position *)
  direction_deg : option float;
  confidence : float;
  status : Status;
}.

Record WindData := mkWind {
  w_latitude : float;
  w_longitude : float;
  w_altitude_km : float;
  w_pressure_hpa : float;
  w_wind_u_ms : float;
  w_wind_v_ms : float;
  w_wind_speed_kmh : float;
  w_wind_direction_deg : float;
  w_timestamp : Timestamp;
}.

(** [`temp_${hourOffset}_${index}`] and [`balloon_${String(n).padStart(4, '0')}`] *)
Definition String_of_Z (z : Z) : string :=
  DecimalString.NilZero.string_of_int (Z.to_int z).

Fixpoint zeros (n : nat) : string :=
  match n with
  | O => EmptyString
  | S n' => String (Ascii.ascii_of_nat 48) (zeros n')
  end.

Definition padStart (targetLength : nat) (s : string) : string :=
  zeros (targetLength - String.length s) +:+ s.

Definition temp_id (hourOffset : Z) (index : nat) : string :=
  "temp_" +:+ String_of_Z hourOffset +:+ "_" +:+ String_of_Z (Z.of_nat index).

Definition balloon_id (n : Z) : string :=
  "balloon_" +:+ padStart 4 (String_of_Z n).

(** ** The store: [DatabaseService] (SQLite adapter)

    Three tables, each a finite map from its primary key. *)

Record TrackedRow := mkRow {
  row_lat : float;
  row_lon : float;
  row_alt : float;
  row_speed_kmh : option float;
  row_direction_deg : option float;
  row_status : Status;
  row_hour_offset : Z;
}.

(** [x.toFixed(d)] on a finite number below 1e21: the sign and the integer [n]
    for which [n / 10^d] is closest to [|x|], the larger one on a tie. *)
Definition toFixed (d : Z) (x : float) : option (bool * Z) :=
  match Prim2SF x with
  | S754_zero _ => Some (false, 0)
  | S754_finite s m e =>
      let num := Z.pos m * 10 ^ d in
      let n := if 0 <=? e then num * 2 ^ e
               else (2 * num + 2 ^ (- e)) / 2 ^ (- e + 1) in
      Some (s, n)
  | _ => None
  end.

(** [Number(x.toFixed(1))], in tenths: the value stored in a key column of
    [wind_cache]. *)
Definition round1 (x : float) : option Z :=
  match toFixed 1 x with
  | Some (s, n) => Some (cond_Zopp s n)
  | None => None
  end.

Definition WindKey : Type := option Z * option Z * option Z * Z.

Record Store := mkStore {
  wind_cache : gmap WindKey WindData;
  balloon_snapshots : gmap Timestamp (list RawBalloonData);
  tracked_balloons : gmap (string * Timestamp) TrackedRow;
}.

Definition set_tracked (db : Store) (t : gmap (string * Timestamp) TrackedRow) : Store :=
  mkStore (wind_cache db) (balloon_snapshots db) t.

Definition set_snapshots (db : Store) (s : gmap Timestamp (list RawBalloonData)) : Store :=
  mkStore (wind_cache db) s (tracked_balloons db).

Definition set_wind_cache (db : Store) (w : gmap WindKey WindData) : Store :=
  mkStore w (balloon_snapshots db) (tracked_balloons db).

Definition empty_store : Store := mkStore ∅ ∅ ∅.

Definition mapRowToBalloon (key : string * Timestamp) (row : TrackedRow) : BalloonDataPoint :=
  {| id := key.1; timestamp := key.2;
     latitude := row_lat row; longitude := row_lon row; altitude_km := row_alt row;
     speed_kmh := row_speed_kmh row; direction_deg := row_direction_deg row;
     status := row_status row; hour_offset := row_hour_offset row;
     confidence := 1 |}.

Definition row_of_balloon (b : BalloonDataPoint) : TrackedRow :=
  {| row_lat := latitude b; row_lon := longitude b; row_alt := altitude_km b;
     row_speed_kmh := speed_kmh b; row_direction_deg := direction_deg b;
     row_status := status b; row_hour_offset := hour_offset b |}.

(** Wind cache *)
Definition getWindCache (db : Store) (lat lon altitude : float) (ts : Z)
  : option WindData :=
  wind_cache db !! (round1 lat, round1 lon, round1 altitude, ts).

Definition setWindCache (db : Store) (data : WindData) : Store :=
  set_wind_cache db
    (<[ (round1 (w_latitude data), round1 (w_longitude data),
         round1 (w_altitude_km data), w_timestamp data) := data ]> (wind_cache db)).

(** Snapshots: [INSERT OR REPLACE] under the primary key [timestamp]. *)
Definition saveBalloonSnapshot (db : Store) (ts : Timestamp) (rawData : list RawBalloonData)
  : Store :=
  set_snapshots db (<[ ts := rawData ]> (balloon_snapshots db)).

Definition getLatestSnapshotTimestamp (db : Store) : option Timestamp :=
  foldr (fun kv acc => match acc with
                       | None => Some kv.1
                       | Some t => Some (Z.max kv.1 t)
                       end) None (map_to_list (balloon_snapshots db)).

(** Tracked rows: [INSERT OR REPLACE] under the primary key [(id, timestamp)],
    one row after the other in one transaction. *)
Definition saveTrackedBalloons (db : Store) (balloons : list BalloonDataPoint) : Store :=
  set_tracked db
    (foldl (fun t b => <[ (id b, timestamp b) := row_of_balloon b ]> t)
           (tracked_balloons db) balloons).

(** [SELECT * ... WHERE timestamp = ?] has no [ORDER BY]: the rows come in the
    order of the table, here the order of the map. *)
Definition getTrackedBalloonsAtTimestamp (db : Store) (ts : Timestamp)
  : list BalloonDataPoint :=
  map (fun kv => mapRowToBalloon kv.1 kv.2)
      (filter (fun kv => bool_decide (kv.1.2 = ts)) (map_to_list (tracked_balloons db))).

Definition getAllTrackedBalloons (db : Store) : list BalloonDataPoint :=
  map (fun kv => mapRowToBalloon kv.1 kv.2) (map_to_list (tracked_balloons db)).

(** [id LIKE 'balloon_%'] (the underscore stands for any one character) and
    [CAST(substr(id, 9) AS INTEGER)] (the longest prefix of digits, 0 if none). *)
Definition like_balloon (s : string) : bool :=
  String.eqb (String.substring 0 7 s) "balloon" && (8 <=? String.length s)%nat.

Definition digit_of (c : Ascii.ascii) : option Z :=
  let n := Z.of_N (Ascii.N_of_ascii c) in
  if (48 <=? n) && (n <=? 57) then Some (n - 48) else None.

Fixpoint digits_prefix (acc : option Z) (s : string) : option Z :=
  match s with
  | EmptyString => acc
  | String c s' =>
      match digit_of c with
      | Some d => digits_prefix (Some (10 * default 0 acc + d)) s'
      | None => acc
      end
  end.

Definition cast_integer (s : string) : Z := default 0 (digits_prefix None s).

Definition getMaxBalloonId (db : Store) : Z :=
  foldr (fun kv acc =>
           if like_balloon kv.1.1
           then Z.max acc (cast_integer (String.substring 8 (String.length kv.1.1) kv.1.1))
           else acc)
        0 (map_to_list (tracked_balloons db)).

(** [cleanupStaleData]: the cutoff is the wall clock, 24 hours back
    ([setHours(getHours() - 24)], taken as 24 * 3600 s: no change of the local
    clock offset in between); every row whose timestamp sorts before the
    cutoff goes ([WHERE timestamp < ?] on ISO strings of one format, which
    sort as the instants do). *)
Definition DAY_MS : Z := 24 * HOUR_MS.

Definition cleanupStaleData (db : Store) (now : Z) : Store * (nat * nat) :=
  let cutoffTimestamp := now - DAY_MS in
  let tracked := filter (fun kv => ¬ (kv.1.2 < cutoffTimestamp)) (tracked_balloons db) in
  let snaps := filter (fun kv => ¬ (kv.1 < cutoffTimestamp)) (balloon_snapshots db) in
  (mkStore (wind_cache db) snaps tracked,
   ((size (tracked_balloons db) - size tracked)%nat,
    (size (balloon_snapshots db) - size snaps)%nat)).

Definition clearAllData (db : Store) : Store := mkStore (wind_cache db) ∅ ∅.

(** ** Tracker ([BalloonTracker], the Hungarian-matching version) *)

(** Library code the tracker calls: [Math], the RBush spatial index and the
    munkres-js assignment solver. *)
Record BBox := mkBBox { minX : float; minY : float; maxX : float; maxY : float }.

Record BalloonTreeNode := mkNode { node_box : BBox; balloon : BalloonDataPoint }.

Record Libs := mkLibs {
  math :> MathLib;
  rbush_search : list BalloonTreeNode -> BBox -> list BalloonTreeNode;
  munkres : list (list float) -> list (nat * nat);
}.

Definition MAX_DISTANCE_KM_PER_HOUR : float := 600.
Definition TYPICAL_DISTANCE_KM_PER_HOUR : float := 150.
Definition MAX_ALTITUDE_DELTA_KM : float := 10.
Definition MAX_DIRECTION_CHANGE_DEG : float := 45.
Definition EARTH_RADIUS_KM : float := 6371.

Definition W_distance : float := 0.15.
Definition W_direction : float := 0.55.
Definition W_speed : float := 0.10.
Definition W_altitude : float := 0.20.

Definition toRadians (degrees : float) : float := (degrees * (JS.PI / 180))%float.

(** Haversine distance *)
Definition calculateDistance (M : MathLib) (lat1 lon1 lat2 lon2 : float) : float :=
  let dLat := toRadians (lat2 - lat1) in
  let dLon := toRadians (lon2 - lon1) in
  let a :=
    (Math_sin M (dLat / 2) * Math_sin M (dLat / 2) +
     Math_cos M (toRadians lat1) * Math_cos M (toRadians lat2) *
     Math_sin M (dLon / 2) * Math_sin M (dLon / 2))%float in
  let c := (2 * Math_atan2 M (sqrt a) (sqrt (1 - a)))%float in
  (EARTH_RADIUS_KM * c)%float.

Definition angleDifference (angle1 angle2 : float) : float :=
  let diff := JS.rem (abs (angle1 - angle2)) 360 in
  if JS.gt diff 180 then (360 - diff)%float else diff.

Record Velocity := mkVelocity { v_speed_kmh : float; v_direction_deg : float }.

Definition calculateVelocity (M : MathLib) (prev curr : BalloonDataPoint) : Velocity :=
  let distance :=
    calculateDistance M (latitude prev) (longitude prev) (latitude curr) (longitude curr) in
  let timeDiffHours :=
    (JS.of_Z (timestamp curr - timestamp prev) / (1000 * 60 * 60))%float in
  let speed := if JS.gt timeDiffHours 0 then (distance / timeDiffHours)%float else 0%float in
  let dLon := toRadians (longitude curr - longitude prev) in
  let lat1 := toRadians (latitude prev) in
  let lat2 := toRadians (latitude curr) in
  let y := (Math_sin M dLon * Math_cos M lat2)%float in
  let x := (Math_cos M lat1 * Math_sin M lat2 -
            Math_sin M lat1 * Math_cos M lat2 * Math_cos M dLon)%float in
  let direction := (Math_atan2 M y x * 180 / JS.PI)%float in
  mkVelocity speed (JS.rem (direction + 360) 360).

(** [Array.prototype.sort] with a comparator is a stable sort: an element goes
    after the ones it does not precede. [before a b] is [compare(a, b) < 0]. *)
Fixpoint sort_insert {A} (before : A -> A -> bool) (x : A) (l : list A) : list A :=
  match l with
  | [] => [x]
  | y :: l' => if before y x then y :: sort_insert before x l'
               else if before x y then x :: y :: l'
               else y :: sort_insert before x l'
  end.

Definition stable_sort {A} (before : A -> A -> bool) (l : list A) : list A :=
  foldl (fun acc x => sort_insert before x acc) [] l.

Definition by_timestamp (a b : BalloonDataPoint) : bool := timestamp a - timestamp b <? 0.

(** [history.slice(-3)] *)
Definition last3 {A} (l : list A) : list A := drop (length l - 3) l.

Record WeightedVelocity := mkWV { wv_speed : float; wv_dirRad : float; wv_weight : float }.

Fixpoint segment_velocities (M : MathLib) (i : Z) (sorted : list BalloonDataPoint)
  : list WeightedVelocity :=
  match sorted with
  | a :: ((b :: _) as rest) =>
      let vel := calculateVelocity M a b in
      mkWV (v_speed_kmh vel) (v_direction_deg vel * (JS.PI / 180))%float (JS.of_Z i)
        :: segment_velocities M (i + 1) rest
  | _ => []
  end.

Definition calculateAveragedVelocity (M : MathLib) (history : list BalloonDataPoint)
  : option Velocity :=
  if (length history <? 2)%nat then None
  else
    let sorted := stable_sort by_timestamp history in
    let velocities := segment_velocities M 1 sorted in
    match velocities with
    | [] => None
    | _ =>
        let '(totalWeight, weightedSpeed, weightedX, weightedY) :=
          foldl (fun '(tw, ws, wx, wy) v =>
                   ((tw + wv_weight v)%float,
                    (ws + wv_speed v * wv_weight v)%float,
                    (wx + Math_cos M (wv_dirRad v) * wv_weight v)%float,
                    (wy + Math_sin M (wv_dirRad v) * wv_weight v)%float))
                (0%float, 0%float, 0%float, 0%float) velocities in
        let avgSpeed := (weightedSpeed / totalWeight)%float in
        let avgDirection := (Math_atan2 M weightedY weightedX * (180 / JS.PI))%float in
        Some (mkVelocity avgSpeed (JS.rem (avgDirection + 360) 360))
    end.

(** The velocity the score works with: the averaged one when the history has
    two positions or more, else the one stored on [prev] when both of its
    fields are truthy ([prev.speed_kmh && prev.direction_deg]), else none. *)
Definition stored_velocity (prev : BalloonDataPoint) : option Velocity :=
  match speed_kmh prev, direction_deg prev with
  | Some s, Some d => if JS.truthy s && JS.truthy d then Some (mkVelocity s d) else None
  | _, _ => None
  end.

Definition match_velocity (M : MathLib) (prev : BalloonDataPoint)
    (history : list BalloonDataPoint) : option Velocity :=
  let avgVelocity :=
    if (2 <=? length history)%nat then calculateAveragedVelocity M (last3 history)
    else None in
  match avgVelocity with
  | Some v => Some v
  | None => stored_velocity prev
  end.

Definition calculateMatchScore (M : MathLib) (curr prev : BalloonDataPoint)
    (history : list BalloonDataPoint) : float :=
  let distance :=
    calculateDistance M (latitude curr) (longitude curr) (latitude prev) (longitude prev) in
  (* HARD GATE 1 *)
  if JS.gt distance MAX_DISTANCE_KM_PER_HOUR then infinity else
  (* HARD GATE 2 *)
  let altitudeDelta := abs (altitude_km curr - altitude_km prev) in
  if JS.gt altitudeDelta MAX_ALTITUDE_DELTA_KM then infinity else
  let velocity := match_velocity M prev history in
  let prediction :=            (* Some v when hasPrediction *)
    match velocity with
    | Some v => if JS.gt (v_speed_kmh v) 0 then Some v else None
    | None => None
    end in
  let '(predictedLat, predictedLon) :=
    match prediction with
    | Some v =>
        let distKm := v_speed_kmh v in
        let rad := (v_direction_deg v * (JS.PI / 180))%float in
        let latRad := (latitude prev * (JS.PI / 180))%float in
        let dLat := (distKm * Math_cos M rad / EARTH_RADIUS_KM)%float in
        let dLon := (distKm * Math_sin M rad / (EARTH_RADIUS_KM * Math_cos M latRad))%float in
        ((latitude prev + dLat * (180 / JS.PI))%float,
         (longitude prev + dLon * (180 / JS.PI))%float)
    | None => (latitude prev, longitude prev)
    end in
  let predictedDist :=
    calculateDistance M (latitude curr) (longitude curr) predictedLat predictedLon in
  let impliedVelocity := calculateVelocity M prev curr in
  (* HARD GATE 3 *)
  let gated :=                 (* hasPrediction && velocity.speed_kmh > 10 *)
    match prediction with
    | Some v => if JS.gt (v_speed_kmh v) 10 then Some v else None
    | None => None
    end in
  let directionChange :=
    match gated with
    | Some v => angleDifference (v_direction_deg v) (v_direction_deg impliedVelocity)
    | None => 0%float
    end in
  if JS.gt directionChange MAX_DIRECTION_CHANGE_DEG then infinity else
  let effectiveDist := match prediction with Some _ => predictedDist | None => distance end in
  let distanceScore :=
    JS.Math_min 1 (Math_pow M (effectiveDist / TYPICAL_DISTANCE_KM_PER_HOUR) 2) in
  let directionScore :=
    match gated with
    | Some _ => Math_pow M (directionChange / MAX_DIRECTION_CHANGE_DEG) 3
    | None => 0%float
    end in
  let speedScore :=
    match gated with
    | Some v =>
        let speedRatio := (v_speed_kmh impliedVelocity / v_speed_kmh v)%float in
        JS.Math_min 1 (abs (Math_log M speedRatio) / Math_log M 4)
    | None => 0%float
    end in
  let altitudeScore := Math_pow M (altitudeDelta / MAX_ALTITUDE_DELTA_KM) 2 in
  let normalizedCost :=
    (W_distance * distanceScore + W_direction * directionScore +
     W_speed * speedScore + W_altitude * altitudeScore)%float in
  (normalizedCost * 100)%float.

(** The tracker object: the id counter and the cache of
    [processHistoricalData] (a [Map] from [`hour_${hour}`], in insertion order). *)
Record Tracker := mkTracker {
  nextId : Z;
  processedDataCache : list (Z * list BalloonDataPoint);
  cacheTimestamp : option Timestamp;
  cacheCreatedAt : Z;
}.

Definition set_nextId (t : Tracker) (n : Z) : Tracker :=
  mkTracker n (processedDataCache t) (cacheTimestamp t) (cacheCreatedAt t).

Definition new_tracker : Tracker := mkTracker 1 [] None 0.

(** [initialize]: the counter restarts above every number found in the store. *)
Definition initialize (t : Tracker) (db : Store) : Tracker :=
  set_nextId t (getMaxBalloonId db + 1).

(** [resetState] *)
Definition resetState (t : Tracker) : Tracker := mkTracker 1 [] None 0.

(** [{ ...balloon, id: `balloon_${String(this.nextId++).padStart(4, '0')}`,
       status: 'new', confidence }] *)
Definition as_new (n : Z) (conf : float) (b : BalloonDataPoint) : BalloonDataPoint :=
  {| id := balloon_id n; status := New; confidence := conf;
     latitude := latitude b; longitude := longitude b; altitude_km := altitude_km b;
     timestamp := timestamp b; hour_offset := hour_offset b;
     speed_kmh := speed_kmh b; direction_deg := direction_deg b |}.

Fixpoint mint (n : Z) (conf : float) (bs : list BalloonDataPoint)
  : list BalloonDataPoint * Z :=
  match bs with
  | [] => ([], n)
  | b :: bs' => let '(out, n') := mint (n + 1) conf bs' in (as_new n conf b :: out, n')
  end.

Record CandidateMatch := mkCand { prevIdx : nat; prev : BalloonDataPoint; cost : float }.

Definition MAX_ACCEPTABLE_COST : float := 70.
Definition GREEDY_COST_THRESHOLD : float := 30.
Definition GREEDY_ALTITUDE_THRESHOLD : float := 5.
Definition INFINITY_COST : float := 1e9.

Definition node_of (b : BalloonDataPoint) : BalloonTreeNode :=
  mkNode (mkBBox (longitude b) (latitude b) (longitude b) (latitude b)) b.

Definition searchRadius : float := (MAX_DISTANCE_KM_PER_HOUR * 1.5 / 111)%float.

Definition search_box (curr : BalloonDataPoint) : BBox :=
  mkBBox (longitude curr - searchRadius) (latitude curr - searchRadius)
         (longitude curr + searchRadius) (latitude curr + searchRadius).

(** [previousData.forEach((b, i) => prevIndexMap.set(b.id, i))] *)
Definition prevIndexMap (previousData : list BalloonDataPoint) : gmap string nat :=
  foldl (fun m ib => <[ id ib.2 := ib.1 ]> m) ∅ (imap (fun i b => (i, b)) previousData).

Definition by_cost (a b : CandidateMatch) : bool := (cost a - cost b <? 0)%float.

(** The sorted candidate list of one current balloon. *)
Definition candidates_for (L : Libs) (prevNodes : list BalloonTreeNode)
    (pim : gmap string nat) (historyByBalloonId : gmap string (list BalloonDataPoint))
    (curr : BalloonDataPoint) : list CandidateMatch :=
  let nearby := rbush_search L prevNodes (search_box curr) in
  let candidates :=
    omap (fun node =>
            let history := default [] (historyByBalloonId !! id (balloon node)) in
            let cost := calculateMatchScore L curr (balloon node) history in
            if (cost <? infinity)%float && (cost <=? MAX_ACCEPTABLE_COST)%float
            then Some (mkCand (default 0%nat (pim !! id (balloon node))) (balloon node) cost)
            else None)
         nearby in
  stable_sort by_cost candidates.

(** The state of the two matching phases. *)
Record Matching := mkMatching {
  tracked : list BalloonDataPoint;
  matchedPrevIds : gset string;
  matchedCurrIndices : gset nat;
  conflictingCurrIndices : list nat;
}.

Definition addMatch (M : MathLib) (st : Matching) (curr prev : BalloonDataPoint)
    (cost : float) (currIdx : nat) : Matching :=
  let velocity := calculateVelocity M prev curr in
  let normalizedCost := (cost / 100)%float in
  let conf := JS.Math_max 0.3 (Math_exp M (- normalizedCost * 2)) in
  let row :=
    {| id := id prev;
       speed_kmh := Some (v_speed_kmh velocity);
       direction_deg := Some (v_direction_deg velocity);
       confidence := conf; status := Active;
       latitude := latitude curr; longitude := longitude curr;
       altitude_km := altitude_km curr; timestamp := timestamp curr;
       hour_offset := hour_offset curr |} in
  mkMatching (tracked st ++ [row])
             ({[ id prev ]} ∪ matchedPrevIds st)
             ({[ currIdx ]} ∪ matchedCurrIndices st)
             (conflictingCurrIndices st).

Definition defer (st : Matching) (currIdx : nat) : Matching :=
  mkMatching (tracked st) (matchedPrevIds st) (matchedCurrIndices st)
             (conflictingCurrIndices st ++ [currIdx]).

(** How many current balloons have [prevId] as their best candidate. *)
Definition prevIdDemand (candidatesPerCurrent : list (list CandidateMatch))
  : gmap string nat :=
  foldl (fun m candidates =>
           match candidates with
           | best :: _ => <[ id (prev best) := S (default 0%nat (m !! id (prev best))) ]> m
           | [] => m
           end) ∅ candidatesPerCurrent.

(** A current position is contested when two or more previous balloons are
    among its candidates and more than one of them has a cost below twice the
    best and below 50. *)
Definition contested (candidates : list CandidateMatch) : bool :=
  let prevIds : gset string := list_to_set (map (fun c => id (prev c)) candidates) in
  match candidates with
  | best :: _ =>
      (1 <? size prevIds)%nat && (2 <=? length candidates)%nat &&
      (1 <? length (filter (fun c => ((cost c <? cost best * 2) &&
                                      (cost c <? 50))%float = true) candidates))%nat
  | [] => false
  end.

(** PHASE 1: one step of the greedy pass. *)
Definition greedy_step (M : MathLib) (demand : gmap string nat)
    (st : Matching) (item : nat * (BalloonDataPoint * list CandidateMatch)) : Matching :=
  let '(currIdx, (curr, candidates)) := item in
  match candidates with
  | [] => st
  | best :: rest =>
      let altDelta := abs (altitude_km curr - altitude_km (prev best)) in
      if (1 <? default 0%nat (demand !! id (prev best)))%nat then defer st currIdx
      else if contested candidates then defer st currIdx
      else
        match rest with
        | [] =>
            if negb (bool_decide (id (prev best) ∈ matchedPrevIds st)) &&
               (altDelta <? GREEDY_ALTITUDE_THRESHOLD)%float &&
               (cost best <? GREEDY_COST_THRESHOLD)%float
            then addMatch M st curr (prev best) (cost best) currIdx
            else defer st currIdx
        | secondBest :: _ =>
            if (cost best <? GREEDY_COST_THRESHOLD)%float &&
               (cost best <? cost secondBest * 0.5)%float &&
               (altDelta <? GREEDY_ALTITUDE_THRESHOLD)%float &&
               negb (bool_decide (id (prev best) ∈ matchedPrevIds st))
            then addMatch M st curr (prev best) (cost best) currIdx
            else defer st currIdx
        end
  end.

(** Insertion into a [Set] kept in insertion order. *)
Definition set_add (x : nat) (l : list nat) : list nat :=
  if bool_decide (x ∈ l) then l else l ++ [x].

Definition index_of (x : nat) (l : list nat) : option nat :=
  fst <$> list_find (fun y => y = x) l.

(** One row of the conflict matrix. *)
Definition cost_row (k : nat) (unmatchedPrevIndices : list nat)
    (candidates : list CandidateMatch) : list float :=
  foldl (fun row candidate =>
           match index_of (prevIdx candidate) unmatchedPrevIndices with
           | Some col => <[ col := cost candidate ]> row
           | None => row
           end) (replicate k INFINITY_COST) candidates.

(** PHASE 2: the conflicting balloons go through the assignment solver. *)
Definition hungarian_phase (L : Libs) (currentData previousData : list BalloonDataPoint)
    (candidatesPerCurrent : list (list CandidateMatch)) (st : Matching) : Matching :=
  let conflicting := conflictingCurrIndices st in
  let matched1 := matchedPrevIds st in
  let conflictCandidates (currIdx : nat) : list CandidateMatch :=
    filter (fun c => id (prev c) ∉ matched1) (default [] (candidatesPerCurrent !! currIdx)) in
  let unmatchedPrevIndices :=
    foldl (fun acc currIdx =>
             foldl (fun acc c => set_add (prevIdx c) acc) acc (conflictCandidates currIdx))
          [] conflicting in
  if bool_decide (conflicting = []) || bool_decide (unmatchedPrevIndices = []) then st
  else
    let k := Nat.max (length conflicting) (length unmatchedPrevIndices) in
    let costMatrix :=
      map (fun i => match conflicting !! i with
                    | Some currIdx => cost_row k unmatchedPrevIndices (conflictCandidates currIdx)
                    | None => replicate k INFINITY_COST
                    end) (seq 0 k) in
    foldl (fun st ij =>
             let '(i, j) := ij in
             match conflicting !! i, unmatchedPrevIndices !! j with
             | Some currIdx, Some pIdx =>
                 let cost := default INFINITY_COST (costMatrix !! i ≫= fun row => row !! j) in
                 if JS.ge cost INFINITY_COST then st
                 else
                   match currentData !! currIdx, previousData !! pIdx with
                   | Some curr, Some prev => addMatch L st curr prev cost currIdx
                   | _, _ => st          (* never: both indices come from the arrays *)
                   end
             | _, _ => st                (* i or j beyond the real rows and columns *)
             end) st (munkres L costMatrix).

Definition trackBalloons (L : Libs) (t : Tracker) (db : Store)
    (currentData previousData : list BalloonDataPoint)
    (historyByBalloonId : gmap string (list BalloonDataPoint))
  : list BalloonDataPoint * Tracker * Store :=
  match previousData with
  | [] =>
      (* first hour: every balloon is new; nothing is saved here *)
      let '(out, n) := mint (nextId t) 1 currentData in
      (out, set_nextId t n, db)
  | _ =>
      let prevNodes := map node_of previousData in
      let pim := prevIndexMap previousData in
      let candidatesPerCurrent :=
        map (candidates_for L prevNodes pim historyByBalloonId) currentData in
      let demand := prevIdDemand candidatesPerCurrent in
      let st1 :=
        foldl (greedy_step L demand) (mkMatching [] ∅ ∅ [])
              (imap (fun i cc => (i, cc)) (zip currentData candidatesPerCurrent)) in
      let st2 := hungarian_phase L currentData previousData candidatesPerCurrent st1 in
      let unmatched :=
        omap (fun ic => if bool_decide (ic.1 ∈ matchedCurrIndices st2) then None else Some ic.2)
             (imap (fun i c => (i, c)) currentData) in
      let '(fresh, n) := mint (nextId t) 0.5 unmatched in
      let result := tracked st2 ++ fresh in
      (result, set_nextId t n, saveTrackedBalloons db result)
  end.

(** *** [processHistoricalData] *)

(** A JavaScript [Map] with small keys, in insertion order. *)
Definition assoc_get {V} (k : Z) (m : list (Z * V)) : option V :=
  (fun found : nat * (Z * V) => found.2.2) <$> list_find (fun kv : Z * V => kv.1 = k) m.

Fixpoint assoc_set {V} (k : Z) (v : V) (m : list (Z * V)) : list (Z * V) :=
  match m with
  | [] => [(k, v)]
  | (k', v') :: m' => if bool_decide (k' = k) then (k, v) :: m' else (k', v') :: assoc_set k v m'
  end.

(** [s.replace(pattern, '')]: the first occurrence goes. *)
Fixpoint remove_first (pattern s : string) : string :=
  if String.prefix pattern s then String.substring (String.length pattern) (String.length s) s
  else match s with
       | EmptyString => EmptyString
       | String c s' => String c (remove_first pattern s')
       end.

(** [parseInt] on an optional sign followed by digits; [None] is [NaN]. *)
Definition parseInt (s : string) : option Z :=
  match s with
  | String c s' =>
      if Ascii.eqb c (Ascii.ascii_of_nat 45) then Z.opp <$> digits_prefix None s'
      else if Ascii.eqb c (Ascii.ascii_of_nat 43) then digits_prefix None s'
      else digits_prefix None s
  | EmptyString => None
  end.

(** [Math.round((a - b) / (1000 * 60 * 60))] on millisecond counts. *)
Definition hours_between (a b : Timestamp) : Z := (2 * (a - b) + HOUR_MS) / (2 * HOUR_MS).

Definition set_hour_offset (h : Z) (b : BalloonDataPoint) : BalloonDataPoint :=
  {| hour_offset := h;
     id := id b; latitude := latitude b; longitude := longitude b;
     altitude_km := altitude_km b; timestamp := timestamp b;
     speed_kmh := speed_kmh b; direction_deg := direction_deg b;
     confidence := confidence b; status := status b |}.

(** The per-balloon history handed to the score: the last three positions. *)
Definition push_history (h : gmap string (list BalloonDataPoint)) (b : BalloonDataPoint)
  : gmap string (list BalloonDataPoint) :=
  let history := default [] (h !! id b) ++ [b] in
  <[ id b := if (3 <? length history)%nat then drop 1 history else history ]> h.

Definition cacheMaxAge : Z := 600000.

Record Reprocess := mkReprocess {
  rp_tracker : Tracker;
  rp_db : Store;
  rp_previousHourData : list BalloonDataPoint;
  rp_processedData : list BalloonDataPoint;
  rp_history : gmap string (list BalloonDataPoint);
}.

Definition process_hour (L : Libs) (currentTimestamp : Timestamp)
    (byHour : list (Z * list BalloonDataPoint)) (st : Reprocess) (hour : Z) : Reprocess :=
  let currentHourData := default [] (assoc_get hour byHour) in
  match currentHourData with
  | [] => st                                   (* never: a group has a first element *)
  | first :: _ =>
      let ts := timestamp first in
      let existingTracking := getTrackedBalloonsAtTimestamp (rp_db st) ts in
      let '(tracked, t, db) :=
        match existingTracking with
        | _ :: _ =>
            let hoursDiff := hours_between currentTimestamp ts in
            let tracked := map (set_hour_offset hoursDiff) existingTracking in
            let maxId :=
              foldl (fun mx b => match parseInt (remove_first "balloon_" (id b)) with
                                 | None => mx
                                 | Some numId => Z.max mx numId
                                 end) 0 existingTracking in
            let t := rp_tracker st in
            (tracked, (if nextId t <=? maxId then set_nextId t (maxId + 1) else t), rp_db st)
        | [] =>
            trackBalloons L (rp_tracker st) (rp_db st) currentHourData
                          (rp_previousHourData st) (rp_history st)
        end in
      let t' := mkTracker (nextId t) (assoc_set hour tracked (processedDataCache t))
                          (cacheTimestamp t) (cacheCreatedAt t) in
      mkReprocess t' db tracked (rp_processedData st ++ tracked)
                  (foldl push_history (rp_history st) tracked)
  end.

Definition processHistoricalData (L : Libs) (t : Tracker) (db : Store)
    (allData : list BalloonDataPoint) (now : Z)
  : list BalloonDataPoint * Tracker * Store :=
  let currentTimestamp := match allData with b :: _ => timestamp b | [] => now end in
  let cacheAge := now - cacheCreatedAt t in
  let cacheValid :=
    bool_decide (cacheTimestamp t = Some currentTimestamp) &&
    (0 <? length (processedDataCache t))%nat && (cacheAge <? cacheMaxAge) in
  if cacheValid then (concat (map snd (processedDataCache t)), t, db)
  else
    let byHour :=
      foldl (fun m b => assoc_set (hour_offset b)
                          (default [] (assoc_get (hour_offset b) m) ++ [b]) m) [] allData in
    let sortedHours := stable_sort (fun a b => b - a <? 0) (map fst byHour) in
    let st := foldl (process_hour L currentTimestamp byHour)
                    (mkReprocess t db [] [] ∅) sortedHours in
    let t' := rp_tracker st in
    (rp_processedData st,
     mkTracker (nextId t') (processedDataCache t') (Some currentTimestamp) now,
     rp_db st).

(** ** Ingest controller ([WindborneService]) *)

Record Service := mkService {
  balloonHistory : list BalloonDataPoint;
  lastUpdateTimestamp : option Timestamp;
  autoUpdateEnabled : bool;
}.

Record World := mkWorld {
  world_db : Store;
  world_tracker : Tracker;
  world_service : Service;
}.

(** The upstream feed: what the request for [HH.json] meets. *)
Definition Upstream := Z -> HttpOutcome.

(** [fetchHourData] never throws (see [fetchHourData_total]); its callers take
    the array it resolves to. *)
Definition fetched (o : HttpOutcome) : list RawBalloonData :=
  match fetchHourData o with
  | Normal entries => map raw_of_json entries
  | Throw _ => []
  end.

(** [rawData.map((raw, index) => ({ id: `temp_${hourOffset}_${index}`, ... }))] *)
Definition to_points (hourOffset : Z) (ts : Timestamp) (rawData : list RawBalloonData)
  : list BalloonDataPoint :=
  imap (fun index raw =>
          {| id := temp_id hourOffset index;
             latitude := raw0 raw; longitude := raw1 raw; altitude_km := raw2 raw;
             timestamp := ts; hour_offset := hourOffset;
             speed_kmh := None; direction_deg := None;
             confidence := 1; status := Active |}) rawData.

Definition MAX_HOURS : nat := 24.

(** [fetchAll24Hours]: the batches of six run one after the other and each
    hour is handled in order, so the effect is that of a loop over the hours. *)
Definition fetchAll24Hours (upstream : Upstream) (now : Z) (db : Store)
  : list BalloonDataPoint * Store :=
  foldl (fun '(allData, db) h =>
           let hourOffset := Z.of_nat h in
           let rawData := fetched (upstream hourOffset) in
           let ts := getTimestampForOffset now hourOffset in
           match rawData with
           | [] => (allData, db)
           | _ => (allData ++ to_points hourOffset ts rawData,
                   saveBalloonSnapshot db ts rawData)
           end) ([], db) (seq 0 MAX_HOURS).

(** [fallbackFullFetch]: one reading of the clock, [now], stands for the
    clock of every step, the cleanup included. *)
Definition fallbackFullFetch (L : Libs) (upstream : Upstream) (now : Z) (w : World) : World :=
  let '(allData, db1) := fetchAll24Hours upstream now (world_db w) in
  match allData with
  | [] => mkWorld db1 (world_tracker w) (world_service w)   (* "No data received" *)
  | _ =>
      let hourGroups :=
        foldl (fun m b => assoc_set (timestamp b)
                            (default [] (assoc_get (timestamp b) m) ++ [b]) m) [] allData in
      let db2 :=
        foldl (fun db g =>
                 saveBalloonSnapshot db g.1
                   (map (fun b => mkRaw (latitude b) (longitude b) (altitude_km b)) g.2))
              db1 hourGroups in
      let '(trackedData, t, db3) :=
        processHistoricalData L (world_tracker w) db2 allData now in
      let db4 := saveTrackedBalloons db3 trackedData in
      let db5 := (cleanupStaleData db4 now).1 in
      mkWorld db5 t
        (mkService allData (Some (getCurrentTimestamp now)) (autoUpdateEnabled (world_service w)))
  end.

(** [runHourlyUpdate]: [now] is the clock when the cycle starts, [now_cleanup]
    the clock when its cleanup step runs. The store operations of the model
    do not fail, so the [catch] branch (a fallback fetch) has nothing to
    catch. *)
Definition runHourlyUpdate (L : Libs) (upstream : Upstream) (forceRun : bool)
    (now now_cleanup : Z) (w : World) : World :=
  if negb (autoUpdateEnabled (world_service w)) && negb forceRun then w
  else
    let currentTimestamp := getCurrentTimestamp now in
    let newHourData := fetched (upstream 0) in
    let w1 :=
      match newHourData with
      | _ :: _ =>
          let db1 := saveBalloonSnapshot (world_db w) currentTimestamp newHourData in
          let previousHourFormatted :=
            getCurrentTimestamp (currentTimestamp - 60 * 60 * 1000) in
          let previousHourTracked := getTrackedBalloonsAtTimestamp db1 previousHourFormatted in
          let newHourBalloons := to_points 0 currentTimestamp newHourData in
          let '(trackedNewHour, t, db2) :=
            trackBalloons L (world_tracker w) db1 newHourBalloons previousHourTracked ∅ in
          let db3 := saveTrackedBalloons db2 trackedNewHour in
          mkWorld db3 t
            (mkService trackedNewHour (Some currentTimestamp)
                       (autoUpdateEnabled (world_service w)))
      | [] => fallbackFullFetch L upstream now w
      end in
    mkWorld (cleanupStaleData (world_db w1) now_cleanup).1 (world_tracker w1) (world_service w1).

(** [triggerImmediateUpdate] *)
Definition triggerImmediateUpdate (L : Libs) (upstream : Upstream) (now now_cleanup : Z)
    (w : World) : World :=
  runHourlyUpdate L upstream false now now_cleanup w.

(** [completeRebuild] *)
Definition completeRebuild (L : Libs) (upstream : Upstream) (now : Z) (w : World) : World :=
  let db := clearAllData (world_db w) in
  let t := resetState (world_tracker w) in
  fallbackFullFetch L upstream now
    (mkWorld db t (mkService [] None (autoUpdateEnabled (world_service w)))).

(** ** Trajectory prediction ([TrajectoryService]) *)

Inductive Method := persistence | wind | hybrid.

Record PredictedPosition := mkPredicted {
  p_latitude : float;
  p_longitude : float;
  p_altitude_km : float;
  p_timestamp : Timestamp;
  p_confidence : float;
  p_method : Method;
}.

Definition toDegrees (radians : float) : float := (radians * (180 / JS.PI))%float.

(** The spherical forward formula. *)
Definition calculateNewPosition (M : MathLib) (lat lon displacement_km bearing_deg : float)
  : float * float :=
  let bearing_rad := toRadians bearing_deg in
  let lat_rad := toRadians lat in
  let angular_distance := (displacement_km / EARTH_RADIUS_KM)%float in
  let new_lat_rad :=
    Math_asin M
      (Math_sin M lat_rad * Math_cos M angular_distance +
       Math_cos M lat_rad * Math_sin M angular_distance * Math_cos M bearing_rad)%float in
  let new_lon_rad :=
    (toRadians lon +
     Math_atan2 M
       (Math_sin M bearing_rad * Math_sin M angular_distance * Math_cos M lat_rad)
       (Math_cos M angular_distance - Math_sin M lat_rad * Math_sin M new_lat_rad))%float in
  (toDegrees new_lat_rad, toDegrees new_lon_rad).

(** [futureTime.setHours(futureTime.getHours() + hoursAhead)] (no change of
    the UTC offset in between). *)
Definition add_hours (ts : Timestamp) (hoursAhead : Z) : Timestamp := ts + hoursAhead * HOUR_MS.

(** [x || 0] on an optional number *)
Definition or_zero (x : option float) : float :=
  match x with
  | Some v => if JS.truthy v then v else 0%float
  | None => 0%float
  end.

Definition predictByPersistenceSync (M : MathLib) (current : BalloonDataPoint)
    (historicalPositions : list BalloonDataPoint) (hoursAhead : Z) : PredictedPosition :=
  let speed := or_zero (speed_kmh current) in
  let direction := or_zero (direction_deg current) in
  if (speed =? 0)%float then
    {| p_latitude := latitude current; p_longitude := longitude current;
       p_altitude_km := altitude_km current;
       p_timestamp := add_hours (timestamp current) hoursAhead;
       p_confidence := 0.3; p_method := persistence |}
  else
    let displacement_km := (speed * JS.of_Z hoursAhead)%float in
    let newPos := calculateNewPosition M (latitude current) (longitude current)
                                       displacement_km direction in
    {| p_latitude := newPos.1; p_longitude := newPos.2;
       p_altitude_km := altitude_km current;
       p_timestamp := add_hours (timestamp current) hoursAhead;
       p_confidence := JS.Math_max 0.2 (0.8 - JS.of_Z hoursAhead * 0.15);
       p_method := persistence |}.

Definition predictByWindSync (M : MathLib) (current : BalloonDataPoint)
    (windData : option WindData) (hoursAhead : Z) : PredictedPosition :=
  match windData with
  | None =>
      {| p_latitude := latitude current; p_longitude := longitude current;
         p_altitude_km := altitude_km current;
         p_timestamp := add_hours (timestamp current) hoursAhead;
         p_confidence := 0.3; p_method := wind |}
  | Some w =>
      let displacement_km := (w_wind_speed_kmh w * JS.of_Z hoursAhead)%float in
      let newPos := calculateNewPosition M (latitude current) (longitude current)
                                         displacement_km (w_wind_direction_deg w) in
      {| p_latitude := newPos.1; p_longitude := newPos.2;
         p_altitude_km := altitude_km current;
         p_timestamp := add_hours (timestamp current) hoursAhead;
         p_confidence := JS.Math_max 0.3 (0.9 - JS.of_Z hoursAhead * 0.12);
         p_method := wind |}
  end.

Definition predictByHybridSync (M : MathLib) (current : BalloonDataPoint)
    (historicalPositions : list BalloonDataPoint) (windData : option WindData)
    (hoursAhead : Z) : PredictedPosition :=
  let persistencePred := predictByPersistenceSync M current historicalPositions hoursAhead in
  let windPred := predictByWindSync M current windData hoursAhead in
  let weight_wind := 0.6%float in
  let weight_persistence := 0.4%float in
  {| p_latitude :=
       (p_latitude windPred * weight_wind + p_latitude persistencePred * weight_persistence)%float;
     p_longitude :=
       (p_longitude windPred * weight_wind + p_longitude persistencePred * weight_persistence)%float;
     p_altitude_km := altitude_km current;
     p_timestamp := add_hours (timestamp current) hoursAhead;
     p_confidence := JS.Math_max 0.4 (0.95 - JS.of_Z hoursAhead * 0.1);
     p_method := hybrid |}.

(** The keys of the wind map: [`${lat.toFixed(2)},${lon.toFixed(2)},${alt.toFixed(1)}`],
    with [`,${timestamp}`] appended when the location carries one. The digits
    stand for the text. *)
Definition WindMapKey : Type :=
  option (bool * Z) * option (bool * Z) * option (bool * Z) * option Timestamp.

Definition wind_key (lat lon alt : float) (ts : option Timestamp) : WindMapKey :=
  (toFixed 2 lat, toFixed 2 lon, toFixed 1 alt, ts).

Definition predict_one (M : MathLib) (method : Method) (currentPos : BalloonDataPoint)
    (historicalPositions : list BalloonDataPoint) (windData : option WindData)
  : PredictedPosition :=
  match method with
  | persistence => predictByPersistenceSync M currentPos historicalPositions 1
  | wind => predictByWindSync M currentPos windData 1
  | hybrid => predictByHybridSync M currentPos historicalPositions windData 1
  end.

(** [{ ...currentPos, latitude, longitude, altitude_km }] *)
Definition move_to (currentPos : BalloonDataPoint) (p : PredictedPosition) : BalloonDataPoint :=
  {| latitude := p_latitude p; longitude := p_longitude p; altitude_km := p_altitude_km p;
     id := id currentPos; timestamp := timestamp currentPos;
     hour_offset := hour_offset currentPos;
     speed_kmh := speed_kmh currentPos; direction_deg := direction_deg currentPos;
     confidence := confidence currentPos; status := status currentPos |}.

(** The loop of [predictTrajectoryWithWindData]: [predictionHours] rounds, each
    starting from the point the previous one predicted. *)
Fixpoint predict_loop (M : MathLib) (method : Method)
    (historicalPositions : list BalloonDataPoint) (windDataMap : gmap WindMapKey WindData)
    (predictionHours : nat) (currentPos : BalloonDataPoint) : list PredictedPosition :=
  match predictionHours with
  | O => []
  | S rest =>
      let windData :=
        windDataMap !! wind_key (latitude currentPos) (longitude currentPos)
                                (altitude_km currentPos) None in
      let prediction := predict_one M method currentPos historicalPositions windData in
      prediction ::
        predict_loop M method historicalPositions windDataMap rest (move_to currentPos prediction)
  end.

Record BalloonTrajectory := mkTrajectory {
  t_balloon_id : string;
  historical_positions : list BalloonDataPoint;
  predicted_positions : list PredictedPosition;
  prediction_horizon_hours : nat;
}.

Definition predictTrajectoryWithWindData (M : MathLib) (balloon : BalloonDataPoint)
    (historicalPositions : list BalloonDataPoint) (windDataMap : gmap WindMapKey WindData)
    (predictionHours : nat) (method : Method) : BalloonTrajectory :=
  mkTrajectory (id balloon) historicalPositions
    (predict_loop M method historicalPositions windDataMap predictionHours balloon)
    predictionHours.

(** *** Value scoring *)

Record ActualPosition := mkActual {
  a_latitude : float;
  a_longitude : float;
  a_altitude_km : float;
  a_timestamp : Timestamp;
}.

Record PredictedSummary := mkSummary {
  s_latitude : float;
  s_longitude : float;
  s_altitude_km : float;
  s_confidence : float;
}.

Record ValueDataPoint := mkValuePoint {
  vp_hour : nat;
  actual_position : ActualPosition;
  predicted_position : PredictedSummary;
  prediction_error_km : float;
  value_score : float;
}.

Record ValueCalculationResult := mkValueResult {
  vr_balloon_id : string;
  calculation_timestamp : Timestamp;
  hours_calculated : Z;
  vr_method : Method;
  overall_value_score : float;
  value_over_time : list ValueDataPoint;
}.

Record WindLocation := mkLocation {
  loc_latitude : float;
  loc_longitude : float;
  loc_altitude_km : float;
  loc_timestamp : option Timestamp;
}.

(** One round of the scoring loop, for the hour [i]. *)
Definition score_hour (M : MathLib) (method : Method)
    (sortedTrajectory : list BalloonDataPoint) (windDataMap : gmap WindMapKey WindData)
    (i : nat) : option ValueDataPoint :=
  match sortedTrajectory !! i, sortedTrajectory !! S i with
  | Some currentPos, Some actualNextPos =>
      let windData :=
        windDataMap !! wind_key (latitude currentPos) (longitude currentPos)
                                (altitude_km currentPos) (Some (timestamp currentPos)) in
      let historicalContext := take (S i) sortedTrajectory in
      let prediction := predict_one M method currentPos historicalContext windData in
      let errorKm :=
        calculateDistance M (p_latitude prediction) (p_longitude prediction)
                          (latitude actualNextPos) (longitude actualNextPos) in
      Some (mkValuePoint i
              (mkActual (latitude actualNextPos) (longitude actualNextPos)
                        (altitude_km actualNextPos) (timestamp actualNextPos))
              (mkSummary (p_latitude prediction) (p_longitude prediction)
                         (p_altitude_km prediction) (p_confidence prediction))
              errorKm errorKm)
  | _, _ => None
  end.

(** [calculateBalloonValueOptimized]; [fetchWind] is the batch request to the
    wind service, [now] the clock at the end. *)
Definition calculateBalloonValueOptimized (M : MathLib)
    (fetchWind : list WindLocation -> gmap WindMapKey WindData) (now : Z)
    (balloonId : string) (trajectory : list BalloonDataPoint) (hours : Z) (method : Method)
  : Completion ValueCalculationResult :=
  if (length trajectory <? 2)%nat then Throw InsufficientData
  else
    let maxHours := Z.min hours (Z.of_nat (length trajectory) - 1) in
    if maxHours <? 1 then Throw InsufficientData
    else
      let sortedTrajectory := stable_sort by_timestamp trajectory in
      let windLocations :=
        map (fun pos => mkLocation (latitude pos) (longitude pos) (altitude_km pos)
                                   (Some (timestamp pos)))
            (take (Z.to_nat maxHours) sortedTrajectory) in
      let windDataMap := fetchWind windLocations in
      let valueOverTime :=
        omap (score_hour M method sortedTrajectory windDataMap) (seq 0 (Z.to_nat maxHours)) in
      let avgError :=
        if (0 <? length valueOverTime)%nat
        then (foldl (fun sum v => (sum + prediction_error_km v)%float) 0%float valueOverTime
              / JS.of_Z (Z.of_nat (length valueOverTime)))%float
        else 0%float in
      Normal (mkValueResult balloonId now maxHours method avgError valueOverTime).

(** ** Wind service ([WindService]) *)

Definition PRESSURE_LEVELS : list Z :=
  [1000; 975; 950; 925; 900; 850; 800; 700; 600; 500; 400; 300; 250; 200; 150; 100; 70; 50; 30].

(** [altitudeToPressure]: the level closest to [P0 * exp(-h / H)]. *)
Definition altitudeToPressure (M : MathLib) (altitude : float) : Z :=
  let P0 := 1013.25%float in
  let H := 7.4%float in
  let pressure := (P0 * Math_exp M (- altitude / H))%float in
  match PRESSURE_LEVELS with
  | first :: rest =>
      foldl (fun prev curr =>
               if (abs (JS.of_Z curr - pressure) <? abs (JS.of_Z prev - pressure))%float
               then curr else prev) first rest
  | [] => 0
  end.

(** A coordinate as it is written into the query string: [x.toFixed(2)] in a
    batch request, [x.toString()] (which determines [x]) in a single one. *)
Inductive CoordText :=
| Fixed2 (digits : option (bool * Z))
| Exact (x : float).

(** The request sent to the provider and what comes back. *)
Record WindRequest := mkWindRequest {
  req_latitude : list CoordText;                 (* comma separated *)
  req_longitude : list CoordText;
  req_pressure : Z;                              (* names the two hourly variables *)
  req_forecast_days : Z;
  req_past_days : Z;
}.

(** One element of the response: [None] when it has no usable [hourly] part
    (missing, or one of the two wind arrays missing), else the hours and the
    two arrays, whose entries may be [null]. *)
Record Hourly := mkHourly {
  h_time : list Timestamp;
  h_wind_speed : list (option float);
  h_wind_direction : list (option float);
}.

Inductive WindOutcome :=
| WindError (status : option Z)                 (* axios rejects; 429 is the rate limit *)
| WindResults (results : list (option Hourly)).

Definition WindApi := WindRequest -> WindOutcome.

(** What the service does to the outside: cache reads and writes, requests
    and pauses. *)
Inductive WindEvent :=
| EvCacheGet (lat lon alt : option Z)
| EvCacheSet (data : WindData)
| EvCacheClean
| EvHttpGet (req : WindRequest)
| EvSleep (ms : Z).

(** The response hour closest to [targetTime]: the first one at the smallest
    distance, with that distance. *)
Definition closest_hour (times : list Timestamp) (targetTime : Z) : option (nat * Z) :=
  foldl (fun best jt =>
           let diff := Z.abs (jt.2 - targetTime) in
           match best with
           | Some (_, minDiff) => if diff <? minDiff then Some (jt.1, diff) else best
           | None => Some (jt.1, diff)
           end) None (imap (fun j t => (j, t)) times).

Definition wind_vector (M : MathLib) (lat lon alt : float) (pressure : Z)
    (wind_speed_kmh windDirection_deg : float) (ts : Timestamp) : WindData :=
  let windSpeed_ms := (wind_speed_kmh / 3.6)%float in
  let direction_rad := (windDirection_deg * JS.PI / 180)%float in
  {| w_latitude := lat; w_longitude := lon; w_altitude_km := alt;
     w_pressure_hpa := JS.of_Z pressure;
     w_wind_u_ms := (- windSpeed_ms * Math_sin M direction_rad)%float;
     w_wind_v_ms := (- windSpeed_ms * Math_cos M direction_rad)%float;
     w_wind_speed_kmh := wind_speed_kmh;
     w_wind_direction_deg := windDirection_deg;
     w_timestamp := ts |}.

(** [Math.ceil(Math.abs(ms / day))] on a millisecond count. *)
Definition days_ceil (ms : Z) : Z := - ((- Z.abs ms) / DAY_MS).

Definition time_frame (now : Z) (minTimestamp maxTimestamp : option Timestamp) : Z * Z :=
  match minTimestamp with
  | None => (0, 1)
  | Some oldestTime =>
      let newestTime := default oldestTime maxTimestamp in
      let diffOldest := oldestTime - now in
      let diffNewest := newestTime - now in
      let '(past_days, forecast_days) :=
        if diffNewest <? 0 then (days_ceil diffOldest + 1, 1)
        else if DAY_MS <? diffOldest then (0, days_ceil diffNewest + 1)
        else ((if diffOldest <? 0 then days_ceil diffOldest + 1 else 0),
              (if 0 <? diffNewest then days_ceil diffNewest + 1 else 1)) in
      (Z.min past_days 3, Z.min forecast_days 3)
  end.

Record LocationGroup := mkGroup {
  g_locations : list WindLocation;
  g_minTimestamp : option Timestamp;
  g_maxTimestamp : option Timestamp;
}.

(** The grouping pass: one group per pressure level, in order of appearance. *)
Definition group_location (M : MathLib) (groups : list (Z * LocationGroup)) (loc : WindLocation)
  : list (Z * LocationGroup) :=
  let pressure := altitudeToPressure M (loc_altitude_km loc) in
  let roundedTimestamp := getCurrentTimestamp <$> loc_timestamp loc in
  let group :=
    default (mkGroup [] roundedTimestamp roundedTimestamp) (assoc_get pressure groups) in
  let lower :=
    match roundedTimestamp, g_minTimestamp group with
    | Some r, Some m => if r <? m then Some r else Some m
    | Some r, None => Some r
    | None, m => m
    end in
  let upper :=
    match roundedTimestamp, g_maxTimestamp group with
    | Some r, Some m => if m <? r then Some r else Some m
    | Some r, None => Some r
    | None, m => m
    end in
  assoc_set pressure (mkGroup (g_locations group ++ [loc]) lower upper) groups.

(** Binding one response element to its location. [None]: the callback threw
    (no location at that index, or no hour to read the timestamp from), which
    ends the batch. *)
Definition bind_result (M : MathLib) (pressure : Z) (batch : list WindLocation)
    (windDataMap : gmap WindMapKey WindData) (index : nat) (data : option Hourly)
  : option (gmap WindMapKey WindData) :=
  match data with
  | None => Some windDataMap
  | Some hourly =>
      match batch !! index with
      | None => None
      | Some loc =>
          let choice :=
            match loc_timestamp loc with
            | Some ts =>
                match closest_hour (h_time hourly) (getCurrentTimestamp ts) with
                | Some (j, minDiff) => if 90 * 60 * 1000 <? minDiff then None else Some j
                | None => None
                end
            | None => Some 0%nat
            end in
          match choice with
          | None => Some windDataMap               (* no hour within 90 minutes *)
          | Some hourIndex =>
              match h_time hourly !! hourIndex with
              | None => None
              | Some ts =>
                  match mjoin (h_wind_speed hourly !! hourIndex),
                        mjoin (h_wind_direction hourly !! hourIndex) with
                  | Some speed, Some direction =>
                      Some (<[ wind_key (loc_latitude loc) (loc_longitude loc)
                                        (loc_altitude_km loc) (loc_timestamp loc)
                               := wind_vector M (loc_latitude loc) (loc_longitude loc)
                                    (loc_altitude_km loc) pressure speed direction ts ]>
                              windDataMap)
                  | _, _ => Some windDataMap
                  end
              end
          end
      end
  end.

Fixpoint bind_results (M : MathLib) (pressure : Z) (batch : list WindLocation)
    (windDataMap : gmap WindMapKey WindData) (index : nat) (results : list (option Hourly))
  : gmap WindMapKey WindData * bool :=
  match results with
  | [] => (windDataMap, true)
  | data :: rest =>
      match bind_result M pressure batch windDataMap index data with
      | Some m => bind_results M pressure batch m (S index) rest
      | None => (windDataMap, false)
      end
  end.

Definition BATCH_SIZE : nat := 300.

(** The batches of one group: [fuel] bounds the number of rounds, one per
    started batch. *)
Fixpoint wind_batches (M : MathLib) (api : WindApi) (pressure past_days forecast_days : Z)
    (fuel : nat) (locs : list WindLocation)
    (acc : gmap WindMapKey WindData * list WindEvent)
  : gmap WindMapKey WindData * list WindEvent :=
  match fuel, locs with
  | S fuel', _ :: _ =>
      let batch := take BATCH_SIZE locs in
      let rest := drop BATCH_SIZE locs in
      let req :=
        mkWindRequest (map (fun loc => Fixed2 (toFixed 2 (loc_latitude loc))) batch)
                      (map (fun loc => Fixed2 (toFixed 2 (loc_longitude loc))) batch)
                      pressure forecast_days past_days in
      let '(windDataMap, events) := acc in
      let acc' :=
        match api req with
        | WindResults results =>
            let '(m, completed) := bind_results M pressure batch windDataMap 0 results in
            (m, events ++ [EvHttpGet req] ++
                (if completed && negb (bool_decide (rest = [])) then [EvSleep 1000] else []))
        | WindError status =>
            (windDataMap, events ++ [EvHttpGet req] ++
                (if bool_decide (status = Some 429) then [EvSleep 10000] else []))
        end in
      wind_batches M api pressure past_days forecast_days fuel' rest acc'
  | _, _ => acc
  end.

(** [getWindAtMultipleLocations]: the map it resolves to, the store it leaves
    and what it did to the outside. *)
Definition getWindAtMultipleLocations (M : MathLib) (api : WindApi) (now : Z) (db : Store)
    (locations : list WindLocation)
  : gmap WindMapKey WindData * Store * list WindEvent :=
  let locationGroups := foldl (group_location M) [] locations in
  let '(windDataMap, events) :=
    foldl (fun acc g =>
             let '(past_days, forecast_days) :=
               time_frame now (g_minTimestamp g.2) (g_maxTimestamp g.2) in
             wind_batches M api g.1 past_days forecast_days
                          (length (g_locations g.2)) (g_locations g.2) acc)
          (∅, []) locationGroups in
  (windDataMap, db, events).

(** [getWindCache(lat, lon, altitude_km)] without a timestamp: the most recent
    row under the rounded position. *)
Definition getWindCache_latest (db : Store) (lat lon altitude : float)
  : option (Z * WindData) :=
  let key := (round1 lat, round1 lon, round1 altitude) in
  foldr (fun kv best =>
           if bool_decide (kv.1.1 = key)
           then match best with
                | Some b => if b.1 <? kv.1.2 then Some (kv.1.2, kv.2) else best
                | None => Some (kv.1.2, kv.2)
                end
           else best) None (map_to_list (wind_cache db)).

Definition CACHE_TTL_MS : Z := 30 * 60 * 1000.

(** [clearExpiredWindCache]: whatever its argument, rows older than 48 hours go. *)
Definition clearExpiredWindCache (db : Store) (now : Z) : Store :=
  set_wind_cache db (filter (fun kv => ¬ (kv.1.2 < now - 48 * 60 * 60 * 1000)) (wind_cache db)).

(** [getWindAtLocation]: the single-location path, with its cache. [lucky] is
    the outcome of [Math.random() < 0.01]. The response arrays are taken to
    hold a number at the matched hour. *)
Definition getWindAtLocation (M : MathLib) (api : WindApi) (now : Z) (lucky : bool)
    (db : Store) (lat lon altitude : float) (ts : option Timestamp)
  : option WindData * Store * list WindEvent :=
  let targetTimeMs := getCurrentTimestamp (default now ts) in
  let isNow := Z.abs (now - targetTimeMs) <? 60 * 60 * 1000 in
  let lookup := if isNow then [EvCacheGet (round1 lat) (round1 lon) (round1 altitude)] else [] in
  let hit :=
    if isNow then
      match getWindCache_latest db lat lon altitude with
      | Some (cachedAt, cached) =>
          if (now - cachedAt <? CACHE_TTL_MS) &&
             (Z.abs (w_timestamp cached - targetTimeMs) <? 60 * 60 * 1000)
          then Some cached else None
      | None => None
      end
    else None in
  match hit with
  | Some cached => (Some cached, db, lookup)
  | None =>
      let db1 := if lucky then clearExpiredWindCache db now else db in
      let cleaned := if lucky then [EvCacheClean] else [] in
      let pressure := altitudeToPressure M altitude in
      let diff := targetTimeMs - now in
      let past_days := if diff <? 0 then days_ceil diff + 1 else 0 in
      let forecast_days := if DAY_MS <? diff then days_ceil diff + 1 else 1 in
      let req := mkWindRequest [Exact lat] [Exact lon] pressure
                               (Z.min forecast_days 3) (Z.min past_days 3) in
      let sent := lookup ++ cleaned ++ [EvHttpGet req] in
      match api req with
      | WindError _ => (None, db1, sent)
      | WindResults (Some hourly :: _) =>
          match closest_hour (h_time hourly) targetTimeMs with
          | Some (matchIndex, minDiff) =>
              if 90 * 60 * 1000 <? minDiff then (None, db1, sent)
              else
                match h_time hourly !! matchIndex,
                      mjoin (h_wind_speed hourly !! matchIndex),
                      mjoin (h_wind_direction hourly !! matchIndex) with
                | Some t, Some speed, Some direction =>
                    let windData := wind_vector M lat lon altitude pressure speed direction t in
                    if isNow then (Some windData, setWindCache db1 windData,
                                   sent ++ [EvCacheSet windData])
                    else (Some windData, db1, sent)
                | _, _, _ => (None, db1, sent)
                end
          | None => (None, db1, sent)
          end
      | WindResults _ => (None, db1, sent)
      end
  end.

(** ** Reference instances of the library code

    They make the model run on concrete inputs. [Ref.Math] evaluates the
    transcendental functions by argument reduction and power series (accurate
    to a few ulps on the arguments met here); [Ref.search] is the linear
    scan an R-tree search is specified by; [Ref.munkres] finds a cheapest
    assignment by enumeration. The general statements below quantify over
    all instances. *)

Module Ref.

(** [round x]: the integer nearest to [x], for |x| below 2^51. *)
Definition round (x : float) : float :=
  (x + 6755399441055744 - 6755399441055744)%float.

Fixpoint series (n : nat) (k : float) (term x2 acc : float) (step : float -> float) : float :=
  match n with
  | O => acc
  | S n' => let term' := (term * x2 / step k)%float in
            series n' (k + 1) term' x2 (acc + term') step
  end.

(** sin on [-pi/2, pi/2] *)
Definition sin_core (x : float) : float :=
  series 12 1 x (- (x * x)) x (fun k => (2 * k) * (2 * k + 1))%float.

Definition cos_core (x : float) : float :=
  series 12 1 1 (- (x * x)) 1 (fun k => (2 * k - 1) * (2 * k))%float.

Definition sin (x : float) : float :=
  if negb (JS.is_finite x) then nan
  else
    let r := (x - 2 * JS.PI * round (x / (2 * JS.PI)))%float in    (* in [-pi, pi] *)
    if (JS.PI / 2 <? r)%float then sin_core (JS.PI - r)
    else if (r <? - (JS.PI / 2))%float then sin_core (- JS.PI - r)
    else sin_core r.

Definition cos (x : float) : float :=
  if negb (JS.is_finite x) then nan
  else
    let r := (x - 2 * JS.PI * round (x / (2 * JS.PI)))%float in
    if (JS.PI / 2 <? r)%float then (- cos_core (JS.PI - r))%float
    else if (r <? - (JS.PI / 2))%float then (- cos_core (- JS.PI - r))%float
    else cos_core r.

Fixpoint atan_series (n : nat) (k : float) (pow x2 acc : float) : float :=
  match n with
  | O => acc
  | S n' => let pow' := (pow * x2)%float in
            atan_series n' (k + 2) pow' x2 (acc + pow' / k)
  end.

(** atan on [-1, 1]: three halvings of the angle, then the series. *)
Definition atan_small (x : float) : float :=
  let half t := (t / (1 + sqrt (1 + t * t)))%float in
  let t := half (half (half x)) in
  (8 * atan_series 14 3 t (- (t * t)) t)%float.

Definition atan (x : float) : float :=
  if (1 <? abs x)%float
  then if (0 <? x)%float then (JS.PI / 2 - atan_small (1 / x))%float
       else (- (JS.PI / 2) - atan_small (1 / x))%float
  else atan_small x.

Definition atan2 (y x : float) : float :=
  if PrimFloat.is_nan x || PrimFloat.is_nan y then nan
  else if (0 <? x)%float then atan (y / x)
  else if (x <? 0)%float then
    if (y <? 0)%float then (atan (y / x) - JS.PI)%float else (atan (y / x) + JS.PI)%float
  else if (0 <? y)%float then (JS.PI / 2)%float
  else if (y <? 0)%float then (- (JS.PI / 2))%float
  else if PrimFloat.get_sign x then JS.PI else y.

Definition asin (x : float) : float := atan2 x (sqrt (1 - x * x)).

Fixpoint repeat_square (n : nat) (x : float) : float :=
  match n with
  | O => x
  | S n' => let y := repeat_square n' x in (y * y)%float
  end.

Definition exp (x : float) : float :=
  if PrimFloat.is_nan x then nan
  else repeat_square 4 (series 24 1 1 (x / 16) 1 (fun k => k)).

Definition ln2 : float := 0x1.62e42fefa39efp-1.

Definition log (x : float) : float :=
  if PrimFloat.is_nan x || (x <? 0)%float then nan
  else if PrimFloat.is_zero x then neg_infinity
  else if PrimFloat.is_infinity x then infinity
  else
    let '(m, e) := Z.frexp x in                     (* x = m * 2^e, m in [0.5, 1) *)
    let '(m, e) := if (m <? 0.75)%float then ((2 * m)%float, e - 1) else (m, e) in
    let u := ((m - 1) / (m + 1))%float in
    (2 * atan_series 24 3 u (u * u) u + JS.of_Z e * ln2)%float.

Definition pow (x y : float) : float :=
  if (y =? 2)%float then (x * x)%float
  else if (y =? 3)%float then (x * x * x)%float
  else exp (y * log x).

Definition Math : MathLib :=
  {| Math_sin := sin; Math_cos := cos; Math_asin := asin; Math_atan2 := atan2;
     Math_exp := exp; Math_log := log; Math_pow := pow |}.

(** RBush: the nodes whose box meets the query box. *)
Definition intersects (a b : BBox) : bool :=
  ((minX b <=? maxX a) && (minY b <=? maxY a) &&
   (minX a <=? maxX b) && (minY a <=? maxY b))%float.

Definition search (nodes : list BalloonTreeNode) (box : BBox) : list BalloonTreeNode :=
  filter (fun n => intersects box (node_box n) = true) nodes.

(** A cheapest perfect assignment of a square matrix, by enumeration. *)
Definition assignment_cost (matrix : list (list float)) (perm : list nat) : float :=
  foldl (fun sum ij => (sum + default infinity (matrix !! ij.1 ≫= fun row => row !! ij.2))%float)
        0%float (imap (fun i j => (i, j)) perm).

Definition munkres (matrix : list (list float)) : list (nat * nat) :=
  let best :=
    foldl (fun best perm =>
             match best with
             | Some b => if (assignment_cost matrix perm <? assignment_cost matrix b)%float
                         then Some perm else best
             | None => Some perm
             end) None (permutations (seq 0 (length matrix))) in
  imap (fun i j => (i, j)) (default [] best).

Definition libs : Libs := mkLibs Math search munkres.

End Ref.

(* --------------------------------------------------------------------- *)
(** ** Queries of the tracker and the routes that use them *)

(** [BalloonTracker.getBalloonsAtTimestamp]: the rows of the hour, their
    [hour_offset] recomputed from the clock. *)
Definition getBalloonsAtTimestamp (db : Store) (now : Z) (ts : Timestamp)
  : list BalloonDataPoint :=
  let balloons := getTrackedBalloonsAtTimestamp db ts in
  let hoursDiff := hours_between now ts in
  map (set_hour_offset hoursDiff) balloons.

(** [DatabaseService.getBalloonTrajectory]:
    [SELECT * FROM tracked_balloons WHERE id = ? ORDER BY timestamp ASC]. The
    rows of one id differ in their timestamps (the primary key), so the order
    is that of any sort by timestamp. *)
Definition by_row_timestamp (a b : string * Timestamp * TrackedRow) : bool :=
  a.1.2 - b.1.2 <? 0.

Definition db_getBalloonTrajectory (db : Store) (balloonId : string)
  : list BalloonDataPoint :=
  map (fun kv => mapRowToBalloon kv.1 kv.2)
      (stable_sort by_row_timestamp
         (filter (fun kv => kv.1.1 = balloonId) (map_to_list (tracked_balloons db)))).

(** [BalloonTracker.getBalloonTrajectoryFromDB] *)
Definition getBalloonTrajectoryFromDB (db : Store) (now : Z) (balloonId : string)
  : list BalloonDataPoint :=
  let positions := db_getBalloonTrajectory db balloonId in
  map (fun p => set_hour_offset (hours_between now (timestamp p)) p) positions.

(** [BalloonTracker.getBalloonTrajectory], from data already loaded. *)
Definition getBalloonTrajectory (allData : list BalloonDataPoint) (balloonId : string)
  : list BalloonDataPoint :=
  stable_sort by_timestamp (filter (fun b => id b = balloonId) allData).

(** [BalloonTracker.getUniqueBalloonIds]: [[...new Set(ids)]], the ids in the
    order of their first appearance. *)
Definition getUniqueBalloonIds (allData : list BalloonDataPoint) : list string :=
  foldl (fun seen s => if decide (s ∈ seen) then seen else seen ++ [s])
        [] (map id allData).

(** *** [GET /api/balloons/:id/value]

    [hours] is what [parseInt(req.query.hours)] gives, [None] for [NaN];
    [method] is [req.query.method], [None] when the parameter is missing. The
    two clocks are the one read by the trajectory query and the one read when
    the result is stamped. The reads of the store and the wind request do not
    fail in this model, so the handler's [catch] is reached only by an
    exception of the calculation. *)
Inductive HttpReply (A : Type) : Type :=
| Json (body : A)                 (* 200 *)
| BadRequest (error : string)     (* 400 *)
| NotFound (error : string)       (* 404 *)
| ServerError (error : string).   (* 500 *)
Arguments Json {A} body.
Arguments BadRequest {A} error.
Arguments NotFound {A} error.
Arguments ServerError {A} error.

Definition method_of_string (s : string) : option Method :=
  if String.eqb s "persistence" then Some persistence
  else if String.eqb s "wind" then Some wind
  else if String.eqb s "hybrid" then Some hybrid
  else None.

Definition value_route (M : MathLib)
    (fetchWind : list WindLocation -> gmap WindMapKey WindData)
    (db : Store) (now_query now_result : Z)
    (balloonId : string) (hours_param : option Z) (method_param : option string)
  : HttpReply ValueCalculationResult :=
  let hours :=
    match hours_param with
    | Some h => if h =? 0 then 24 else h          (* parseInt(...) || 24 *)
    | None => 24
    end in
  let method :=
    match method_param with
    | Some s => if String.eqb s "" then "hybrid"%string else s       (* ... || 'hybrid' *)
    | None => "hybrid"%string
    end in
  if (hours <? 1) || (24 <? hours) then BadRequest "Invalid hours parameter"
  else
    match method_of_string method with
    | None => BadRequest "Invalid method parameter"
    | Some m =>
        let trajectory := getBalloonTrajectoryFromDB db now_query balloonId in
        if (length trajectory =? 0)%nat then NotFound "Balloon not found"
        else if (length trajectory <? 2)%nat then BadRequest "Insufficient data"
        else
          match calculateBalloonValueOptimized M fetchWind now_result balloonId
                  trajectory hours m with
          | Normal valueResult => Json valueResult
          | Throw _ => ServerError "Failed to calculate balloon value"
          end
    end.

(** *** [GET /api/balloons/:id]

    [hour_offset_param] is what [parseInt(req.query.hour_offset)] gives. *)
Record BalloonTrajectoryReply := mkTrajectoryReply {
  reply_balloon_id : string;
  reply_historical_positions : list BalloonDataPoint;
  reply_future_positions : list BalloonDataPoint;
  trajectory_length : nat;
  first_seen : option Timestamp;
  last_seen : option Timestamp;
  reference_hour_offset : Z;
}.

Definition balloon_route (db : Store) (now : Z) (balloonId : string)
    (hour_offset_param : option Z) : HttpReply BalloonTrajectoryReply :=
  let referenceHourOffset := default 0 hour_offset_param in      (* parseInt(...) || 0 *)
  let trajectoryPositions := getBalloonTrajectoryFromDB db now balloonId in
  if (length trajectoryPositions =? 0)%nat then NotFound "Balloon not found"
  else
    let pastPositions :=
      filter (fun p => referenceHourOffset < hour_offset p) trajectoryPositions in
    let futurePositions :=
      filter (fun p => hour_offset p < referenceHourOffset) trajectoryPositions in
    let currentPosition :=
      snd <$> list_find (fun p => hour_offset p = referenceHourOffset) trajectoryPositions in
    let historicalWithCurrent :=
      match currentPosition with
      | Some c => pastPositions ++ [c]
      | None => pastPositions
      end in
    let futureWithCurrent :=
      match currentPosition with
      | Some c => c :: futurePositions
      | None => futurePositions
      end in
    Json (mkTrajectoryReply balloonId historicalWithCurrent futureWithCurrent
            (length trajectoryPositions)
            (timestamp <$> trajectoryPositions !! (length trajectoryPositions - 1)%nat)
            (timestamp <$> trajectoryPositions !! 0%nat)
            referenceHourOffset).

(** *** [GET /api/balloons]

    [hour_offset_param] is what [parseInt(req.query.hour_offset)] gives. The
    first clock is the one [getCurrentTimestamp] reads, the second the one
    [getBalloonsAtTimestamp] reads and the third the one of the answer. In the
    answer every balloon also carries an empty trajectory object. *)
Record BalloonResponse := mkBalloonResponse {
  updated_at : Timestamp;
  data_age_minutes : Z;
  balloon_count : nat;
  balloons : list BalloonDataPoint;
}.

Definition balloons_route (w : World) (now now_query now_answer : Z)
    (hour_offset_param : option Z) : BalloonResponse :=
  let requestedHourOffset := default 0 hour_offset_param in      (* parseInt(...) || 0 *)
  let currentTimestamp := getCurrentTimestamp now in
  let requestedTime := currentTimestamp - requestedHourOffset * 60 * 60 * 1000 in
  let requestedTimestamp := getCurrentTimestamp requestedTime in (* .slice(0, 13) + ':00:00.000Z' *)
  let balloonsAtTimestamp := getBalloonsAtTimestamp (world_db w) now_query requestedTimestamp in
  mkBalloonResponse (getCurrentTimestamp now_answer)
    (getDataAgeMinutes (lastUpdateTimestamp (world_service w)) now_answer)
    (length balloonsAtTimestamp) balloonsAtTimestamp.

(** ** Reading the balloon data ([WindborneService.getBalloonData]) *)

(** [DatabaseService.getAllSnapshots]:
    [SELECT timestamp, raw_data FROM balloon_snapshots ORDER BY timestamp DESC]
    (the timestamps, the primary key, are distinct). *)
Definition getAllSnapshots (db : Store) : list (Timestamp * list RawBalloonData) :=
  stable_sort (fun a b => b.1 - a.1 <? 0) (map_to_list (balloon_snapshots db)).

(** [isConsecutiveHour]: [diffHours >= 0.9 && diffHours <= 1.1] for
    [diffHours = diffMs / 3600000]. The quotient of the two integers is
    rounded to the nearest double, as the literals 0.9 and 1.1 are, so the
    comparisons come out as the ones of the integers with 0.9 and 1.1 hours. *)
Definition isConsecutiveHour (lastTimestamp currentTimestamp : Timestamp) : bool :=
  let diffMs := currentTimestamp - lastTimestamp in
  (3240000 <=? diffMs) && (diffMs <=? 3960000).

(** [hoursDiff(t1, t2) < 24] and [Math.round(hoursDiff(t1, t2))], on the
    millisecond count [|t2 - t1|]. *)
Definition hoursDiff_below_24 (timestamp1 timestamp2 : Timestamp) : bool :=
  Z.abs (timestamp2 - timestamp1) <? DAY_MS.

Definition hoursDiff_rounded (timestamp1 timestamp2 : Timestamp) : Z :=
  hours_between (Z.abs (timestamp2 - timestamp1)) 0.

(** The loop that restores the history from the snapshots, newest snapshot
    first; [getBalloonData] and [initializeData] both have it. *)
Definition restore_history (db : Store) (currentTimestamp : Timestamp)
  : list BalloonDataPoint :=
  concat
    (map (fun snap : Timestamp * list RawBalloonData =>
            if hoursDiff_below_24 snap.1 currentTimestamp
            then to_points (hoursDiff_rounded snap.1 currentTimestamp) snap.1 snap.2
            else [])
         (getAllSnapshots db)).

(** [getBalloonData], once the initialisation is over. It returns
    [this.balloonHistory]; the world is what it leaves. One reading of the
    clock, [now], stands for the clock of every step. *)
Definition getBalloonData (upstream : Upstream) (now : Z) (w : World)
  : list BalloonDataPoint * World :=
  let service := world_service w in
  let db := world_db w in
  let auto := autoUpdateEnabled service in
  let currentTimestamp := getCurrentTimestamp now in
  let full_fetch :=
    let '(allData, db1) := fetchAll24Hours upstream now db in
    (allData, mkWorld db1 (world_tracker w) (mkService allData (Some currentTimestamp) auto)) in
  let catch_up :=
    match lastUpdateTimestamp service with
    | None => true
    | Some lastUpdate =>
        negb (bool_decide (lastUpdate = currentTimestamp)) &&
        negb (isConsecutiveHour lastUpdate currentTimestamp)
    end in
  if catch_up then
    match getLatestSnapshotTimestamp db with
    | Some latestFromDB =>
        if bool_decide (latestFromDB = currentTimestamp) ||
           isConsecutiveHour latestFromDB currentTimestamp
        then
          match restore_history db currentTimestamp with
          | [] => full_fetch                       (* "DB data was too old" *)
          | history =>
              (history,
               mkWorld db (world_tracker w) (mkService history (Some latestFromDB) auto))
          end
        else full_fetch
    | None => full_fetch
    end
  else if bool_decide (Some currentTimestamp = lastUpdateTimestamp service)
  then (balloonHistory service, w)
  else
    let newHourData := fetched (upstream 0) in
    let db1 :=
      match newHourData with
      | _ :: _ => saveBalloonSnapshot db currentTimestamp newHourData
      | [] => db
      end in
    let trackedBalloons := to_points 0 currentTimestamp newHourData in
    let unshifted := trackedBalloons ++ balloonHistory service in
    let recent := filter (fun b => hoursDiff_below_24 (timestamp b) currentTimestamp = true)
                         unshifted in
    let history :=
      map (fun b => set_hour_offset (hoursDiff_rounded (timestamp b) currentTimestamp) b)
          recent in
    (history, mkWorld db1 (world_tracker w) (mkService history (Some currentTimestamp) auto)).

(** [forceRefresh]: the update cycle, forced, then the read.
    ([runHourlyUpdate] catches what its steps throw, so the [catch] of
    [forceRefresh] is reached only from the read; the reads of the store do
    not fail in this model.) *)
Definition forceRefresh (L : Libs) (upstream : Upstream) (now now_cleanup now_read : Z)
    (w : World) : list BalloonDataPoint * World :=
  getBalloonData upstream now_read (runHourlyUpdate L upstream true now now_cleanup w).

(** ** The proximity tracker ([services/tracker.service.ts])

    The version of [BalloonTracker] that matches each observation in turn
    against the nearest free balloon of the previous hour. Its distance,
    angle and velocity helpers are the ones above. *)
Module TrackerService.

Definition MAX_DISTANCE_KM_PER_HOUR : float := 300.

(** How a missing velocity field of a previous balloon reads: [undefined] on
    an object built in memory, [null] on a row read from the store. *)
Inductive Absent := Undefined | Null.

(** [calculateVelocityDiscontinuityCost]; in its arithmetic and comparisons
    [null] counts as 0. *)
Definition calculateVelocityDiscontinuityCost (M : MathLib) (absent : Absent)
    (curr prev : BalloonDataPoint) : float :=
  let is_undefined (x : option float) : bool :=
    match absent, x with
    | Undefined, None => true
    | _, _ => false
    end in
  if is_undefined (speed_kmh prev) || is_undefined (direction_deg prev) then 10%float
  else
    let impliedVelocity := calculateVelocity M prev curr in
    let prevSpeed := default 0%float (speed_kmh prev) in
    let newSpeed := v_speed_kmh impliedVelocity in
    let speedCost :=
      if JS.gt prevSpeed 0 then
        let speedRatio := (newSpeed / prevSpeed)%float in
        if (speedRatio <? 0.5)%float then ((0.5 - speedRatio) * 100)%float
        else if JS.gt speedRatio 1.5 then ((speedRatio - 1.5) * 50)%float
        else 0%float
      else if JS.gt newSpeed 100 then 20%float
      else 0%float in
    let prevDirection := default 0%float (direction_deg prev) in
    let newDirection := v_direction_deg impliedVelocity in
    let directionCost :=
      if JS.gt prevSpeed 20 && JS.gt newSpeed 20 then
        let angleDiff := angleDifference prevDirection newDirection in
        if JS.gt angleDiff 30
        then JS.Math_min (Math_pow M ((angleDiff - 30) / 10) 2) 100
        else 0%float
      else 0%float in
    (speedCost + directionCost)%float.

Definition searchRadius : float := (MAX_DISTANCE_KM_PER_HOUR * 1.5 / 111)%float.

Definition search_box (curr : BalloonDataPoint) : BBox :=
  mkBBox (longitude curr - searchRadius) (latitude curr - searchRadius)
         (longitude curr + searchRadius) (latitude curr + searchRadius).

(** The body of the loop over the candidates: the score of a candidate, or
    [None] when the loop goes on to the next one. *)
Definition candidate_score (M : MathLib) (absent : Absent) (matchedPrevIds : gset string)
    (curr : BalloonDataPoint) (candidate : BalloonTreeNode) : option float :=
  let cb := balloon candidate in
  if bool_decide (id cb ∈ matchedPrevIds) then None
  else
    let distance :=
      calculateDistance M (latitude curr) (longitude curr) (latitude cb) (longitude cb) in
    if JS.gt distance MAX_DISTANCE_KM_PER_HOUR then None
    else
      let altChange := abs (altitude_km curr - altitude_km cb) in
      let predicted :=
        match stored_velocity cb with         (* speed_kmh && direction_deg *)
        | Some v =>
            let distKm := v_speed_kmh v in
            let rad := (v_direction_deg v * (JS.PI / 180))%float in
            let latRad := (latitude cb * (JS.PI / 180))%float in
            let dLat := (distKm * Math_cos M rad / EARTH_RADIUS_KM)%float in
            let dLon :=
              (distKm * Math_sin M rad / (EARTH_RADIUS_KM * Math_cos M latRad))%float in
            ((latitude cb + dLat * (180 / JS.PI))%float,
             (longitude cb + dLon * (180 / JS.PI))%float)
        | None => (latitude cb, longitude cb)
        end in
      let predictedDist :=
        calculateDistance M (latitude curr) (longitude curr) predicted.1 predicted.2 in
      let velocityDiscontinuityCost :=
        calculateVelocityDiscontinuityCost M absent curr cb in
      Some (predictedDist + altChange * 10 + velocityDiscontinuityCost)%float.

(** [bestMatch] and [bestScore] after the loop. *)
Definition best_match (M : MathLib) (absent : Absent) (matchedPrevIds : gset string)
    (curr : BalloonDataPoint) (candidates : list BalloonTreeNode)
  : option BalloonTreeNode * float :=
  foldl (fun best candidate =>
           match candidate_score M absent matchedPrevIds curr candidate with
           | Some score => if (score <? best.2)%float then (Some candidate, score) else best
           | None => best
           end) (None, infinity) candidates.

(** [{ ...curr, id: bestMatch.balloon.id, speed_kmh, direction_deg, confidence,
       status: 'active' }] *)
Definition as_matched (M : MathLib) (curr prev : BalloonDataPoint) (bestScore : float)
  : BalloonDataPoint :=
  let velocity := calculateVelocity M prev curr in
  {| id := id prev;
     speed_kmh := Some (v_speed_kmh velocity);
     direction_deg := Some (v_direction_deg velocity);
     confidence := JS.Math_max 0.5 (1.0 - bestScore / MAX_DISTANCE_KM_PER_HOUR);
     status := Active;
     latitude := latitude curr; longitude := longitude curr;
     altitude_km := altitude_km curr; timestamp := timestamp curr;
     hour_offset := hour_offset curr |}.

(** One round of the loop over the current balloons; the state is [tracked],
    [matchedPrevIds] and [this.nextId]. *)
Definition track_step (L : Libs) (absent : Absent) (prevNodes : list BalloonTreeNode)
    (st : list BalloonDataPoint * gset string * Z) (curr : BalloonDataPoint)
  : list BalloonDataPoint * gset string * Z :=
  let '(tracked, matchedPrevIds, nextId) := st in
  let candidates := rbush_search L prevNodes (search_box curr) in
  match candidates with
  | [] => (tracked ++ [as_new nextId 0.5 curr], matchedPrevIds, nextId + 1)
  | _ =>
      match best_match L absent matchedPrevIds curr candidates with
      | (Some bestMatch, bestScore) =>
          (tracked ++ [as_matched L curr (balloon bestMatch) bestScore],
           {[ id (balloon bestMatch) ]} ∪ matchedPrevIds, nextId)
      | (None, _) => (tracked ++ [as_new nextId 0.5 curr], matchedPrevIds, nextId + 1)
      end
  end.

(** [trackBalloons]. The list of the balloons that were lost is only logged. *)
Definition trackBalloons (L : Libs) (absent : Absent) (t : Tracker) (db : Store)
    (currentData previousData : list BalloonDataPoint)
  : list BalloonDataPoint * Tracker * Store :=
  match previousData with
  | [] =>
      let '(out, n) := mint (nextId t) 1 currentData in
      (out, set_nextId t n, db)
  | _ =>
      let prevNodes := map node_of previousData in
      let '(tracked, _, n) :=
        foldl (track_step L absent prevNodes) ([], ∅, nextId t) currentData in
      (tracked, set_nextId t n, saveTrackedBalloons db tracked)
  end.

End TrackerService.

(* --------------------------------------------------------------------- *)
(** ** Auxiliary definitions: statements, operations and example data *)

(** C10 as the spec words it, at one data age: healthy exactly below 65
    minutes, degraded exactly from 65 to 90, unhealthy exactly above. *)
Definition health_claim_at (age : Z) : Prop :=
  (health_status age = healthy <-> age < 65) /\
  (health_status age = degraded <-> 65 <= age <= 90) /\
  (health_status age = unhealthy <-> 90 < age).

(** Two predicted positions are at the same place. *)
Definition same_place (p q : PredictedPosition) : Prop :=
  p_latitude p = p_latitude q /\ p_longitude p = p_longitude q /\
  p_altitude_km p = p_altitude_km q.

(** A balloon without stored velocity, and one drifting east at 100 km/h. *)
Definition balloon_still : BalloonDataPoint :=
  mkBalloon (balloon_id 7) 10 20 18 1700002800000 0 None None 1 New.

Definition balloon_east : BalloonDataPoint :=
  mkBalloon (balloon_id 8) 0 0 18 1700002800000 0 (Some 100%float) (Some 90%float) 1 Active.

(** C6 as the spec words it, for one balloon, horizon [H] and hour [k]. *)
Definition persistence_confidence_claim (M : MathLib) (balloon : BalloonDataPoint)
    (hist : list BalloonDataPoint) (wmap : gmap WindMapKey WindData) (H k : nat) : Prop :=
  (1 <= k <= H)%nat ->
  p_confidence <$>
    (predicted_positions (predictTrajectoryWithWindData M balloon hist wmap H persistence)
       !! (k - 1)%nat)
  = Some (JS.Math_max 0.2 (0.8 - 0.15 * JS.of_Z (Z.of_nat k))).

(** The float that [calculateDistance] multiplies twice for a point at [lat]. *)
Definition cos_lat (M : MathLib) (lat : float) : float := Math_cos M (toRadians lat).

(** The two values of [Math] the haversine of a point with itself goes through
    ([Math.sin(+0)] and [Math.atan2(+0, 1)] are [+0] in ECMAScript). *)
Definition exact_at_zero (M : MathLib) : Prop :=
  Math_sin M 0 = 0%float /\ Math_atan2 M 0 1 = 0%float.

(** [next] is where the one-hour persistence step from [cur] lands, and it is
    a regular point: finite coordinates, and a finite squared cosine of the
    latitude. *)
Definition persistence_successor (M : MathLib) (hist : list BalloonDataPoint)
    (cur next : BalloonDataPoint) : Prop :=
  let p := predictByPersistenceSync M cur hist 1 in
  p_latitude p = latitude next /\ p_longitude p = longitude next /\
  JS.is_finite (latitude next) = true /\ JS.is_finite (longitude next) = true /\
  JS.is_finite (cos_lat M (latitude next) * cos_lat M (latitude next)) = true.

(** A trajectory made by the persistence formula itself: each point is where
    the one-hour step from the point before lands, one hour later, with the
    same stored speed and heading. *)
Definition persistence_next (M : MathLib) (cur : BalloonDataPoint) : BalloonDataPoint :=
  let p := predictByPersistenceSync M cur [] 1 in
  {| id := id cur; latitude := p_latitude p; longitude := p_longitude p;
     altitude_km := p_altitude_km p; timestamp := p_timestamp p;
     hour_offset := hour_offset cur - 1;
     speed_kmh := speed_kmh cur; direction_deg := direction_deg cur;
     confidence := confidence cur; status := Active |}.

Fixpoint persistence_trajectory (M : MathLib) (n : nat) (cur : BalloonDataPoint)
  : list BalloonDataPoint :=
  match n with
  | O => []
  | S n' => cur :: persistence_trajectory M n' (persistence_next M cur)
  end.

(** Six hourly positions at 100 km/h, heading east from 30N 10E. *)
Definition east6 : list BalloonDataPoint :=
  persistence_trajectory Ref.Math 6
    (mkBalloon (balloon_id 42) 30 10 18 1700002800000 5 (Some 100%float) (Some 90%float) 1 Active).

(** An upstream feed that answers every request for the current hour with the
    same single observation, and has nothing for the older hours. *)
Definition one_observation : Upstream :=
  fun hourOffset =>
    if hourOffset =? 0
    then Response 200 (JArr [JArr [JNum 10; JNum 20; JNum 15]])
    else Response 404 JNull.

(** A freshly started process on an empty store. *)
Definition fresh_world : World :=
  mkWorld empty_store (initialize new_tracker empty_store) (mkService [] None true).

(** 2023-11-14T23:05:00Z and one minute later, in the same hour. *)
Definition five_past : Z := 1700003100000.
Definition six_past : Z := 1700003160000.

Definition after_first_trigger : World :=
  triggerImmediateUpdate Ref.libs one_observation five_past five_past fresh_world.

Definition after_second_trigger : World :=
  triggerImmediateUpdate Ref.libs one_observation six_past six_past after_first_trigger.

(** The rows of an output that carry a freshly minted id. *)
Definition is_new (b : BalloonDataPoint) : bool :=
  match status b with New => true | _ => false end.

Definition minted (out : list BalloonDataPoint) : list string :=
  map id (filter (fun b => is_new b = true) out).

(** Matched rows are [active]; only minted rows are [new]. *)
Definition all_active (st : Matching) : Prop :=
  Forall (fun b => is_new b = false) (tracked st).

(** C7 as the spec words it, at one input: the call leaves the store as it
    was, and a second call with the same arguments returns the same output. *)
Definition store_unchanged_at (L : Libs) (t : Tracker) (db : Store)
    (currentData previousData : list BalloonDataPoint)
    (historyByBalloonId : gmap string (list BalloonDataPoint)) : Prop :=
  (trackBalloons L t db currentData previousData historyByBalloonId).2 = db.

Definition same_output_twice_at (L : Libs) (t : Tracker) (db : Store)
    (currentData previousData : list BalloonDataPoint)
    (historyByBalloonId : gmap string (list BalloonDataPoint)) : Prop :=
  let r := trackBalloons L t db currentData previousData historyByBalloonId in
  (trackBalloons L r.1.2 r.2 currentData previousData historyByBalloonId).1.1 = r.1.1.

(** One tracked balloon an hour ago, drifting east at 100 km/h; now one
    observation 111 km east of it and one on another continent. *)
Definition an_hour_ago : Timestamp := 1700002800000 - HOUR_MS.

Definition prev_east : BalloonDataPoint :=
  mkBalloon (balloon_id 1) 0 0 15 an_hour_ago 1 (Some 100%float) (Some 90%float) 1 Active.

Definition curr_east : BalloonDataPoint :=
  mkBalloon (temp_id 0 0) 0 1 15 1700002800000 0 None None 1 Active.

Definition curr_far : BalloonDataPoint :=
  mkBalloon (temp_id 0 1) 40 100 12 1700002800000 0 None None 1 Active.

Definition tracker_at (n : Z) : Tracker := mkTracker n [] None 0.

(** The number of a minted id, as the store reads it back. *)
Definition id_number (s : string) : Z :=
  cast_integer (String.substring 8 (String.length s) s).

(** The operations of a running process that reach the tracker. *)
Inductive Operation :=
| OpTrack (currentData previousData : list BalloonDataPoint)
          (historyByBalloonId : gmap string (list BalloonDataPoint))
| OpProcess (allData : list BalloonDataPoint) (now : Z)
| OpHourly (upstream : Upstream) (forceRun : bool) (now now_cleanup : Z)
| OpFullFetch (upstream : Upstream) (now : Z).

Definition run (L : Libs) (w : World) (op : Operation) : World :=
  match op with
  | OpTrack currentData previousData historyByBalloonId =>
      let r := trackBalloons L (world_tracker w) (world_db w)
                             currentData previousData historyByBalloonId in
      mkWorld r.2 r.1.2 (world_service w)
  | OpProcess allData now =>
      let r := processHistoricalData L (world_tracker w) (world_db w) allData now in
      mkWorld r.2 r.1.2 (world_service w)
  | OpHourly upstream forceRun now now_cleanup =>
      runHourlyUpdate L upstream forceRun now now_cleanup w
  | OpFullFetch upstream now => fallbackFullFetch L upstream now w
  end.

(** C8's last part at one input: what a call of [trackBalloons] mints is not
    minted again by a later call, whatever the process does in between. *)
Definition never_issued_again (L : Libs) (w : World) (between : World -> World)
    (curr1 prev1 : list BalloonDataPoint) (hist1 : gmap string (list BalloonDataPoint))
    (curr2 prev2 : list BalloonDataPoint) (hist2 : gmap string (list BalloonDataPoint))
  : Prop :=
  let r1 := trackBalloons L (world_tracker w) (world_db w) curr1 prev1 hist1 in
  let w1 := between (mkWorld r1.2 r1.1.2 (world_service w)) in
  let r2 := trackBalloons L (world_tracker w1) (world_db w1) curr2 prev2 hist2 in
  forall i, i ∈ minted r1.1.1 -> i ∉ minted r2.1.1.

(** 2023-11-14T23:30:00Z, the time of the rebuild of the example. *)
Definition half_past : Z := 1700004600000.

(** Every tracked row carries the timestamp of a current observation, and a
    current index is marked as matched only together with a row. *)
Definition rows_at (H : Timestamp) (st : Matching) : Prop :=
  Forall (fun b => timestamp b = H) (tracked st) /\
  (tracked st = [] -> matchedCurrIndices st = ∅).

(** A store whose snapshot and tracked timestamps all satisfy [P]. *)
Definition store_times (P : Timestamp -> Prop) (db : Store) : Prop :=
  (forall ts rows, balloon_snapshots db !! ts = Some rows -> P ts) /\
  (forall key row, tracked_balloons db !! key = Some row -> P key.2).

Definition on_the_hour (ts : Timestamp) : Prop := ts mod HOUR_MS = 0.

(** C9 as the spec words it, at one tick, with [now_hour] the hour the spec
    measures from: after the cleanup every retained snapshot and tracked row
    is at most 23 hours older than [now_hour], and the latest tracked
    timestamp is the latest snapshot time. *)
Definition rolling_window_claim (L : Libs) (upstream : Upstream) (forceRun : bool)
    (now now_cleanup : Z) (w : World) (now_hour : Timestamp) : Prop :=
  let db' := world_db (runHourlyUpdate L upstream forceRun now now_cleanup w) in
  store_times (fun ts => now_hour - 23 * HOUR_MS <= ts) db' /\
  exists H, getLatestSnapshotTimestamp db' = Some H /\
            (exists key row, tracked_balloons db' !! key = Some row /\ key.2 = H) /\
            (forall key row, tracked_balloons db' !! key = Some row -> key.2 <= H).

(** 2023-11-15T00:00:00.000Z, and the world a tick at 00:05 the day before
    leaves: one snapshot and one tracked row at 2023-11-14T00:00Z. *)
Definition midnight : Z := 1700006400000.

Definition world_of_yesterday : World :=
  triggerImmediateUpdate Ref.libs one_observation
    (midnight - DAY_MS + 300000) (midnight - DAY_MS + 300000) fresh_world.

(** The rolling window after a tick, as the code keeps it. *)
Definition rolling_window_after (L : Libs) (upstream : Upstream) (forceRun : bool)
    (now now_cleanup : Z) (w : World) : Prop :=
  let H := getCurrentTimestamp now in
  let cutoff := now_cleanup - DAY_MS in
  let db' := world_db (runHourlyUpdate L upstream forceRun now now_cleanup w) in
  store_times (fun ts => on_the_hour ts /\ cutoff <= ts <= H) db' /\
  (forall ts rows, balloon_snapshots (world_db w) !! ts = Some rows ->
                   cutoff <= ts -> ts <> H -> balloon_snapshots db' !! ts = Some rows) /\
  (H < now_cleanup -> store_times (fun ts => H - 23 * HOUR_MS <= ts) db') /\
  (~ on_the_hour now_cleanup ->
   store_times (fun ts => getCurrentTimestamp now_cleanup - 23 * HOUR_MS <= ts) db') /\
  getLatestSnapshotTimestamp db' = Some H /\
  (exists key row, tracked_balloons db' !! key = Some row /\ key.2 = H).

Definition is_cache_event (e : WindEvent) : bool :=
  match e with
  | EvCacheGet _ _ _ | EvCacheSet _ | EvCacheClean => true
  | EvHttpGet _ | EvSleep _ => false
  end.

(** C4 as the spec words it, at one call: the cache is consulted for each
    location before any request goes out, and each returned vector is in the
    cache afterwards, under its rounded position and its hour. *)
Definition consults_cache_claim (M : MathLib) (api : WindApi) (now : Z) (db : Store)
    (locations : list WindLocation) : Prop :=
  let events := (getWindAtMultipleLocations M api now db locations).2 in
  forall loc, loc ∈ locations ->
    exists i, events !! i = Some (EvCacheGet (round1 (loc_latitude loc))
                                             (round1 (loc_longitude loc))
                                             (round1 (loc_altitude_km loc))) /\
              forall j req, events !! j = Some (EvHttpGet req) -> (i < j)%nat.

Definition fills_cache_claim (M : MathLib) (api : WindApi) (now : Z) (db : Store)
    (locations : list WindLocation) : Prop :=
  let r := getWindAtMultipleLocations M api now db locations in
  forall key v, r.1.1 !! key = Some v ->
    getWindCache r.1.2 (w_latitude v) (w_longitude v) (w_altitude_km v) (w_timestamp v) = Some v.

(** A provider that answers every request with one location's hours: a wind
    of 36 km/h from the west at 23:00. *)
Definition west_wind : WindApi :=
  fun _ => WindResults [Some (mkHourly [1700002800000] [Some 36%float] [Some 270%float])].

Definition one_location : list WindLocation :=
  [mkLocation 10 20 15 (Some 1700002800000)].

(** The single-location path treats a target as current when it is less than
    an hour from the clock. *)
Definition is_current (now : Z) (ts : option Timestamp) : bool :=
  Z.abs (now - getCurrentTimestamp (default now ts)) <? 60 * 60 * 1000.

(** The balloon of an hour ago with another stored heading. *)
Definition heading (d : float) (prev : BalloonDataPoint) : BalloonDataPoint :=
  {| direction_deg := Some d;
     id := id prev; latitude := latitude prev; longitude := longitude prev;
     altitude_km := altitude_km prev; timestamp := timestamp prev;
     hour_offset := hour_offset prev; speed_kmh := speed_kmh prev;
     confidence := confidence prev; status := status prev |}.

Definition without_velocity (prev : BalloonDataPoint) : BalloonDataPoint :=
  {| direction_deg := None; speed_kmh := None;
     id := id prev; latitude := latitude prev; longitude := longitude prev;
     altitude_km := altitude_km prev; timestamp := timestamp prev;
     hour_offset := hour_offset prev;
     confidence := confidence prev; status := status prev |}.

(** Due north at 100 km/h an hour ago. *)
Definition prev_north : BalloonDataPoint := heading 0 prev_east.

(** The three hard gates, as the comparisons the code makes. *)
Definition passes_gates (M : MathLib) (curr prev : BalloonDataPoint)
    (history : list BalloonDataPoint) : Prop :=
  JS.gt (calculateDistance M (latitude curr) (longitude curr) (latitude prev) (longitude prev))
        MAX_DISTANCE_KM_PER_HOUR = false /\
  JS.gt (abs (altitude_km curr - altitude_km prev)) MAX_ALTITUDE_DELTA_KM = false /\
  forall v, match_velocity M prev history = Some v -> JS.gt (v_speed_kmh v) 10 = true ->
    JS.gt (angleDifference (v_direction_deg v) (v_direction_deg (calculateVelocity M prev curr)))
          MAX_DIRECTION_CHANGE_DEG = false.

(** The spatial index returns nodes it was loaded with. *)
Definition rbush_sound (L : Libs) : Prop :=
  forall nodes box n, n ∈ rbush_search L nodes box -> n ∈ nodes.

(** A candidate of [curr]: a previous balloon with its index and its score,
    which is finite. *)
Definition candidate_ok (L : Libs) (hist : gmap string (list BalloonDataPoint))
    (previousData : list BalloonDataPoint) (curr : BalloonDataPoint) (c : CandidateMatch)
  : Prop :=
  prev c ∈ previousData /\
  prevIdx c = default 0%nat (prevIndexMap previousData !! id (prev c)) /\
  cost c = calculateMatchScore L curr (prev c) (default [] (hist !! id (prev c))) /\
  (cost c <? infinity)%float = true.

(** A row of the output continues a previous balloon at a current observation
    that passed the gates against it. *)
Definition matched_row (M : MathLib) (hist : gmap string (list BalloonDataPoint))
    (currentData previousData : list BalloonDataPoint) (row : BalloonDataPoint) : Prop :=
  exists curr prev,
    curr ∈ currentData /\ prev ∈ previousData /\
    id row = id prev /\
    latitude row = latitude curr /\ longitude row = longitude curr /\
    altitude_km row = altitude_km curr /\ timestamp row = timestamp curr /\
    passes_gates M curr prev (default [] (hist !! id prev)).

(** What the provider accepts of a request: between one and [BATCH_SIZE]
    coordinates, as many longitudes as latitudes, a pressure of the level
    table, at most three days back and between one and three days ahead. *)
Definition request_in_bounds (req : WindRequest) : Prop :=
  (1 <= length (req_latitude req) <= BATCH_SIZE)%nat /\
  length (req_longitude req) = length (req_latitude req) /\
  req_pressure req ∈ PRESSURE_LEVELS /\
  0 <= req_past_days req <= 3 /\
  1 <= req_forecast_days req <= 3.

Definition requests_in_bounds (events : list WindEvent) : Prop :=
  forall req, EvHttpGet req ∈ events -> request_in_bounds req.

Definition NINETY_MINUTES : Z := 90 * 60 * 1000.

(** The vectors of a wind map bound to a timestamped location are all of an
    hour within 90 minutes of the hour of that timestamp. *)
Definition within_90_minutes (windDataMap : gmap WindMapKey WindData) : Prop :=
  forall lat lon alt t v,
    windDataMap !! (lat, lon, alt, Some t) = Some v ->
    Z.abs (w_timestamp v - getCurrentTimestamp t) <= NINETY_MINUTES.

(** The coordinate pairs of the requests of a trace, in the order sent. *)
Definition requested_coordinates (events : list WindEvent) : list (CoordText * CoordText) :=
  concat (map (fun e => match e with
                        | EvHttpGet req => zip (req_latitude req) (req_longitude req)
                        | _ => []
                        end) events).

(** A location as a batch request writes it. *)
Definition batch_coordinates (loc : WindLocation) : CoordText * CoordText :=
  (Fixed2 (toFixed 2 (loc_latitude loc)), Fixed2 (toFixed 2 (loc_longitude loc))).

Definition grouped_locations (groups : list (Z * LocationGroup)) : list WindLocation :=
  concat (map (fun g => g_locations g.2) groups).

Definition MINUTE_MS : Z := 60 * 1000.

(** [{ ...b, confidence: 1.0 }] *)
Definition with_full_confidence (b : BalloonDataPoint) : BalloonDataPoint :=
  {| confidence := 1;
     id := id b; latitude := latitude b; longitude := longitude b;
     altitude_km := altitude_km b; timestamp := timestamp b; hour_offset := hour_offset b;
     speed_kmh := speed_kmh b; direction_deg := direction_deg b; status := status b |}.

(** [b] is the last element of [bs] under its key [(id, timestamp)]. *)
Definition last_written (bs : list BalloonDataPoint) (b : BalloonDataPoint) : Prop :=
  exists before after,
    bs = before ++ b :: after /\
    forall b', b' ∈ after -> (id b', timestamp b') <> (id b, timestamp b).

(** The points of the hour [h] of the feed, as the full fetch builds them. *)
Definition hour_points (upstream : Upstream) (now : Z) (h : nat) : list BalloonDataPoint :=
  to_points (Z.of_nat h) (getTimestampForOffset now (Z.of_nat h))
            (fetched (upstream (Z.of_nat h))).

(** The round of [fetchAll24Hours] for one hour. *)
Definition fetch_step (upstream : Upstream) (now : Z)
  : list BalloonDataPoint * Store -> nat -> list BalloonDataPoint * Store :=
  fun '(allData, db) h =>
    let hourOffset := Z.of_nat h in
    let rawData := fetched (upstream hourOffset) in
    let ts := getTimestampForOffset now hourOffset in
    match rawData with
    | [] => (allData, db)
    | _ => (allData ++ to_points hourOffset ts rawData, saveBalloonSnapshot db ts rawData)
    end.

(** The position that is scored against the prediction from the one before
    it. *)
Definition scored_against (next : BalloonDataPoint) (v : ValueDataPoint) : Prop :=
  actual_position v
  = mkActual (latitude next) (longitude next) (altitude_km next) (timestamp next).

(** [parseInt(req.query.hours) || 24] and [req.query.method || 'hybrid'] *)
Definition effective_hours (hours_param : option Z) : Z :=
  match hours_param with
  | Some h => if h =? 0 then 24 else h
  | None => 24
  end.

Definition effective_method (method_param : option string) : string :=
  match method_param with
  | Some s => if String.eqb s "" then "hybrid"%string else s
  | None => "hybrid"%string
  end.

Definition is_json {A} (reply : HttpReply A) : Prop := exists body, reply = Json body.
Definition is_bad_request {A} (reply : HttpReply A) : Prop := exists e, reply = BadRequest e.
Definition is_not_found {A} (reply : HttpReply A) : Prop := exists e, reply = NotFound e.
Definition is_server_error {A} (reply : HttpReply A) : Prop := exists e, reply = ServerError e.

(** The confidences a prediction can carry: the one of a prediction that
    leaves the balloon in place, and the one of a prediction one hour ahead. *)
Definition confidence_of (method : Method) (p : PredictedPosition) : Prop :=
  match method with
  | persistence => p_confidence p = 0.3%float \/ p_confidence p = 0.65%float
  | wind => p_confidence p = 0.3%float \/ p_confidence p = 0.78%float
  | hybrid => p_confidence p = 0.85%float
  end.

Definition one_hour_ahead (method : Method) (balloon : BalloonDataPoint)
    (p : PredictedPosition) : Prop :=
  p_method p = method /\
  p_altitude_km p = altitude_km balloon /\
  p_timestamp p = timestamp balloon + HOUR_MS /\
  confidence_of method p.

(** What an observation is, apart from the identity the tracker gives it. *)
Definition observation (b : BalloonDataPoint) : float * float * float * Timestamp * Z :=
  (latitude b, longitude b, altitude_km b, timestamp b, hour_offset b).

(** The assignment solver pairs no row and no column twice. *)
Definition munkres_sound (L : Libs) : Prop :=
  forall matrix, NoDup (map fst (munkres L matrix)) /\ NoDup (map snd (munkres L matrix)).

(** The state of the matching is consistent: the rows matched so far stand
    for distinct current observations, listed in [order], and continue
    distinct previous balloons, the ones recorded as matched. *)
Definition matching_consistent (currentData previousData : list BalloonDataPoint)
    (st : Matching) (order : list nat) : Prop :=
  NoDup order /\
  (forall i, i ∈ order <-> i ∈ matchedCurrIndices st) /\
  Forall2 (fun row i => exists curr, currentData !! i = Some curr /\
                                     observation row = observation curr)
          (tracked st) order /\
  NoDup (map id (tracked st)) /\
  (forall s, s ∈ map id (tracked st) <-> s ∈ matchedPrevIds st) /\
  Forall (fun row => exists p, p ∈ previousData /\ id row = id p) (tracked st).

(** After the greedy pass over the first [n] observations. *)
Definition greedy_consistent (currentData previousData : list BalloonDataPoint)
    (n : nat) (st : Matching) : Prop :=
  (exists order, matching_consistent currentData previousData st order) /\
  (forall i, i ∈ matchedCurrIndices st -> (i < n)%nat) /\
  (forall i, i ∈ conflictingCurrIndices st -> (i < n)%nat) /\
  NoDup (conflictingCurrIndices st) /\
  (forall i, i ∈ conflictingCurrIndices st -> i ∉ matchedCurrIndices st).

(** The grouping by hour: distinct hours, no empty group. *)
Definition group_by_hour (allData : list BalloonDataPoint) : list (Z * list BalloonDataPoint) :=
  foldl (fun m b => assoc_set (hour_offset b)
                      (default [] (assoc_get (hour_offset b) m) ++ [b]) m) [] allData.

(** The cache holds the processed rows, hour by hour in the order processed. *)
Definition cache_holds (st : Reprocess) : Prop :=
  concat (map snd (processedDataCache (rp_tracker st))) = rp_processedData st.

(** A point of the history is current: less than 24 hours from the top of
    the hour, its hour offset the rounded distance to it. *)
Definition current_point (currentTimestamp : Timestamp) (b : BalloonDataPoint) : Prop :=
  Z.abs (currentTimestamp - timestamp b) < DAY_MS /\
  hour_offset b = hoursDiff_rounded (timestamp b) currentTimestamp.

(** What a read may change of the snapshots: only hours of the feed that
    gave observations. *)
Definition snapshots_kept (upstream : Upstream) (now : Z) (before after : Store) : Prop :=
  forall ts,
    (forall h, (h < 24)%nat -> fetched (upstream (Z.of_nat h)) <> [] ->
               ts <> getTimestampForOffset now (Z.of_nat h)) ->
    balloon_snapshots after !! ts = balloon_snapshots before !! ts.

Definition no_request (events : list WindEvent) : Prop :=
  forall req, EvHttpGet req ∉ events.

(** A vector cached for 23:00, asked for again at five past. *)
Definition cached_west : WindData :=
  wind_vector Ref.Math 10 20 15 150 36 270 1700002800000.

(** A row that continues a previous balloon within the distance gate. *)
Definition continues_nearby (M : MathLib) (prevNodes : list BalloonTreeNode)
    (rbush : list BalloonTreeNode -> BBox -> list BalloonTreeNode)
    (currentData : list BalloonDataPoint) (row : BalloonDataPoint) : Prop :=
  exists curr node,
    curr ∈ currentData /\
    node ∈ rbush prevNodes (TrackerService.search_box curr) /\
    id row = id (balloon node) /\ observation row = observation curr /\
    (JS.gt (calculateDistance M (latitude curr) (longitude curr)
                              (latitude (balloon node)) (longitude (balloon node)))
           TrackerService.MAX_DISTANCE_KM_PER_HOUR = false).

(** The state of the loop after some of the observations: one row for each,
    in order; the continued ids distinct; the minted ids numbered from the
    counter on. *)
Definition proximity_consistent (M : MathLib) (prevNodes : list BalloonTreeNode)
    (rbush : list BalloonTreeNode -> BBox -> list BalloonTreeNode)
    (currentData : list BalloonDataPoint) (n0 : Z) (done : list BalloonDataPoint)
    (st : list BalloonDataPoint * gset string * Z) : Prop :=
  map observation st.1.1 = map observation done /\
  NoDup (map id (filter (fun b => is_new b = false) st.1.1)) /\
  (forall s, s ∈ map id (filter (fun b => is_new b = false) st.1.1) <-> s ∈ st.1.2) /\
  Forall (fun row => is_new row = false -> continues_nearby M prevNodes rbush currentData row)
         st.1.1 /\
  n0 <= st.2 /\
  minted st.1.1 = map balloon_id (seqZ n0 (st.2 - n0)).

(* ===================================================================== *)
(** * Properties *)
(* ===================================================================== *)

(** ** Floating-point facts *)

Lemma SFcompare_refl x : x <> S754_nan -> SFcompare x x = Some Eq.
Proof.
  destruct x as [s|s| |s m e]; intros H; try congruence; cbn.
  - destruct s; reflexivity.
  - destruct s; reflexivity.
  - rewrite Z.compare_refl.
    change (PosDef.Pos.compare_cont Eq m m) with (Pos.compare m m).
    rewrite Pos.compare_refl. destruct s; reflexivity.
Qed.

Lemma is_nan_spec x : PrimFloat.is_nan x = true <-> Prim2SF x = S754_nan.
Proof.
  unfold PrimFloat.is_nan. rewrite FloatAxioms.eqb_spec. unfold SFeqb.
  split.
  - intros H. destruct (Prim2SF x) eqn:E; try reflexivity;
      rewrite SFcompare_refl in H by congruence; discriminate.
  - intros ->. reflexivity.
Qed.

Lemma is_infinity_spec x :
  PrimFloat.is_infinity x = true <-> exists s, Prim2SF x = S754_infinity s.
Proof.
  unfold PrimFloat.is_infinity. rewrite FloatAxioms.eqb_spec, FloatAxioms.abs_spec.
  replace (Prim2SF infinity) with (S754_infinity false) by reflexivity.
  unfold SFeqb. destruct (Prim2SF x) as [s|s| |s m e]; cbn; split; intros H;
    try discriminate; try (destruct H; discriminate); eauto.
Qed.

Lemma is_finite_spec x :
  JS.is_finite x = true <->
  (exists s, Prim2SF x = S754_zero s) \/ (exists s m e, Prim2SF x = S754_finite s m e).
Proof.
  unfold JS.is_finite. rewrite negb_true_iff, orb_false_iff.
  rewrite <- !not_true_iff_false, is_nan_spec, is_infinity_spec.
  destruct (Prim2SF x) as [s|s| |s m e]; naive_solver.
Qed.

(** A number between two finite bounds is finite. *)
Lemma between_finite lo hi x :
  JS.is_finite lo = true -> JS.is_finite hi = true ->
  (lo <=? x)%float = true -> (x <=? hi)%float = true -> JS.is_finite x = true.
Proof.
  rewrite !is_finite_spec, !FloatAxioms.leb_spec. unfold SFleb.
  intros Hlo Hhi.
  destruct (Prim2SF x) as [s|s| |s m e]; eauto 6.
  - destruct s.
    + destruct Hlo as [[? ->]|[? [? [? ->]]]]; cbn; intros; discriminate.
    + intros _. destruct Hhi as [[? ->]|[? [? [? ->]]]]; cbn; intros; discriminate.
  - destruct (Prim2SF lo); cbn; discriminate.
Qed.

Lemma ltb_leb x y : (x <? y)%float = true -> (x <=? y)%float = true.
Proof.
  rewrite FloatAxioms.ltb_spec, FloatAxioms.leb_spec. unfold SFltb, SFleb.
  destruct (SFcompare _ _) as [[]|]; congruence.
Qed.

(** ** Health classification (C10) *)

(** C10, counterexample: at a data age of exactly 65 minutes the route answers
    [healthy] (its test is [dataAge > 65]), where the claim wants [degraded]. *)
Lemma health_claim_fails_at_65 : ~ health_claim_at 65.
Proof.
  intros [H _]. apply proj1 in H. specialize (H eq_refl). lia.
Qed.

(** The sentinel age -1 ("no data yet") is below 65 and yet unhealthy. *)
Lemma health_no_data_unhealthy :
  health_status (getDataAgeMinutes None 0) = unhealthy /\ ~ health_claim_at (-1).
Proof.
  split; [reflexivity|]. intros [H _]. apply proj2 in H.
  assert (Hlt : -1 < 65) by lia. specialize (H Hlt). discriminate.
Qed.

(** C10, amended: the service is healthy exactly when 0 <= age <= 65,
    degraded exactly when 65 < age <= 90, and unhealthy otherwise, that is
    for a negative age (no data yet) or an age above 90 minutes. *)
Theorem health_status_spec (age : Z) :
  (health_status age = healthy <-> 0 <= age <= 65) /\
  (health_status age = degraded <-> 65 < age <= 90) /\
  (health_status age = unhealthy <-> age < 0 \/ 90 < age).
Proof.
  unfold health_status.
  destruct (Z.ltb_spec age 0), (Z.ltb_spec 90 age), (Z.ltb_spec 65 age);
    repeat split; intros; try discriminate; try lia; try reflexivity.
Qed.

(** ** Source client (C3) *)

(** The filter callback accepts exactly the entries the spec calls valid: the
    range tests leave no room for NaN or an infinity. *)
Lemma valid_entry_spec (entry : json) : valid_entry entry = spec_valid_observation entry.
Proof.
  destruct entry as [| | | |items|]; try reflexivity.
  destruct items as [|[| |lat| | |] [|[| |lon| | |] [|[| |alt| | |] [|? ?]]]]; try reflexivity.
  cbn. unfold JS.ge, JS.gt.
  destruct (-90 <=? lat)%float eqn:H1, (lat <=? 90)%float eqn:H2; cbn;
    rewrite ?andb_false_r; try reflexivity.
  rewrite (between_finite (-90) 90 lat eq_refl eq_refl H1 H2). cbn.
  destruct (-180 <=? lon)%float eqn:H3, (lon <=? 180)%float eqn:H4; cbn;
    rewrite ?andb_false_r; try reflexivity.
  rewrite (between_finite (-180) 180 lon eq_refl eq_refl H3 H4). cbn.
  destruct (0 <? alt)%float eqn:H5, (alt <? 50)%float eqn:H6; cbn;
    rewrite ?andb_false_r; try reflexivity.
  rewrite (between_finite 0 50 alt eq_refl eq_refl (ltb_leb _ _ H5) (ltb_leb _ _ H6)).
  reflexivity.
Qed.

(** C3: whatever the exchange with the upstream gives, [fetchHourData]
    completes normally (it never throws); on a 2xx response whose body is an
    array it returns the entries that are three finite numbers within
    [-90 <= lat <= 90], [-180 <= lon <= 180], [0 < alt < 50], in their order,
    and it returns the empty array on every other outcome (no response, a
    status outside 2xx, a body that is no array, be it raw text that did not
    parse, null or an object). *)
Theorem fetchHourData_spec (o : HttpOutcome) :
  fetchHourData o =
  Normal match o with
         | Response status (JArr entries) =>
             if (200 <=? status) && (status <? 300)
             then filter spec_valid_observation entries
             else []
         | _ => []
         end.
Proof.
  destruct o as [|status data]; [reflexivity|].
  unfold fetchHourData, fetchHourData_try, axios_get.
  destruct ((200 <=? status) && (status <? 300)); [|destruct data; reflexivity].
  destruct data; try reflexivity. cbn. f_equal.
  induction items as [|e l IH]; [reflexivity|].
  rewrite !filter_cons, IH, valid_entry_spec. reflexivity.
Qed.

(** ** Persistence prediction (C6) *)

Lemma move_to_again b p q : move_to (move_to b p) q = move_to b q.
Proof. reflexivity. Qed.

Lemma predict_loop_length M method hist wmap H cur :
  length (predict_loop M method hist wmap H cur) = H.
Proof. revert cur. induction H as [|H IH]; intros cur; cbn; [reflexivity|]. now rewrite IH. Qed.

(** The anchors of the loop differ from the balloon in position only. *)
Lemma predict_loop_anchor M hist wmap H b cur k p q :
  predict_loop M persistence hist wmap H (move_to b cur) !! k = Some p ->
  predict_loop M persistence hist wmap H (move_to b cur) !! S k = Some q ->
  q = predictByPersistenceSync M (move_to b p) hist 1.
Proof.
  revert cur k. induction H as [|H IH]; intros cur k; cbn; [discriminate|].
  destruct k as [|k]; cbn.
  - intros [= <-]. destruct H as [|H]; cbn; [discriminate|].
    rewrite move_to_again. now intros [= <-].
  - rewrite move_to_again. apply IH.
Qed.

Lemma move_to_self b :
  move_to b (mkPredicted (latitude b) (longitude b) (altitude_km b) 0 0 persistence) = b.
Proof. destruct b; reflexivity. Qed.

Lemma persistence_first_confidence M cur hist :
  p_confidence (predictByPersistenceSync M cur hist 1) =
  if (or_zero (speed_kmh cur) =? 0)%float then 0.3%float
  else JS.Math_max 0.2 (0.8 - JS.of_Z 1 * 0.15).
Proof. unfold predictByPersistenceSync. destruct (_ =? _)%float; reflexivity. Qed.

(** Whatever the hour, the loop calls the one-hour step: no prediction carries a
    confidence other than the two values of that step. *)
Lemma persistence_confidence_every_hour M hist wmap H cur k p :
  predict_loop M persistence hist wmap H cur !! k = Some p ->
  p_confidence p =
  if (or_zero (speed_kmh cur) =? 0)%float then 0.3%float
  else JS.Math_max 0.2 (0.8 - JS.of_Z 1 * 0.15).
Proof.
  revert cur k. induction H as [|H IH]; intros cur k; cbn; [discriminate|].
  destruct k as [|k]; cbn.
  - intros [= <-]. apply persistence_first_confidence.
  - intros Hk. apply IH in Hk. exact Hk.
Qed.

Lemma persistence_still M hist wmap H cur k p :
  (or_zero (speed_kmh cur) =? 0)%float = true ->
  predict_loop M persistence hist wmap H cur !! k = Some p ->
  p_confidence p = 0.3%float /\
  p_latitude p = latitude cur /\ p_longitude p = longitude cur.
Proof.
  intros Hs. revert cur Hs k. induction H as [|H IH]; intros cur Hs k; cbn; [discriminate|].
  unfold predictByPersistenceSync at 1 2. rewrite Hs.
  destruct k as [|k]; cbn.
  - intros [= <-]. cbn. auto.
  - intros Hk. apply IH in Hk; [exact Hk| exact Hs].
Qed.

(** C6, counterexample: a balloon without stored speed gets confidence 0.3 at
    hour 1 (the claim wants 0.65), and for a balloon moving at 100 km/h the
    second hour carries 0.65 again (the claim wants 0.5). *)
Lemma persistence_confidence_counterexample :
  ~ persistence_confidence_claim Ref.Math balloon_still [] ∅ 1 1 /\
  ~ persistence_confidence_claim Ref.Math balloon_east [] ∅ 2 2.
Proof.
  split; intros H; specialize (H ltac:(lia)); vm_compute in H; discriminate.
Qed.

(** C6, amended: under method persistence the trajectory has one prediction per
    hour of the horizon; the first is the one-hour persistence step from the
    balloon and, when the stored speed is not zero, carries confidence
    max(0.2, 0.8 - 0.15 * 1); every later prediction is placed where the
    one-hour step anchored at the prediction before it lands; a balloon whose
    stored speed is zero or absent is predicted in place with confidence 0.3 at
    every hour. *)
Theorem persistence_predictions (M : MathLib) (balloon : BalloonDataPoint)
    (hist : list BalloonDataPoint) (wmap : gmap WindMapKey WindData) (H : nat) :
  let preds :=
    predicted_positions (predictTrajectoryWithWindData M balloon hist wmap H persistence) in
  length preds = H /\
  (forall p, preds !! 0%nat = Some p ->
     p = predictByPersistenceSync M balloon hist 1 /\
     ((or_zero (speed_kmh balloon) =? 0)%float = false ->
      p_confidence p = JS.Math_max 0.2 (0.8 - 0.15 * 1))) /\
  (forall k p q, preds !! k = Some p -> preds !! S k = Some q ->
     same_place q (predictByPersistenceSync M (move_to balloon p) hist 1)) /\
  ((or_zero (speed_kmh balloon) =? 0)%float = true ->
   forall k p, preds !! k = Some p ->
     p_confidence p = 0.3%float /\
     p_latitude p = latitude balloon /\ p_longitude p = longitude balloon).
Proof.
  cbn. split; [apply predict_loop_length|]. split; [|split].
  - intros p Hp. destruct H as [|H]; cbn in Hp; [discriminate|].
    injection Hp as <-. split; [reflexivity|]. intros Hs.
    rewrite persistence_first_confidence, Hs. reflexivity.
  - intros k p q Hp Hq. rewrite <- (move_to_self balloon) in Hp, Hq.
    rewrite (predict_loop_anchor _ _ _ _ _ _ _ _ _ Hp Hq). repeat split.
  - intros Hs k p Hp. eapply persistence_still; eauto.
Qed.

(** The amended C6 at a three-hour horizon for the balloon drifting east. *)
Lemma persistence_predictions_east :
  let preds :=
    predicted_positions (predictTrajectoryWithWindData Ref.Math balloon_east [] ∅ 3 persistence) in
  length preds = 3%nat /\
  (forall p, preds !! 0%nat = Some p ->
     p = predictByPersistenceSync Ref.Math balloon_east [] 1 /\
     ((or_zero (speed_kmh balloon_east) =? 0)%float = false ->
      p_confidence p = JS.Math_max 0.2 (0.8 - 0.15 * 1))) /\
  (forall k p q, preds !! k = Some p -> preds !! S k = Some q ->
     same_place q (predictByPersistenceSync Ref.Math (move_to balloon_east p) [] 1)) /\
  ((or_zero (speed_kmh balloon_east) =? 0)%float = true ->
   forall k p, preds !! k = Some p ->
     p_confidence p = 0.3%float /\
     p_latitude p = latitude balloon_east /\ p_longitude p = longitude balloon_east).
Proof. exact (persistence_predictions Ref.Math balloon_east [] ∅ 3). Defined.

(** ** Value scoring (C5) *)

(** A finite float minus itself is [+0]. *)
Lemma sub_self x : JS.is_finite x = true -> (x - x)%float = 0%float.
Proof.
  rewrite is_finite_spec. intros H. apply Prim2SF_inj. rewrite FloatAxioms.sub_spec.
  destruct H as [[s ->]|[s [m [e ->]]]].
  - destruct s; reflexivity.
  - cbn. rewrite Z.sub_diag. reflexivity.
Qed.

Lemma mul_zero_r z :
  JS.is_finite z = true -> (z * 0)%float = 0%float \/ (z * 0)%float = (-0)%float.
Proof.
  rewrite is_finite_spec. intros H.
  assert (Hz : exists s, Prim2SF (z * 0) = S754_zero s).
  { rewrite FloatAxioms.mul_spec. replace (Prim2SF 0) with (S754_zero false) by reflexivity.
    destruct H as [[s ->]|[s [m [e ->]]]]; cbn; eauto. }
  destruct Hz as [[] Hz]; [right|left]; apply Prim2SF_inj; rewrite Hz; reflexivity.
Qed.

(** The haversine distance from a regular point to itself is exactly 0. *)
Lemma haversine_self M lat lon :
  Math_sin M 0 = 0%float -> Math_atan2 M 0 1 = 0%float ->
  JS.is_finite lat = true -> JS.is_finite lon = true ->
  JS.is_finite (Math_cos M (toRadians lat) * Math_cos M (toRadians lat)) = true ->
  calculateDistance M lat lon lat lon = 0%float.
Proof.
  intros Hsin Hatan Hlat Hlon Hcos. unfold calculateDistance.
  rewrite (sub_self lat Hlat), (sub_self lon Hlon).
  change (toRadians 0 / 2)%float with 0%float. rewrite Hsin.
  change (0 * 0)%float with 0%float.
  destruct (mul_zero_r _ Hcos) as [-> | ->].
  - change (0 + 0 * 0)%float with 0%float. change (sqrt 0) with 0%float.
    change (sqrt (1 - 0)) with 1%float. rewrite Hatan. reflexivity.
  - change (0 + -0 * 0)%float with 0%float. change (sqrt 0) with 0%float.
    change (sqrt (1 - 0)) with 1%float. rewrite Hatan. reflexivity.
Qed.

Lemma sort_insert_length {A} (before : A -> A -> bool) x l :
  length (sort_insert before x l) = S (length l).
Proof.
  induction l as [|y l IH]; cbn; [reflexivity|].
  destruct (before y x); cbn; [now rewrite IH|].
  destruct (before x y); cbn; [reflexivity|now rewrite IH].
Qed.

Lemma stable_sort_length {A} (before : A -> A -> bool) l :
  length (stable_sort before l) = length l.
Proof.
  unfold stable_sort.
  assert (H : forall acc, length (foldl (fun acc x => sort_insert before x acc) acc l)
                          = (length acc + length l)%nat).
  { induction l as [|x l IH]; intros acc; cbn; [lia|].
    rewrite IH, sort_insert_length. lia. }
  now rewrite H.
Qed.

Lemma sum_of_zero_errors (vs : list ValueDataPoint) :
  Forall (fun v => prediction_error_km v = 0%float) vs ->
  foldl (fun sum v => (sum + prediction_error_km v)%float) 0%float vs = 0%float.
Proof.
  induction 1 as [|v vs Hv _ IH]; cbn; [reflexivity|]. now rewrite Hv.
Qed.

Lemma zero_over_count (n : nat) :
  (1 <= n <= 24)%nat -> (0 / JS.of_Z (Z.of_nat n))%float = 0%float.
Proof.
  intros Hn. do 25 (destruct n as [|n]; [first [lia | vm_compute; reflexivity]|]). lia.
Qed.

Lemma score_hour_exact M sorted wmap i cur next :
  exact_at_zero M ->
  sorted !! i = Some cur -> sorted !! S i = Some next ->
  persistence_successor M (take (S i) sorted) cur next ->
  exists v, score_hour M persistence sorted wmap i = Some v /\
            prediction_error_km v = 0%float.
Proof.
  intros [Hsin Hatan] Hcur Hnext (Hlat & Hlon & Flat & Flon & Fcos).
  unfold score_hour. rewrite Hcur, Hnext. eexists. split; [reflexivity|]. cbn.
  rewrite Hlat, Hlon. apply haversine_self; assumption.
Qed.

Lemma omap_score_hours M sorted wmap (n : nat) :
  exact_at_zero M ->
  (forall i cur next, (i < n)%nat -> sorted !! i = Some cur -> sorted !! S i = Some next ->
     persistence_successor M (take (S i) sorted) cur next) ->
  (n < length sorted)%nat ->
  forall m, (m <= n)%nat ->
  let vs := omap (score_hour M persistence sorted wmap) (seq 0 m) in
  length vs = m /\ Forall (fun v => prediction_error_km v = 0%float) vs.
Proof.
  intros HM Hsucc Hlen m. induction m as [|m IH]; intros Hm; cbv zeta;
    [split; [reflexivity|constructor]|].
  rewrite seq_S, omap_app. cbn.
  destruct (lookup_lt_is_Some_2 sorted m ltac:(lia)) as [cur Hcur].
  destruct (lookup_lt_is_Some_2 sorted (S m) ltac:(lia)) as [next Hnext].
  destruct (score_hour_exact M sorted wmap m cur next HM Hcur Hnext) as [v [Hv Hz]].
  { apply Hsucc; [lia|assumption..]. }
  rewrite Hv. cbn. destruct (IH ltac:(lia)) as [IHl IHf].
  rewrite length_app, Forall_app. cbn. split; [lia|]. split; [exact IHf|]. repeat constructor. exact Hz.
Qed.

(** C5: let the trajectory, in time order, be generated by the persistence
    formula: every scored point is followed by the point where its one-hour
    persistence step lands (a regular point: finite coordinates). Then, for
    the hours the route admits (1 to 24) and a [Math] whose sine and
    two-argument arctangent are exact at zero (as ECMAScript requires), value
    scoring with method persistence returns normally, scores
    min(hours, length - 1) hours, every one with a prediction error of exactly
    0 km, and the overall value score is exactly 0. *)
Theorem value_score_roundtrip (M : MathLib)
    (fetchWind : list WindLocation -> gmap WindMapKey WindData) (now : Z)
    (balloonId : string) (trajectory : list BalloonDataPoint) (hours : Z) :
  exact_at_zero M ->
  (2 <= length trajectory)%nat ->
  1 <= hours <= 24 ->
  (forall i cur next,
     Z.of_nat i < Z.min hours (Z.of_nat (length trajectory) - 1) ->
     stable_sort by_timestamp trajectory !! i = Some cur ->
     stable_sort by_timestamp trajectory !! S i = Some next ->
     persistence_successor M (take (S i) (stable_sort by_timestamp trajectory)) cur next) ->
  exists r,
    calculateBalloonValueOptimized M fetchWind now balloonId trajectory hours persistence
      = Normal r /\
    overall_value_score r = 0%float /\
    Z.of_nat (length (value_over_time r)) = Z.min hours (Z.of_nat (length trajectory) - 1) /\
    Forall (fun v => prediction_error_km v = 0%float) (value_over_time r).
Proof.
  intros HM Hlen Hhours Hsucc. unfold calculateBalloonValueOptimized.
  destruct (Nat.ltb_spec (length trajectory) 2) as [|_]; [lia|].
  set (maxHours := Z.min hours (Z.of_nat (length trajectory) - 1)) in *.
  destruct (Z.ltb_spec maxHours 1) as [|Hmax]; [lia|].
  set (sorted := stable_sort by_timestamp trajectory) in *.
  eexists. split; [reflexivity|]. cbn.
  destruct (omap_score_hours M sorted (fetchWind
     (map (fun pos => mkLocation (latitude pos) (longitude pos) (altitude_km pos)
                                 (Some (timestamp pos)))
          (take (Z.to_nat maxHours) sorted))) (Z.to_nat maxHours) HM) with (m := Z.to_nat maxHours)
    as [Hl Hf].
  - intros i cur next Hi. apply Hsucc. lia.
  - unfold sorted. rewrite stable_sort_length. lia.
  - lia.
  - cbn in Hl, Hf. rewrite Hl. split; [|split; [lia|exact Hf]].
    rewrite (sum_of_zero_errors _ Hf).
    destruct (Z.to_nat maxHours) as [|n] eqn:En; [reflexivity|].
    apply zero_over_count. lia.
Qed.

(** C5 on the six-point trajectory due east at 100 km/h, scored for 5 hours. *)
Lemma value_score_roundtrip_east6 :
  exists r,
    calculateBalloonValueOptimized Ref.Math (fun _ => ∅) 1700024400000 (balloon_id 42)
                                   east6 5 persistence = Normal r /\
    overall_value_score r = 0%float /\
    Z.of_nat (length (value_over_time r)) = Z.min 5 (Z.of_nat (length east6) - 1) /\
    Forall (fun v => prediction_error_km v = 0%float) (value_over_time r).
Proof.
  apply (value_score_roundtrip Ref.Math (fun _ => ∅) 1700024400000 (balloon_id 42) east6 5).
  - split; reflexivity.
  - vm_compute. lia.
  - lia.
  - intros i cur next Hi Hcur Hnext.
    change (Z.min 5 (Z.of_nat (length east6) - 1)) with 5 in Hi.
    do 5 (destruct i as [|i];
          [vm_compute in Hcur, Hnext; injection Hcur as <-; injection Hnext as <-;
           vm_compute; repeat split; reflexivity|]).
    lia.
Defined.

(** ** Ingest trigger (C2) *)

(** C2 at a failing input: a fresh process on an empty store, the feed
    answering with the same single observation, the trigger run at 23:05 and
    again at 23:06. The second run leaves the snapshot table as it was, but it
    finds no tracked balloon in the hour before, mints [balloon_0002] for the
    observation that already is [balloon_0001], and adds that row: the store
    is not what it was after the first run. *)
Theorem trigger_twice_mints_again :
  getCurrentTimestamp five_past = getCurrentTimestamp six_past /\
  balloon_snapshots (world_db after_second_trigger)
    = balloon_snapshots (world_db after_first_trigger) /\
  size (tracked_balloons (world_db after_first_trigger)) = 1%nat /\
  tracked_balloons (world_db after_first_trigger) !! (balloon_id 2, 1700002800000) = None /\
  size (tracked_balloons (world_db after_second_trigger)) = 2%nat /\
  tracked_balloons (world_db after_second_trigger) !! (balloon_id 2, 1700002800000)
    = tracked_balloons (world_db after_first_trigger) !! (balloon_id 1, 1700002800000) /\
  tracked_balloons (world_db after_second_trigger) !! (balloon_id 2, 1700002800000)
    = Some (mkRow 10 20 15 None None New 0) /\
  nextId (world_tracker after_first_trigger) = 2 /\
  nextId (world_tracker after_second_trigger) = 3 /\
  world_db after_second_trigger <> world_db after_first_trigger.
Proof.
  do 9 (split; [vm_compute; reflexivity|]).
  intros H. apply (f_equal (fun db => size (tracked_balloons db))) in H.
  vm_compute in H. discriminate.
Qed.

(** ** Effects of the tracker (C7) *)

Lemma foldl_invariant {A B} (P : A -> Prop) (f : A -> B -> A) (l : list B) (a : A) :
  (forall a x, P a -> P (f a x)) -> P a -> P (foldl f a l).
Proof. intros Hf. revert a. induction l as [|x l IH]; cbn; auto. Qed.

Lemma mint_counter n conf bs : (mint n conf bs).2 = n + Z.of_nat (length bs).
Proof.
  revert n. induction bs as [|b bs IH]; intros n; cbn; [lia|].
  specialize (IH (n + 1)). destruct (mint (n + 1) conf bs) as [out n']. cbn in *. lia.
Qed.

Lemma filter_new_cons b l :
  filter (fun b => is_new b = true) (b :: l)
  = if is_new b then b :: filter (fun b => is_new b = true) l
    else filter (fun b => is_new b = true) l.
Proof. rewrite filter_cons. destruct (is_new b); reflexivity. Qed.

Lemma mint_minted n conf bs :
  minted (mint n conf bs).1 = map balloon_id (seqZ n (Z.of_nat (length bs))).
Proof.
  revert n. induction bs as [|b bs IH]; intros n; [reflexivity|].
  cbn [mint length]. specialize (IH (n + 1)).
  destruct (mint (n + 1) conf bs) as [out n']. cbn [fst] in *.
  unfold minted in *. rewrite filter_new_cons. cbn [is_new as_new status map id].
  rewrite IH, (seqZ_cons n) by lia. cbn [map]. do 3 f_equal; lia.
Qed.

Lemma mint_length n conf bs : length (mint n conf bs).1 = length bs.
Proof.
  revert n. induction bs as [|b bs IH]; intros n; [reflexivity|].
  cbn [mint]. specialize (IH (n + 1)). destruct (mint (n + 1) conf bs). cbn in *. lia.
Qed.

Lemma mint_all_new n conf bs :
  filter (fun b => is_new b = false) (mint n conf bs).1 = [].
Proof.
  revert n. induction bs as [|b bs IH]; intros n; [reflexivity|].
  cbn [mint]. specialize (IH (n + 1)). destruct (mint (n + 1) conf bs). cbn [fst] in *.
  rewrite filter_cons, IH. destruct (decide _) as [E|_]; [discriminate E|reflexivity].
Qed.

Lemma filter_active_all l :
  Forall (fun b => is_new b = false) l -> filter (fun b => is_new b = false) l = l.
Proof.
  induction 1 as [|b l Hb _ IH]; [reflexivity|].
  rewrite filter_cons, IH. destruct (decide _); [reflexivity|contradiction].
Qed.

Lemma filter_new_none l :
  Forall (fun b => is_new b = false) l -> filter (fun b => is_new b = true) l = [].
Proof.
  induction 1 as [|b l Hb _ IH]; [reflexivity|]. now rewrite filter_new_cons, Hb.
Qed.

Lemma minted_app_active matched fresh :
  Forall (fun b => is_new b = false) matched -> minted (matched ++ fresh) = minted fresh.
Proof.
  intros H. unfold minted. now rewrite filter_app, (filter_new_none _ H).
Qed.

Lemma addMatch_active M st curr prev cost currIdx :
  all_active st -> all_active (addMatch M st curr prev cost currIdx).
Proof.
  unfold all_active, addMatch. cbn. intros H. apply Forall_app. split; [exact H|].
  repeat constructor.
Qed.

Lemma greedy_step_active M demand st item :
  all_active st -> all_active (greedy_step M demand st item).
Proof.
  intros H. destruct item as [currIdx [curr candidates]]. unfold greedy_step.
  destruct candidates as [|best rest]; [exact H|].
  repeat match goal with
         | |- all_active (if ?c then _ else _) => destruct c
         | |- all_active (match ?l with [] => _ | _ :: _ => _ end) => destruct l
         end; try exact H; try (apply addMatch_active; exact H).
Qed.

Lemma hungarian_phase_active L currentData previousData candidatesPerCurrent st :
  all_active st ->
  all_active (hungarian_phase L currentData previousData candidatesPerCurrent st).
Proof.
  intros H. unfold hungarian_phase.
  destruct (_ || _); [exact H|].
  apply foldl_invariant; [|exact H].
  intros a [i j] Ha.
  repeat match goal with
         | |- all_active (if ?c then _ else _) => destruct c
         | |- all_active (match ?l with Some _ => _ | None => _ end) => destruct l
         end; try exact Ha; try (apply addMatch_active; exact Ha).
Qed.

(** The store as the tracker leaves it, the counter, and what the output
    depends on. *)
Lemma trackBalloons_unfold L curr prev hist :
  exists matched unmatched,
    Forall (fun b => is_new b = false) matched /\
    (prev = [] -> matched = [] /\ unmatched = curr) /\
    let conf := match prev with [] => 1%float | _ => 0.5%float end in
    forall t db,
      trackBalloons L t db curr prev hist
      = (matched ++ (mint (nextId t) conf unmatched).1,
         set_nextId t (mint (nextId t) conf unmatched).2,
         match prev with
         | [] => db
         | _ => saveTrackedBalloons db (matched ++ (mint (nextId t) conf unmatched).1)
         end).
Proof.
  unfold trackBalloons. destruct prev as [|p prev].
  - exists [], curr. split; [constructor|]. split; [intros _; split; reflexivity|]. intros t db.
    destruct (mint (nextId t) 1 curr) as [o n]. reflexivity.
  - match goal with
    | |- context [omap ?f (imap ?g curr)] => set (unmatched := omap f (imap g curr))
    end.
    match goal with
    | |- context [hungarian_phase ?a ?b ?c ?d ?e] => set (st2 := hungarian_phase a b c d e)
    end.
    exists (tracked st2), unmatched. split.
    + apply hungarian_phase_active. apply foldl_invariant; [|constructor].
      intros a x. apply greedy_step_active.
    + split; [discriminate|]. intros t db.
      destruct (mint (nextId t) 0.5 unmatched) as [o n]. reflexivity.
Qed.

(** C7, counterexample: with a balloon in the previous hour the call writes
    its two output rows to the tracked table of an empty store, and the second
    call with the same arguments names the far observation [balloon_0003]
    where the first named it [balloon_0002]. *)
Lemma trackBalloons_not_pure :
  ~ store_unchanged_at Ref.libs (tracker_at 2) empty_store [curr_east; curr_far] [prev_east] ∅ /\
  ~ same_output_twice_at Ref.libs (tracker_at 2) empty_store [curr_east; curr_far] [prev_east] ∅.
Proof.
  split; intros H.
  - apply (f_equal (fun db => size (tracked_balloons db))) in H. vm_compute in H. discriminate.
  - apply (f_equal (map id)) in H. vm_compute in H. discriminate.
Qed.

(** C7, amended: [trackBalloons] reads neither the store nor the tracker's
    cache, only the id counter; its matched rows do not depend on the counter
    at all. It writes to the store: when the previous hour is not empty it
    saves exactly the rows it returns to the tracked table (on the first-hour
    path it leaves the store alone), and it never touches the snapshots or
    the wind cache. It advances the counter by the number of ids it minted,
    which are numbered from the old counter on. Two calls with the same
    arguments, store aside, return the same output whenever the counter is
    the same. *)
Theorem trackBalloons_effect (L : Libs) (t : Tracker) (db : Store)
    (currentData previousData : list BalloonDataPoint)
    (historyByBalloonId : gmap string (list BalloonDataPoint)) :
  let r := trackBalloons L t db currentData previousData historyByBalloonId in
  let out := r.1.1 in
  r.2 = match previousData with [] => db | _ => saveTrackedBalloons db out end /\
  balloon_snapshots r.2 = balloon_snapshots db /\
  wind_cache r.2 = wind_cache db /\
  r.1.2 = set_nextId t (nextId t + Z.of_nat (length (minted out))) /\
  minted out = map balloon_id (seqZ (nextId t) (Z.of_nat (length (minted out)))) /\
  forall t2 db2,
    let out2 := (trackBalloons L t2 db2 currentData previousData historyByBalloonId).1.1 in
    filter (fun b => is_new b = false) out2 = filter (fun b => is_new b = false) out /\
    length out2 = length out /\
    (nextId t2 = nextId t -> out2 = out).
Proof.
  destruct (trackBalloons_unfold L currentData previousData historyByBalloonId)
    as (matched & unmatched & Hact & _ & Heq).
  cbv zeta in *. rewrite (Heq t db). cbn [fst snd].
  set (conf := match previousData with [] => 1%float | _ => 0.5%float end) in *.
  assert (Hm : forall n, minted (matched ++ (mint n conf unmatched).1)
                         = map balloon_id (seqZ n (Z.of_nat (length unmatched)))).
  { intros n. now rewrite minted_app_active, mint_minted. }
  assert (Hold : forall n, filter (fun b => is_new b = false) (matched ++ (mint n conf unmatched).1)
                           = matched).
  { intros n. now rewrite filter_app, mint_all_new, app_nil_r, filter_active_all. }
  repeat split.
  - destruct previousData; reflexivity.
  - destruct previousData; reflexivity.
  - rewrite Hm, length_map, length_seqZ, mint_counter. f_equal. lia.
  - rewrite Hm, length_map, length_seqZ. f_equal. f_equal. lia.
  - rewrite (Heq t2 db2). cbn [fst]. now rewrite !Hold.
  - rewrite (Heq t2 db2). cbn [fst]. rewrite !length_app, !mint_length. reflexivity.
  - intros E. rewrite (Heq t2 db2). cbn [fst]. now rewrite E.
Qed.

(** ** Balloon ids (C8) *)

(** Reading back the digits of a positive number, after an accumulator. *)
Lemma digits_prefix_acc (d : Decimal.uint) (a : positive) :
  digits_prefix (Some (Z.pos a)) (NilEmpty.string_of_uint d)
  = Some (Z.pos (Pos.of_uint_acc d a)).
Proof.
  revert a. induction d; intros a; [reflexivity|..];
    cbn [NilEmpty.string_of_uint digits_prefix Pos.of_uint_acc];
    (match goal with
     | |- context [digit_of ?c] =>
         let v := eval vm_compute in (digit_of c) in change (digit_of c) with v
     end);
    cbv iota beta; cbn [default]; rewrite <- IHd;
    apply (f_equal (fun z => digits_prefix (Some z) (NilEmpty.string_of_uint d)));
    unfold Datatypes.id; lia.
Qed.

Lemma digits_prefix_uint (d : Decimal.uint) (acc : option Z) :
  default 0 acc = 0 ->
  digits_prefix acc (NilEmpty.string_of_uint d)
  = match d with Decimal.Nil => acc | _ => Some (Z.of_N (Pos.of_uint d)) end.
Proof.
  revert acc. induction d; intros acc Hacc; [reflexivity|..];
    cbn [NilEmpty.string_of_uint digits_prefix Pos.of_uint];
    (match goal with
     | |- context [digit_of ?c] =>
         let v := eval vm_compute in (digit_of c) in change (digit_of c) with v
     end);
    cbv iota beta; rewrite Hacc.
  1: { rewrite (IHd (Some (10 * 0 + 0))) by reflexivity. destruct d; reflexivity. }
  all: apply (digits_prefix_acc d).
Qed.

Lemma digits_prefix_zeros (k : nat) (s : string) (acc : option Z) :
  default 0 acc = 0 ->
  digits_prefix acc (zeros k +:+ s)
  = digits_prefix (match k with O => acc | S _ => Some 0 end) s.
Proof.
  revert acc. induction k as [|k IH]; intros acc Hacc; [reflexivity|].
  cbn [zeros].
  change (String (Ascii.ascii_of_nat 48) (zeros k) +:+ s)
    with (String (Ascii.ascii_of_nat 48) (zeros k +:+ s)).
  cbn [digits_prefix].
  change (digit_of (Ascii.ascii_of_nat 48)) with (Some 0). cbv iota beta.
  rewrite Hacc, IH by reflexivity. destruct k; reflexivity.
Qed.

(** [CAST(... AS INTEGER)] reads back the number of a padded id. *)
Lemma cast_integer_padStart (n : Z) :
  0 <= n -> cast_integer (padStart 4 (String_of_Z n)) = n.
Proof.
  intros Hn. destruct n as [|p|p]; [reflexivity| |lia].
  unfold cast_integer, padStart, String_of_Z. rewrite digits_prefix_zeros by reflexivity.
  cbn [Z.to_int NilZero.string_of_int]. unfold NilZero.string_of_uint.
  pose proof (DecimalPos.Unsigned.to_uint_nonnil p) as Hnil.
  pose proof (DecimalPos.Unsigned.of_to p) as Hp.
  destruct (Pos.to_uint p) eqn:E; [congruence|..];
    (rewrite digits_prefix_uint by (destruct (4 - _)%nat; reflexivity));
    rewrite Hp; reflexivity.
Qed.

Lemma substring_all (s : string) (m : nat) :
  (String.length s <= m)%nat -> String.substring 0 m s = s.
Proof.
  revert m. induction s as [|c s IH]; intros m Hm; destruct m as [|m]; cbn in *;
    try reflexivity; try lia.
  rewrite IH by lia. reflexivity.
Qed.

(** [substr(id, 9)] of a minted id is its padded number. *)
Lemma balloon_id_suffix (n : Z) :
  String.substring 8 (String.length (balloon_id n)) (balloon_id n)
  = padStart 4 (String_of_Z n).
Proof.
  unfold balloon_id. generalize (padStart 4 (String_of_Z n)). intros r.
  change (String.substring 0 (8 + String.length r) r = r).
  apply substring_all. lia.
Qed.

Lemma like_balloon_id (n : Z) : like_balloon (balloon_id n) = true.
Proof.
  unfold balloon_id. generalize (padStart 4 (String_of_Z n)). intros r. reflexivity.
Qed.

Lemma id_number_balloon_id (n : Z) : 0 <= n -> id_number (balloon_id n) = n.
Proof.
  intros Hn. unfold id_number. rewrite balloon_id_suffix. now apply cast_integer_padStart.
Qed.

Lemma balloon_id_inj (m n : Z) : 0 <= m -> 0 <= n -> balloon_id m = balloon_id n -> m = n.
Proof.
  intros Hm Hn E. rewrite <- (id_number_balloon_id m Hm), <- (id_number_balloon_id n Hn).
  now rewrite E.
Qed.

Lemma getMaxBalloonId_nonneg (db : Store) : 0 <= getMaxBalloonId db.
Proof.
  unfold getMaxBalloonId. induction (map_to_list (tracked_balloons db)) as [|kv l IH]; cbn;
    [lia|]. destruct (like_balloon _); lia.
Qed.

(** [MAX(...)] is at least the number of every [balloon_] id in the table. *)
Lemma getMaxBalloonId_bound (db : Store) (s : string) (ts : Timestamp) (row : TrackedRow) :
  tracked_balloons db !! (s, ts) = Some row -> like_balloon s = true ->
  id_number s <= getMaxBalloonId db.
Proof.
  intros Hrow Hlike. apply elem_of_map_to_list in Hrow. unfold getMaxBalloonId.
  induction (map_to_list (tracked_balloons db)) as [|kv l IH]; [inversion Hrow|].
  cbn [foldr]. apply elem_of_cons in Hrow as [<- | Hin].
  - cbn [fst snd]. rewrite Hlike. unfold id_number. lia.
  - specialize (IH Hin). destruct (like_balloon kv.1.1); lia.
Qed.

Lemma trackBalloons_counter L t db curr prev hist :
  nextId t <= nextId (trackBalloons L t db curr prev hist).1.2.
Proof.
  destruct (trackBalloons_unfold L curr prev hist) as (matched & unmatched & _ & _ & Heq).
  cbv zeta in Heq. rewrite Heq. cbn. rewrite mint_counter. lia.
Qed.

Lemma process_hour_counter L currentTimestamp byHour st hour :
  nextId (rp_tracker st) <= nextId (rp_tracker (process_hour L currentTimestamp byHour st hour)).
Proof.
  unfold process_hour. destruct (default [] (assoc_get hour byHour)) as [|first rest]; [lia|].
  destruct (getTrackedBalloonsAtTimestamp (rp_db st) (timestamp first)) as [|e es].
  - pose proof (trackBalloons_counter L (rp_tracker st) (rp_db st) (first :: rest)
                  (rp_previousHourData st) (rp_history st)) as H.
    destruct (trackBalloons _ _ _ _ _ _) as [[tracked t] db]. exact H.
  - match goal with
    | |- context [if ?a <=? ?m then _ else _] =>
        generalize m; intros maxId; destruct (Z.leb_spec a maxId)
    end; cbn; lia.
Qed.

Lemma processHistoricalData_counter L t db allData now :
  nextId t <= nextId (processHistoricalData L t db allData now).1.2.
Proof.
  unfold processHistoricalData. destruct (_ && _); [cbn; lia|]. cbn [fst snd nextId].
  apply (foldl_invariant (fun st => nextId t <= nextId (rp_tracker st))); [|cbn; lia].
  intros st hour H. etransitivity; [exact H|apply process_hour_counter].
Qed.

Lemma fallbackFullFetch_counter L upstream now w :
  nextId (world_tracker w) <= nextId (world_tracker (fallbackFullFetch L upstream now w)).
Proof.
  unfold fallbackFullFetch. destruct (fetchAll24Hours upstream now (world_db w)) as [allData db1].
  destruct allData as [|b allData]; [cbn; lia|].
  match goal with
  | |- context [processHistoricalData L ?t ?db ?a ?n] =>
      pose proof (processHistoricalData_counter L t db a n) as H;
      destruct (processHistoricalData L t db a n) as [[trackedData t'] db3]
  end.
  exact H.
Qed.

Lemma runHourlyUpdate_counter L upstream forceRun now now_cleanup w :
  nextId (world_tracker w)
  <= nextId (world_tracker (runHourlyUpdate L upstream forceRun now now_cleanup w)).
Proof.
  unfold runHourlyUpdate. destruct (_ && _); [lia|]. cbn [world_tracker].
  destruct (fetched (upstream 0)) as [|raw rest]; [apply fallbackFullFetch_counter|].
  match goal with
  | |- context [trackBalloons L ?t ?db ?c ?p ?h] =>
      pose proof (trackBalloons_counter L t db c p h) as H;
      destruct (trackBalloons L t db c p h) as [[trackedNewHour t'] db2]
  end.
  exact H.
Qed.

Lemma run_counter L w op : nextId (world_tracker w) <= nextId (world_tracker (run L w op)).
Proof.
  destruct op; cbn [run world_tracker].
  - apply trackBalloons_counter.
  - apply processHistoricalData_counter.
  - apply runHourlyUpdate_counter.
  - apply fallbackFullFetch_counter.
Qed.

Lemma run_all_counter L w ops :
  nextId (world_tracker w) <= nextId (world_tracker (foldl (run L) w ops)).
Proof.
  apply (foldl_invariant (fun w' => nextId (world_tracker w) <= nextId (world_tracker w')));
    [|lia].
  intros w' op H. etransitivity; [exact H|apply run_counter].
Qed.

(** The ids a call mints are numbered from the counter, which moves past them. *)
Lemma trackBalloons_minted L t db curr prev hist :
  exists k, 0 <= k /\
    minted (trackBalloons L t db curr prev hist).1.1 = map balloon_id (seqZ (nextId t) k) /\
    nextId (trackBalloons L t db curr prev hist).1.2 = nextId t + k.
Proof.
  destruct (trackBalloons_unfold L curr prev hist) as (matched & unmatched & Hact & _ & Heq).
  cbv zeta in Heq. rewrite Heq. cbn [fst snd]. exists (Z.of_nat (length unmatched)).
  split; [lia|]. split.
  - now rewrite minted_app_active, mint_minted.
  - cbn. apply mint_counter.
Qed.

(** C8, counterexample: a fresh process names two observations [balloon_0001]
    and [balloon_0002]; a complete rebuild resets the counter to 1 and itself
    gives [balloon_0001] to the one observation of the feed; the next call
    mints [balloon_0002] a second time. *)
Lemma rebuild_issues_again :
  ~ never_issued_again Ref.libs fresh_world (completeRebuild Ref.libs one_observation half_past)
      [curr_east; curr_far] [] ∅ [curr_far] [] ∅.
Proof.
  intros H. apply (H (balloon_id 2)); vm_compute; set_solver.
Qed.

(** C8, amended: at startup [initialize] sets the counter to the largest
    number among the stored [balloon_] ids plus one, above the number of every
    stored id; each call of [trackBalloons] mints the ids numbered from the
    counter on and moves the counter past them; no operation of the running
    process (tracking a pair of hours, reprocessing the history, the hourly
    update, the full fetch) ever lowers the counter; ids of different
    non-negative numbers are different strings; hence what one call mints, no
    later call mints again, whatever operations run in between. (A complete
    rebuild is not among these operations: it restarts the counter at 1.) *)
Theorem id_counter_discipline (L : Libs) :
  (forall t db,
     nextId (initialize t db) = getMaxBalloonId db + 1 /\
     forall n ts row, 0 <= n -> tracked_balloons db !! (balloon_id n, ts) = Some row ->
                      n < nextId (initialize t db)) /\
  (forall t db curr prev hist,
     let r := trackBalloons L t db curr prev hist in
     exists k, 0 <= k /\ minted r.1.1 = map balloon_id (seqZ (nextId t) k) /\
               nextId r.1.2 = nextId t + k) /\
  (forall w ops, nextId (world_tracker w) <= nextId (world_tracker (foldl (run L) w ops))) /\
  (forall m n, 0 <= m -> 0 <= n -> balloon_id m = balloon_id n -> m = n) /\
  (forall w ops curr1 prev1 hist1 curr2 prev2 hist2,
     0 <= nextId (world_tracker w) ->
     never_issued_again L w (fun w' => foldl (run L) w' ops)
                        curr1 prev1 hist1 curr2 prev2 hist2) /\
  (forall t, nextId (resetState t) = 1).
Proof.
  split; [|split; [|split; [|split; [|split]]]].
  - intros t db. split; [reflexivity|]. intros n ts row Hn Hrow. cbn.
    pose proof (getMaxBalloonId_bound db _ ts row Hrow (like_balloon_id n)) as H.
    rewrite id_number_balloon_id in H by exact Hn. lia.
  - intros t db curr prev hist. apply trackBalloons_minted.
  - intros w ops. apply run_all_counter.
  - apply balloon_id_inj.
  - intros w ops curr1 prev1 hist1 curr2 prev2 hist2 Hpos. unfold never_issued_again.
    cbv zeta. intros i H1 H2.
    destruct (trackBalloons_minted L (world_tracker w) (world_db w) curr1 prev1 hist1)
      as (k1 & Hk1 & Hm1 & Hn1).
    set (r1 := trackBalloons L (world_tracker w) (world_db w) curr1 prev1 hist1) in *.
    set (w1 := foldl (run L) (mkWorld r1.2 r1.1.2 (world_service w)) ops) in *.
    destruct (trackBalloons_minted L (world_tracker w1) (world_db w1) curr2 prev2 hist2)
      as (k2 & Hk2 & Hm2 & Hn2).
    pose proof (run_all_counter L (mkWorld r1.2 r1.1.2 (world_service w)) ops) as Hmono.
    fold w1 in Hmono. cbn [world_tracker] in Hmono.
    rewrite Hm1 in H1. rewrite Hm2 in H2.
    apply list_elem_of_fmap in H1 as (a & -> & Ha). apply list_elem_of_fmap in H2 as (b & E & Hb).
    apply elem_of_seqZ in Ha, Hb. apply balloon_id_inj in E; lia.
  - reflexivity.
Qed.

(** ** Rolling window (C9) *)

Lemma foldl_invariant_in {A B} (P : A -> Prop) (f : A -> B -> A) (l : list B) (a : A) :
  (forall a x, x ∈ l -> P a -> P (f a x)) -> P a -> P (foldl f a l).
Proof.
  revert a. induction l as [|x l IH]; intros a Hf Ha; cbn; [exact Ha|].
  apply IH.
  - intros a' y Hy. apply Hf. now right.
  - apply Hf; [left|exact Ha].
Qed.

Lemma addMatch_rows_at M H st curr prev cost currIdx :
  timestamp curr = H -> rows_at H st -> rows_at H (addMatch M st curr prev cost currIdx).
Proof.
  intros Hc [Hts _]. split; cbn.
  - apply Forall_app. split; [exact Hts|]. repeat constructor. exact Hc.
  - intros E. now apply app_eq_nil in E as [_ E].
Qed.

Lemma greedy_step_rows_at M H demand st item :
  timestamp item.2.1 = H -> rows_at H st -> rows_at H (greedy_step M demand st item).
Proof.
  destruct item as [currIdx [curr candidates]]. cbn [fst snd]. intros Hc Hst.
  unfold greedy_step. destruct candidates as [|best rest]; [exact Hst|].
  repeat match goal with
         | |- rows_at _ (if ?c then _ else _) => destruct c
         | |- rows_at _ (match ?l with [] => _ | _ :: _ => _ end) => destruct l
         end; try exact Hst; try (apply addMatch_rows_at; assumption).
Qed.

Lemma hungarian_phase_rows_at L H currentData previousData candidatesPerCurrent st :
  Forall (fun b => timestamp b = H) currentData ->
  rows_at H st ->
  rows_at H (hungarian_phase L currentData previousData candidatesPerCurrent st).
Proof.
  intros Hcurr Hst. unfold hungarian_phase.
  destruct (_ || _); [exact Hst|].
  apply foldl_invariant; [|exact Hst].
  intros a [i j] Ha.
  repeat match goal with
         | |- rows_at _ (if ?c then _ else _) => destruct c
         | |- rows_at _ (match ?l with Some _ => _ | None => _ end) => destruct l eqn:?
         end; try exact Ha.
  apply addMatch_rows_at; [|exact Ha].
  eapply Forall_forall in Hcurr; [exact Hcurr|]. eapply list_elem_of_lookup_2. eassumption.
Qed.

Lemma mint_rows_at H n conf bs :
  Forall (fun b => timestamp b = H) bs ->
  Forall (fun b => timestamp b = H) (mint n conf bs).1.
Proof.
  intros Hbs. revert n. induction Hbs as [|b bs Hb _ IH]; intros n; [constructor|].
  cbn [mint]. specialize (IH (n + 1)). destruct (mint (n + 1) conf bs) as [out n'].
  constructor; [exact Hb|exact IH].
Qed.

Lemma unmatched_nonempty (matched : gset nat) (curr : list BalloonDataPoint) :
  curr <> [] -> matched = ∅ ->
  omap (fun ic : nat * BalloonDataPoint =>
          if bool_decide (ic.1 ∈ matched) then None else Some ic.2)
       (imap (fun i c => (i, c)) curr) <> [].
Proof.
  intros Hne ->. destruct curr as [|c curr]; [congruence|]. simpl.
  rewrite bool_decide_eq_false_2 by set_solver. discriminate.
Qed.

(** The output of [trackBalloons]: one row or more when there is an
    observation, all at the hour of the observations. *)
Lemma trackBalloons_rows L t db curr prev hist H :
  Forall (fun b => timestamp b = H) curr -> curr <> [] ->
  let out := (trackBalloons L t db curr prev hist).1.1 in
  Forall (fun b => timestamp b = H) out /\ out <> [].
Proof.
  intros Hcurr Hne. unfold trackBalloons. destruct prev as [|p prev].
  - pose proof (mint_rows_at H (nextId t) 1 curr Hcurr) as Hm.
    pose proof (mint_length (nextId t) 1 curr) as Hl.
    destruct (mint (nextId t) 1 curr) as [out n]. cbn in *. split; [exact Hm|].
    intros ->. destruct curr; [congruence|discriminate].
  - match goal with
    | |- context [omap ?f (imap ?g curr)] => set (unmatched := omap f (imap g curr))
    end.
    match goal with
    | |- context [hungarian_phase ?a ?b ?c ?d ?e] => set (st2 := hungarian_phase a b c d e)
    end.
    assert (Hst2 : rows_at H st2).
    { apply hungarian_phase_rows_at; [exact Hcurr|].
      apply foldl_invariant_in; [|split; [constructor|reflexivity]].
      intros a [i [c cands]] Hin. apply greedy_step_rows_at. cbn [fst snd].
      apply elem_of_lookup_imap in Hin as (i' & x & E & Hx). injection E as <- <-.
      apply list_elem_of_lookup_2, elem_of_zip_l in Hx.
      eapply Forall_forall in Hcurr; eauto. }
    assert (Hun : Forall (fun b => timestamp b = H) unmatched).
    { apply Forall_forall. intros b Hb. apply list_elem_of_omap in Hb as ([i c] & Hin & Hc).
      apply elem_of_lookup_imap in Hin as (i' & x & E & Hx). injection E as <- <-.
      cbn in Hc. destruct (bool_decide _); [discriminate|]. injection Hc as <-.
      eapply Forall_forall in Hcurr; [exact Hcurr|]. eapply list_elem_of_lookup_2. eassumption. }
    assert (Hsome : tracked st2 = [] -> unmatched <> []).
    { intros Et. destruct Hst2 as [_ Hidx]. specialize (Hidx Et).
      apply unmatched_nonempty; assumption. }
    pose proof (mint_rows_at H (nextId t) 0.5 unmatched Hun) as Hm.
    pose proof (mint_length (nextId t) 0.5 unmatched) as Hl.
    destruct (mint (nextId t) 0.5 unmatched) as [fresh n]. cbn [fst snd] in *.
    split; [apply Forall_app; split; [apply Hst2|exact Hm]|].
    intros E. apply app_eq_nil in E as [Et Ef]. subst fresh. cbn in Hl.
    apply Hsome in Et. destruct unmatched; [congruence|discriminate].
Qed.

(** What [saveTrackedBalloons] leaves in the table. *)
Lemma saveTrackedBalloons_lookup db bs k row :
  tracked_balloons (saveTrackedBalloons db bs) !! k = Some row ->
  tracked_balloons db !! k = Some row \/ exists b, b ∈ bs /\ k = (id b, timestamp b).
Proof.
  unfold saveTrackedBalloons. cbn [tracked_balloons set_tracked].
  generalize (tracked_balloons db). induction bs as [|b bs IH]; intros m; cbn; [auto|].
  intros Hk. apply IH in Hk as [Hk | (b' & Hb' & ->)].
  - destruct (decide ((id b, timestamp b) = k)) as [<- | Hne].
    + right. exists b. split; [left|reflexivity].
    + left. now rewrite lookup_insert_ne in Hk.
  - right. exists b'. split; [now right|reflexivity].
Qed.

Lemma saveTrackedBalloons_member db bs b :
  b ∈ bs -> is_Some (tracked_balloons (saveTrackedBalloons db bs) !! (id b, timestamp b)).
Proof.
  unfold saveTrackedBalloons. cbn [tracked_balloons set_tracked].
  generalize (tracked_balloons db). induction bs as [|b' bs IH]; intros m Hb; [inversion Hb|].
  cbn. apply elem_of_cons in Hb as [<- | Hb]; [|now apply IH].
  clear IH.
  assert (Hm : is_Some (<[(id b, timestamp b) := row_of_balloon b]> m !! (id b, timestamp b)))
    by (rewrite lookup_insert_eq; eauto).
  revert Hm. generalize (<[(id b, timestamp b) := row_of_balloon b]> m).
  induction bs as [|c bs IH]; intros m' Hm'; cbn; [exact Hm'|].
  apply IH. destruct (decide ((id c, timestamp c) = (id b, timestamp b))) as [-> | Hne].
  - rewrite lookup_insert_eq. eauto.
  - rewrite lookup_insert_ne by exact Hne. exact Hm'.
Qed.

Lemma saveTrackedBalloons_snapshots db bs :
  balloon_snapshots (saveTrackedBalloons db bs) = balloon_snapshots db.
Proof. reflexivity. Qed.

(** What [cleanupStaleData] keeps: the rows not before the cutoff. *)
Lemma cleanup_tracked_lookup db now k row :
  tracked_balloons (cleanupStaleData db now).1 !! k = Some row
  <-> tracked_balloons db !! k = Some row /\ now - DAY_MS <= k.2.
Proof.
  cbn [cleanupStaleData fst tracked_balloons]. rewrite map_lookup_filter_Some. cbn. intuition lia.
Qed.

Lemma cleanup_snapshots_lookup db now ts rows :
  balloon_snapshots (cleanupStaleData db now).1 !! ts = Some rows
  <-> balloon_snapshots db !! ts = Some rows /\ now - DAY_MS <= ts.
Proof.
  cbn [cleanupStaleData fst balloon_snapshots]. rewrite map_lookup_filter_Some. cbn. intuition lia.
Qed.

Lemma latest_of_list (l : list (Timestamp * list RawBalloonData)) (H : Timestamp)
    (rows : list RawBalloonData) :
  (forall kv, kv ∈ l -> kv.1 <= H) ->
  match foldr (fun (kv : Timestamp * list RawBalloonData) acc =>
                 match acc with
                 | None => Some kv.1
                 | Some t => Some (Z.max kv.1 t)
                 end) None l with
  | None => l = []
  | Some t => t <= H /\ ((H, rows) ∈ l -> t = H)
  end.
Proof.
  induction l as [|kv l IH]; intros Hall; cbn [foldr]; [reflexivity|].
  assert (Hl : forall kv, kv ∈ l -> kv.1 <= H) by (intros kv' Hk; apply Hall; now right).
  specialize (IH Hl). pose proof (Hall kv ltac:(left)) as Hkv. unfold Timestamp in *.
  match type of IH with
  | context [foldr ?f None l] => destruct (foldr f None l) as [t|]
  end.
  - destruct IH as [Ht Hin]. split; [lia|]. intros Hmem.
    apply elem_of_cons in Hmem as [<- | Hmem]; [cbn in *; lia|].
    specialize (Hin Hmem). lia.
  - subst l. split; [exact Hkv|]. intros Hmem.
    apply elem_of_cons in Hmem as [<- | Hmem]; [reflexivity|inversion Hmem].
Qed.

(** [MAX(timestamp)] over the snapshots. *)
Lemma getLatestSnapshotTimestamp_max db H :
  is_Some (balloon_snapshots db !! H) ->
  (forall ts rows, balloon_snapshots db !! ts = Some rows -> ts <= H) ->
  getLatestSnapshotTimestamp db = Some H.
Proof.
  intros [rows Hrows] Hmax.
  apply elem_of_map_to_list in Hrows.
  assert (Hall : forall kv, kv ∈ map_to_list (balloon_snapshots db) -> kv.1 <= H).
  { intros [ts r] Hin. apply elem_of_map_to_list in Hin. eapply Hmax, Hin. }
  pose proof (latest_of_list _ H rows Hall) as Hgen.
  change (match getLatestSnapshotTimestamp db with
          | None => map_to_list (balloon_snapshots db) = []
          | Some t => t <= H /\ ((H, rows) ∈ map_to_list (balloon_snapshots db) -> t = H)
          end) in Hgen.
  destruct (getLatestSnapshotTimestamp db) as [t|].
  - destruct Hgen as [_ Ht]. now rewrite (Ht Hrows).
  - unfold Timestamp in *. rewrite Hgen in Hrows. inversion Hrows.
Qed.

Lemma trackBalloons_store L t db curr prev hist :
  (trackBalloons L t db curr prev hist).2
  = match prev with
    | [] => db
    | _ => saveTrackedBalloons db (trackBalloons L t db curr prev hist).1.1
    end.
Proof.
  destruct (trackBalloons_unfold L curr prev hist) as (matched & unmatched & _ & _ & Heq).
  cbv zeta in Heq. rewrite Heq. reflexivity.
Qed.

Lemma to_points_timestamp hourOffset ts rawData :
  Forall (fun b => timestamp b = ts) (to_points hourOffset ts rawData).
Proof.
  apply Forall_forall. intros b Hb. unfold to_points in Hb.
  apply elem_of_lookup_imap in Hb as (i & raw & -> & _). reflexivity.
Qed.

Lemma to_points_nonempty hourOffset ts rawData :
  rawData <> [] -> to_points hourOffset ts rawData <> [].
Proof. destruct rawData; [congruence|discriminate]. Qed.

Lemma getCurrentTimestamp_on_the_hour now : on_the_hour (getCurrentTimestamp now).
Proof.
  unfold on_the_hour, getCurrentTimestamp, getTimestampForOffset, HOUR_MS.
  Z.to_euclidean_division_equations. lia.
Qed.

Lemma getCurrentTimestamp_le now : getCurrentTimestamp now <= now.
Proof.
  unfold getCurrentTimestamp, getTimestampForOffset, HOUR_MS.
  Z.to_euclidean_division_equations. lia.
Qed.

(** Two times on the hour, less than 24 hours apart, are at most 23 hours apart. *)
Lemma on_the_hour_gap ts H :
  on_the_hour ts -> on_the_hour H -> H - DAY_MS < ts -> H - 23 * HOUR_MS <= ts.
Proof.
  unfold on_the_hour, DAY_MS, HOUR_MS. intros Hts HH Hlt.
  Z.to_euclidean_division_equations. lia.
Qed.

(** The store after the incremental path of a tick, before the cleanup. *)
Lemma incremental_store L t db H rawData :
  rawData <> [] ->
  let db1 := saveBalloonSnapshot db H rawData in
  let r := trackBalloons L t db1 (to_points 0 H rawData)
             (getTrackedBalloonsAtTimestamp db1 (getCurrentTimestamp (H - 60 * 60 * 1000))) ∅ in
  let db3 := saveTrackedBalloons r.2 r.1.1 in
  balloon_snapshots db3 = <[ H := rawData ]> (balloon_snapshots db) /\
  (forall key row, tracked_balloons db3 !! key = Some row ->
                   tracked_balloons db !! key = Some row \/ key.2 = H) /\
  (exists key row, tracked_balloons db3 !! key = Some row /\ key.2 = H).
Proof.
  intros Hne db1 r db3.
  destruct (trackBalloons_rows L t db1 (to_points 0 H rawData)
              (getTrackedBalloonsAtTimestamp db1 (getCurrentTimestamp (H - 60 * 60 * 1000))) ∅ H
              (to_points_timestamp 0 H rawData) (to_points_nonempty 0 H rawData Hne))
    as [Hts Hout].
  fold r in Hts, Hout.
  assert (Hr2 : r.2 = db1 \/ r.2 = saveTrackedBalloons db1 r.1.1).
  { subst r. rewrite trackBalloons_store. destruct (getTrackedBalloonsAtTimestamp _ _); auto. }
  assert (Hnew : forall b, b ∈ r.1.1 -> (id b, timestamp b).2 = H).
  { intros b Hb. eapply Forall_forall in Hts; [exact Hts|exact Hb]. }
  split; [|split].
  - subst db3. rewrite saveTrackedBalloons_snapshots. destruct Hr2 as [-> | ->]; reflexivity.
  - intros key row Hk. subst db3.
    apply saveTrackedBalloons_lookup in Hk as [Hk | (b & Hb & ->)]; [|right; now apply Hnew].
    destruct Hr2 as [E | E]; rewrite E in Hk; [left; exact Hk|].
    apply saveTrackedBalloons_lookup in Hk as [Hk | (b & Hb & ->)]; [left; exact Hk|].
    right. now apply Hnew.
  - destruct r.1.1 as [|b out] eqn:E; [congruence|].
    destruct (saveTrackedBalloons_member r.2 (b :: out) b ltac:(left)) as [row Hrow].
    exists (id b, timestamp b), row. split; [exact Hrow|]. apply Hnew. left.
Qed.

Lemma runHourlyUpdate_incremental L upstream forceRun now now_cleanup w :
  autoUpdateEnabled (world_service w) = true \/ forceRun = true ->
  fetched (upstream 0) <> [] ->
  let H := getCurrentTimestamp now in
  let db1 := saveBalloonSnapshot (world_db w) H (fetched (upstream 0)) in
  let r := trackBalloons L (world_tracker w) db1 (to_points 0 H (fetched (upstream 0)))
             (getTrackedBalloonsAtTimestamp db1 (getCurrentTimestamp (H - 60 * 60 * 1000))) ∅ in
  world_db (runHourlyUpdate L upstream forceRun now now_cleanup w)
  = (cleanupStaleData (saveTrackedBalloons r.2 r.1.1) now_cleanup).1.
Proof.
  intros Hrun Hne. cbv zeta. unfold runHourlyUpdate.
  replace (negb (autoUpdateEnabled (world_service w)) && negb forceRun) with false
    by (destruct Hrun as [-> | ->]; [reflexivity|now rewrite andb_false_r]).
  destruct (fetched (upstream 0)) as [|raw rest] eqn:E; [congruence|].
  cbn [world_db].
  destruct (trackBalloons _ _ _ _ _ _) as [[trackedNewHour t] db2]. reflexivity.
Qed.



Lemma store_times_list (P : Timestamp -> Prop) (db : Store)
    (snaps : list (Timestamp * list RawBalloonData))
    (trk : list (string * Timestamp * TrackedRow)) :
  map_to_list (balloon_snapshots db) = snaps ->
  map_to_list (tracked_balloons db) = trk ->
  Forall (fun kv => P kv.1) snaps -> Forall (fun kv => P kv.1.2) trk ->
  store_times P db.
Proof.
  intros <- <- Hs Ht. split.
  - intros ts rows Hts. apply elem_of_map_to_list in Hts.
    eapply Forall_forall in Hs; [|exact Hts]. exact Hs.
  - intros [s ts] row Hk. apply elem_of_map_to_list in Hk.
    eapply Forall_forall in Ht; [|exact Hk]. exact Ht.
Qed.


(** ** Wind service and its cache (C4) *)

(** C4, counterexample: for one location and a provider that answers, the
    only thing the batch call does to the outside is the request: no cache
    lookup comes before it, and the vector it returns is not in the cache of
    the store it leaves. *)
Lemma batch_wind_ignores_cache :
  ~ consults_cache_claim Ref.Math west_wind five_past empty_store one_location /\
  ~ fills_cache_claim Ref.Math west_wind five_past empty_store one_location.
Proof.
  split; intros H.
  - destruct (H (mkLocation 10 20 15 (Some 1700002800000)) ltac:(left)) as (i & Hi & _).
    vm_compute in Hi. destruct i as [|[|i]]; discriminate.
  - specialize (H (wind_key 10 20 15 (Some 1700002800000))
                  (wind_vector Ref.Math 10 20 15 150 36 270 1700002800000)
                  ltac:(vm_compute; reflexivity)).
    vm_compute in H. discriminate.
Qed.

Lemma wind_batches_events M api pressure past_days forecast_days fuel locs acc :
  Forall (fun e => is_cache_event e = false) acc.2 ->
  Forall (fun e => is_cache_event e = false)
         (wind_batches M api pressure past_days forecast_days fuel locs acc).2.
Proof.
  revert locs acc. induction fuel as [|fuel IH]; intros locs acc Hacc; [exact Hacc|].
  destruct locs as [|loc locs]; [exact Hacc|].
  cbn [wind_batches]. destruct acc as [windDataMap events]. apply IH.
  cbn [snd] in Hacc.
  destruct (api _) as [status|results].
  - cbn [snd]. rewrite !Forall_app. split; [exact Hacc|]. split; [repeat constructor|].
    destruct (bool_decide _); repeat constructor.
  - destruct (bind_results _ _ _ _ _ _) as [m completed]. cbn [snd].
    rewrite !Forall_app. split; [exact Hacc|]. split; [repeat constructor|].
    destruct (_ && _); repeat constructor.
Qed.

Lemma getWindAtMultipleLocations_events M api now db locations :
  Forall (fun e => is_cache_event e = false)
         (getWindAtMultipleLocations M api now db locations).2.
Proof.
  unfold getWindAtMultipleLocations.
  match goal with
  | |- context [foldl ?f (∅, []) ?l] =>
      assert (H : Forall (fun e => is_cache_event e = false) (foldl f (∅, []) l).2);
      [|destruct (foldl f (∅, []) l) as [windDataMap events]; exact H]
  end.
  apply (foldl_invariant (fun acc : gmap WindMapKey WindData * list WindEvent =>
                            Forall (fun e => is_cache_event e = false) acc.2));
    [|constructor].
  intros acc g Hacc. destruct (time_frame _ _ _) as [past_days forecast_days].
  now apply wind_batches_events.
Qed.

Lemma getWindAtMultipleLocations_frame M api now db db2 locations :
  getWindAtMultipleLocations M api now db2 locations
  = ((getWindAtMultipleLocations M api now db locations).1.1, db2,
     (getWindAtMultipleLocations M api now db locations).2).
Proof.
  unfold getWindAtMultipleLocations.
  destruct (foldl _ _ _) as [windDataMap events]. reflexivity.
Qed.

Lemma getWindAtLocation_consults M api now lucky db lat lon altitude ts :
  is_current now ts = true ->
  (getWindAtLocation M api now lucky db lat lon altitude ts).2 !! 0%nat
  = Some (EvCacheGet (round1 lat) (round1 lon) (round1 altitude)).
Proof.
  unfold is_current, getWindAtLocation. intros ->. cbv zeta.
  repeat match goal with
         | |- context [match ?x with _ => _ end] => destruct x
         end; reflexivity.
Qed.

Lemma getWindAtLocation_fills M api now lucky db lat lon altitude ts v req :
  is_current now ts = true ->
  EvHttpGet req ∈ (getWindAtLocation M api now lucky db lat lon altitude ts).2 ->
  (getWindAtLocation M api now lucky db lat lon altitude ts).1.1 = Some v ->
  (getWindAtLocation M api now lucky db lat lon altitude ts).1.2
  = setWindCache (if lucky then clearExpiredWindCache db now else db) v /\
  last (getWindAtLocation M api now lucky db lat lon altitude ts).2 = Some (EvCacheSet v).
Proof.
  unfold is_current, getWindAtLocation. intros ->. cbv zeta.
  repeat match goal with
         | |- context [match ?x with _ => _ end] => destruct x
         end; cbn [fst snd]; intros Hin Hv; try discriminate Hv;
    try (injection Hv as <-; split; [reflexivity|]; rewrite !app_assoc; apply last_snoc).
  all: apply list_elem_of_singleton in Hin; discriminate Hin.
Qed.

Lemma getWindAtLocation_skips M api now lucky db lat lon altitude ts :
  is_current now ts = false ->
  let s := getWindAtLocation M api now lucky db lat lon altitude ts in
  s.1.2 = (if lucky then clearExpiredWindCache db now else db) /\
  Forall (fun e => match e with EvCacheGet _ _ _ | EvCacheSet _ => False | _ => True end) s.2.
Proof.
  unfold is_current, getWindAtLocation. intros ->. cbv zeta.
  repeat match goal with
         | |- context [match ?x with _ => _ end] => destruct x
         end; cbn [fst snd]; (split; [reflexivity|repeat constructor]).
Qed.

Lemma setWindCache_lookup db v :
  getWindCache (setWindCache db v) (w_latitude v) (w_longitude v) (w_altitude_km v)
               (w_timestamp v) = Some v.
Proof. unfold getWindCache, setWindCache. cbn. apply lookup_insert_eq. Qed.

(** C4, amended: the batch call [getWindAtMultipleLocations] neither consults
    nor fills the cache: what it does to the outside is requests and pauses
    only, it leaves the store as it was and its result does not depend on the
    store. The cache belongs to the single-location path [getWindAtLocation],
    for a current target only: there the cache is consulted first, under the
    position rounded to one decimal, and when a request had to be sent and
    gave a vector, that vector is inserted under its rounded position and its
    hour, as the last step; for a target that is not current the cache is
    neither consulted nor filled. *)
Theorem wind_cache_integration (M : MathLib) (api : WindApi) (now : Z) (db : Store)
    (locations : list WindLocation) :
  let r := getWindAtMultipleLocations M api now db locations in
  r.1.2 = db /\
  Forall (fun e => is_cache_event e = false) r.2 /\
  (forall db2, getWindAtMultipleLocations M api now db2 locations = (r.1.1, db2, r.2)) /\
  (forall lucky lat lon altitude ts,
     let s := getWindAtLocation M api now lucky db lat lon altitude ts in
     (is_current now ts = true ->
      s.2 !! 0%nat = Some (EvCacheGet (round1 lat) (round1 lon) (round1 altitude)) /\
      forall req v, EvHttpGet req ∈ s.2 -> s.1.1 = Some v ->
        last s.2 = Some (EvCacheSet v) /\
        getWindCache s.1.2 (w_latitude v) (w_longitude v) (w_altitude_km v) (w_timestamp v)
        = Some v) /\
     (is_current now ts = false ->
      s.1.2 = (if lucky then clearExpiredWindCache db now else db) /\
      Forall (fun e => match e with EvCacheGet _ _ _ | EvCacheSet _ => False | _ => True end)
             s.2)).
Proof.
  cbv zeta. split; [|split; [|split]].
  - now rewrite (getWindAtMultipleLocations_frame M api now db db locations).
  - apply getWindAtMultipleLocations_events.
  - intros db2. apply getWindAtMultipleLocations_frame.
  - intros lucky lat lon altitude ts. split.
    + intros Hcur. split; [now apply getWindAtLocation_consults|].
      intros req v Hin Hv.
      destruct (getWindAtLocation_fills M api now lucky db lat lon altitude ts v req Hcur Hin Hv)
        as [Hdb Hlast].
      split; [exact Hlast|]. rewrite Hdb. apply setWindCache_lookup.
    + intros Hcur. now apply getWindAtLocation_skips.
Qed.

(** ** Hard gates of the match score (C1) *)

(** A stored heading of exactly 0 (due north) is falsy in
    [prev.speed_kmh && prev.direction_deg]: without history the score is the
    one of a balloon that has no stored velocity at all. *)
Lemma zero_heading_is_no_velocity M curr prev :
  direction_deg prev = Some 0%float ->
  calculateMatchScore M curr prev [] = calculateMatchScore M curr (without_velocity prev) [].
Proof.
  intros Hd. unfold calculateMatchScore, match_velocity, stored_velocity. cbn.
  rewrite Hd. destruct (speed_kmh prev) as [s|]; [|reflexivity].
  replace (JS.truthy s && JS.truthy 0) with false; [reflexivity|].
  now rewrite andb_false_r.
Qed.

(** C1 at a failing input: a balloon stored an hour ago at 0N 0E with speed
    100 km/h and heading 0 (due north), and one observation now at 0N 1E, 111 km
    due east of it, at the same altitude. The stored speed is above 10 km/h and
    the implied heading is 90 degrees, 90 away from the stored one and so
    beyond the 45 of the gate; yet the score is finite (about 8.2), and
    [trackBalloons] continues [balloon_0001] at the observation. With a stored
    heading of 1 degree the gate works: the score is infinite and the
    observation gets a new id. *)
Theorem zero_heading_passes_gate :
  speed_kmh prev_north = Some 100%float /\
  direction_deg prev_north = Some 0%float /\
  v_direction_deg (calculateVelocity Ref.Math prev_north curr_east) = 90%float /\
  JS.gt (angleDifference 0 90) MAX_DIRECTION_CHANGE_DEG = true /\
  calculateMatchScore Ref.Math curr_east prev_north [] = 8.2428744743258715%float /\
  map (fun b => (id b, status b, direction_deg b))
      (trackBalloons Ref.libs (tracker_at 2) empty_store [curr_east] [prev_north] ∅).1.1
    = [(balloon_id 1, Active, Some 90%float)] /\
  calculateMatchScore Ref.Math curr_east (heading 1 prev_east) [] = infinity /\
  map (fun b => (id b, status b, direction_deg b))
      (trackBalloons Ref.libs (tracker_at 2) empty_store [curr_east] [heading 1 prev_east] ∅).1.1
    = [(balloon_id 2, New, None)].
Proof.
  do 7 (split; [vm_compute; reflexivity|]). vm_compute. reflexivity.
Qed.

(** ** What a finite score guarantees *)

Lemma gt_10_gt_0 (s : float) : JS.gt s 10 = true -> JS.gt s 0 = true.
Proof.
  unfold JS.gt. rewrite !FloatAxioms.ltb_spec.
  replace (Prim2SF 10) with (S754_finite false 5629499534213120 (-49)) by reflexivity.
  replace (Prim2SF 0) with (S754_zero false) by reflexivity.
  destruct (Prim2SF s) as [sg|sg| |sg m e]; try destruct sg; cbn; congruence.
Qed.

Lemma score_finite_gates M curr prev history :
  (calculateMatchScore M curr prev history <? infinity)%float = true ->
  passes_gates M curr prev history.
Proof.
  unfold calculateMatchScore, passes_gates.
  destruct (JS.gt (calculateDistance _ _ _ _ _) _); [discriminate|].
  destruct (JS.gt (abs _) _); [discriminate|].
  intros Hfin. split; [reflexivity|]. split; [reflexivity|].
  intros v Hv Hs. rewrite Hv in Hfin. rewrite (gt_10_gt_0 _ Hs), Hs in Hfin.
  cbv zeta in Hfin.
  destruct (JS.gt (angleDifference _ _) _); [discriminate|reflexivity].
Qed.

Lemma sort_insert_elem {A} (before : A -> A -> bool) (x y : A) (l : list A) :
  y ∈ sort_insert before x l -> y = x \/ y ∈ l.
Proof.
  induction l as [|z l IH]; cbn.
  - intros Hy. apply list_elem_of_singleton in Hy. now left.
  - destruct (before z x).
    + intros Hy. apply elem_of_cons in Hy as [-> | Hy]; [right; left|].
      destruct (IH Hy) as [-> | Hin]; [now left|right; now right].
    + destruct (before x z).
      * intros Hy. apply elem_of_cons in Hy as [-> | Hy]; [now left|now right].
      * intros Hy. apply elem_of_cons in Hy as [-> | Hy]; [right; left|].
        destruct (IH Hy) as [-> | Hin]; [now left|right; now right].
Qed.

Lemma stable_sort_elem {A} (before : A -> A -> bool) (y : A) (l : list A) :
  y ∈ stable_sort before l -> y ∈ l.
Proof.
  unfold stable_sort.
  assert (H : forall acc, y ∈ foldl (fun acc x => sort_insert before x acc) acc l ->
                          y ∈ acc \/ y ∈ l).
  { induction l as [|x l IH]; intros acc; cbn; [auto|].
    intros Hy. apply IH in Hy as [Hy | Hy]; [|right; now right].
    apply sort_insert_elem in Hy as [-> | Hy]; [right; left|now left]. }
  intros Hy. apply H in Hy as [Hy | Hy]; [inversion Hy|exact Hy].
Qed.

Lemma candidates_for_ok L hist previousData curr c :
  rbush_sound L ->
  c ∈ candidates_for L (map node_of previousData) (prevIndexMap previousData) hist curr ->
  candidate_ok L hist previousData curr c.
Proof.
  intros Hsound Hc. unfold candidates_for in Hc. apply stable_sort_elem in Hc.
  apply list_elem_of_omap in Hc as (node & Hnode & Hsome).
  apply Hsound in Hnode. apply list_elem_of_fmap in Hnode as (b & -> & Hb).
  cbn in Hsome. destruct (_ <? infinity)%float eqn:Hfin; [|discriminate].
  destruct (_ <=? _)%float; [|discriminate]. cbn in Hsome. injection Hsome as <-.
  repeat split; cbn; assumption || reflexivity.
Qed.

(** With distinct ids, the index map finds every previous balloon where it is. *)
Lemma prevIndexMap_lookup previousData b :
  NoDup (map id previousData) -> b ∈ previousData ->
  exists i, prevIndexMap previousData !! id b = Some i /\ previousData !! i = Some b.
Proof.
  unfold prevIndexMap. intros Hnd Hb.
  assert (H : forall (l : list BalloonDataPoint) (k : nat) (m : gmap string nat),
             NoDup (map id l) -> b ∈ l ->
             exists i, foldl (fun m ib => <[ id ib.2 := ib.1 ]> m) m
                             (imap (fun i b => ((k + i)%nat, b)) l) !! id b = Some (k + i)%nat /\
                       l !! i = Some b).
  { induction l as [|x l IH]; intros k m Hl Hin; [inversion Hin|].
    cbn [map] in Hl. apply NoDup_cons in Hl as [Hx Hl].
    cbn [imap foldl]. rewrite (imap_ext _ (fun i b => ((S k + i)%nat, b)))
      by (intros; cbn; f_equal; lia).
    cbn [fst snd].
    apply elem_of_cons in Hin as [<- | Hin].
    - exists 0%nat. split; [|reflexivity]. rewrite !Nat.add_0_r.
      clear IH. revert Hx. generalize (S k). generalize (<[id b := k]> m)
        (lookup_insert_eq m (id b) k).
      induction l as [|y l IH]; intros m' Hm' k' Hx; cbn; [exact Hm'|].
      rewrite (imap_ext _ (fun i b => ((S k' + i)%nat, b))) by (intros; cbn; f_equal; lia).
      cbn in Hx. apply not_elem_of_cons in Hx as [Hne Hx].
      apply NoDup_cons in Hl as [_ Hl].
      apply IH; [exact Hl| |exact Hx]. cbn. rewrite lookup_insert_ne by congruence. exact Hm'.
    - destruct (IH (S k) (<[id x := (k + 0)%nat]> m) Hl Hin) as (i & Hi & Hli).
      exists (S i). split; [|exact Hli].
      replace (k + S i)%nat with (S k + i)%nat by lia. exact Hi. }
  destruct (H previousData 0%nat ∅ Hnd Hb) as (i & Hi & Hli). exists i. split; [|exact Hli].
  exact Hi.
Qed.

Lemma addMatch_matched M hist currentData previousData st curr prev cost currIdx :
  curr ∈ currentData -> prev ∈ previousData ->
  passes_gates M curr prev (default [] (hist !! id prev)) ->
  Forall (matched_row M hist currentData previousData) (tracked st) ->
  Forall (matched_row M hist currentData previousData)
         (tracked (addMatch M st curr prev cost currIdx)).
Proof.
  intros Hc Hp Hg Hst. cbn. apply Forall_app. split; [exact Hst|].
  constructor; [|constructor]. exists curr, prev. cbn. repeat split; try assumption; apply Hg.
Qed.

Lemma candidate_passes L hist previousData curr c :
  candidate_ok L hist previousData curr c ->
  prev c ∈ previousData /\ passes_gates L curr (prev c) (default [] (hist !! id (prev c))).
Proof.
  intros (Hin & _ & Hcost & Hfin). split; [exact Hin|].
  apply score_finite_gates. now rewrite <- Hcost.
Qed.

Lemma greedy_step_matched L hist currentData previousData demand st item :
  rbush_sound L ->
  item.2.1 ∈ currentData ->
  item.2.2 = candidates_for L (map node_of previousData) (prevIndexMap previousData) hist
                            item.2.1 ->
  Forall (matched_row L hist currentData previousData) (tracked st) ->
  Forall (matched_row L hist currentData previousData)
         (tracked (greedy_step L demand st item)).
Proof.
  destruct item as [currIdx [curr candidates]]. cbn [fst snd]. intros Hsound Hc Hcands Hst.
  unfold greedy_step. destruct candidates as [|best rest]; [exact Hst|].
  assert (Hbest : prev best ∈ previousData /\
                  passes_gates L curr (prev best) (default [] (hist !! id (prev best)))).
  { apply candidate_passes. apply candidates_for_ok; [exact Hsound|]. rewrite <- Hcands. left. }
  destruct Hbest as [Hin Hg].
  repeat match goal with
         | |- Forall _ (tracked (if ?c then _ else _)) => destruct c
         | |- Forall _ (tracked (match ?l with [] => _ | _ :: _ => _ end)) => destruct l
         end; try exact Hst; apply addMatch_matched; assumption.
Qed.

Lemma index_of_Some (x : nat) (l : list nat) (j : nat) :
  index_of x l = Some j -> l !! j = Some x.
Proof.
  unfold index_of. destruct (list_find _ l) as [[i y]|] eqn:E; [|discriminate].
  cbn. intros [= <-]. apply list_find_Some in E as (Hi & -> & _). exact Hi.
Qed.

Lemma cost_row_entry k unmatchedPrevIndices candidates j x :
  cost_row k unmatchedPrevIndices candidates !! j = Some x ->
  x = INFINITY_COST \/
  exists c, c ∈ candidates /\ index_of (prevIdx c) unmatchedPrevIndices = Some j /\ cost c = x.
Proof.
  unfold cost_row. revert j x.
  apply (foldl_invariant_in
           (fun row : list float => forall j x, row !! j = Some x ->
              x = INFINITY_COST \/
              exists c, c ∈ candidates /\
                        index_of (prevIdx c) unmatchedPrevIndices = Some j /\ cost c = x)).
  - intros row c Hc Hrow j x. destruct (index_of _ _) as [col|] eqn:E; [|apply Hrow].
    intros Hj. apply list_lookup_insert_Some in Hj as [(-> & <- & _) | (_ & Hj)].
    + right. exists c. auto.
    + now apply Hrow.
  - intros j x Hj. apply lookup_replicate in Hj as [-> _]. now left.
Qed.

Lemma hungarian_phase_matched L hist currentData previousData st :
  rbush_sound L -> NoDup (map id previousData) ->
  Forall (matched_row L hist currentData previousData) (tracked st) ->
  Forall (matched_row L hist currentData previousData)
         (tracked (hungarian_phase L currentData previousData
                     (map (candidates_for L (map node_of previousData)
                                          (prevIndexMap previousData) hist) currentData) st)).
Proof.
  intros Hsound Hnd Hst. unfold hungarian_phase. cbv zeta.
  destruct (_ || _); [exact Hst|].
  apply foldl_invariant; [|exact Hst].
  intros a [i j] Ha.
  destruct (conflictingCurrIndices st !! i) as [currIdx|] eqn:Ei; [|exact Ha].
  match goal with
  | |- context [match ?u !! j with Some _ => _ | None => _ end] =>
      set (unmatchedPrevIndices := u) in *;
      destruct (unmatchedPrevIndices !! j) as [pIdx|] eqn:Ej; [|exact Ha]
  end.
  match goal with
  | |- context [JS.ge ?c INFINITY_COST] => remember c as cost eqn:Hcost
  end.
  destruct (JS.ge cost INFINITY_COST) eqn:Hge; [exact Ha|].
  destruct (currentData !! currIdx) as [curr|] eqn:Ec; [|exact Ha].
  destruct (previousData !! pIdx) as [p|] eqn:Ep; [|exact Ha].
  assert (Hnot : cost <> INFINITY_COST) by (intros ->; vm_compute in Hge; discriminate).
  match type of Hcost with
  | _ = default _ (?cm !! i ≫= _) => destruct (cm !! i) as [row|] eqn:Erow
  end; [|now cbn in Hcost].
  cbn in Hcost. destruct (row !! j) as [x|] eqn:Ex; [|now cbn in Hcost].
  cbn in Hcost. subst x.
  apply list_lookup_fmap_Some_1 in Erow as (i' & -> & Hi').
  apply lookup_seq in Hi' as [-> _]. cbn in Ex. rewrite Ei in Ex.
  apply cost_row_entry in Ex as [Ex | (c & Hc & Hidx & Hcc)]; [contradiction|].
  apply list_elem_of_filter in Hc as [_ Hc].
  rewrite list_lookup_fmap, Ec in Hc. cbn in Hc.
  apply candidates_for_ok in Hc; [|exact Hsound].
  destruct (candidate_passes _ _ _ _ _ Hc) as [Hin Hg].
  destruct Hc as (_ & Hpidx & _ & _).
  destruct (prevIndexMap_lookup previousData (prev c) Hnd Hin) as (i0 & Hmap & Hi0).
  rewrite Hmap in Hpidx. cbn in Hpidx.
  apply index_of_Some in Hidx. fold unmatchedPrevIndices in Hidx.
  rewrite Ej in Hidx. injection Hidx as ->. rewrite Hpidx, Hi0 in Ep. injection Ep as <-.
  apply addMatch_matched; [eapply list_elem_of_lookup_2; exact Ec|exact Hin|exact Hg|exact Ha].
Qed.

Lemma zip_map_elem {A B} (f : A -> B) (l : list A) (x : A) (y : B) :
  (x, y) ∈ zip l (map f l) -> x ∈ l /\ y = f x.
Proof.
  induction l as [|a l IH]; cbn; intros H; [inversion H|].
  apply elem_of_cons in H as [[= -> ->] | H]; [split; [left|reflexivity]|].
  destruct (IH H) as [Hx Hy]. split; [now right|exact Hy].
Qed.

Lemma mint_new n conf bs : Forall (fun b => is_new b = true) (mint n conf bs).1.
Proof.
  revert n. induction bs as [|b bs IH]; intros n; [constructor|].
  cbn [mint]. specialize (IH (n + 1)). destruct (mint (n + 1) conf bs) as [out n'].
  constructor; [reflexivity|exact IH].
Qed.

(** The hard gates hold for every continued balloon: when the spatial index
    returns only nodes it holds and the previous balloons have distinct ids,
    every row of the output of [trackBalloons] that is not new carries the id
    of a previous balloon and the position of a current observation such
    that the distance test ([> 600]) and the altitude test ([> 10]) of the
    score are false for the pair, and so is the heading test ([> 45]) whenever
    the velocity the score works with (the averaged one from two or more
    history points, else the stored one) has a speed above 10 km/h. *)
Theorem matched_rows_pass_gates (L : Libs) (t : Tracker) (db : Store)
    (currentData previousData : list BalloonDataPoint)
    (historyByBalloonId : gmap string (list BalloonDataPoint)) :
  rbush_sound L -> NoDup (map id previousData) ->
  Forall (fun row => is_new row = false ->
                     matched_row L historyByBalloonId currentData previousData row)
         (trackBalloons L t db currentData previousData historyByBalloonId).1.1.
Proof.
  intros Hsound Hnd. unfold trackBalloons. destruct previousData as [|p0 previousData'].
  - pose proof (mint_new (nextId t) 1 currentData) as Hm.
    destruct (mint (nextId t) 1 currentData) as [out n]. cbn [fst] in *.
    eapply Forall_impl; [exact Hm|]. intros row Hr Hnew. congruence.
  - set (previousData := p0 :: previousData') in *.
    match goal with
    | |- context [omap ?f (imap ?g currentData)] =>
        set (unmatched := omap f (imap g currentData))
    end.
    match goal with
    | |- context [hungarian_phase ?a ?b ?c ?d ?e] => set (st2 := hungarian_phase a b c d e)
    end.
    assert (Hst2 : Forall (matched_row L historyByBalloonId currentData previousData)
                          (tracked st2)).
    { apply hungarian_phase_matched; [exact Hsound|exact Hnd|].
      apply foldl_invariant_in; [|constructor].
      intros a [i [c cands]] Hin. apply elem_of_lookup_imap in Hin as (i' & x & E & Hx).
      injection E as <- <-. apply list_elem_of_lookup_2, zip_map_elem in Hx as [Hc Hcands].
      apply greedy_step_matched; assumption. }
    pose proof (mint_new (nextId t) 0.5 unmatched) as Hm.
    destruct (mint (nextId t) 0.5 unmatched) as [fresh n]. cbn [fst] in *.
    apply Forall_app. split.
    + eapply Forall_impl; [exact Hst2|]. auto.
    + eapply Forall_impl; [exact Hm|]. intros row Hr Hnew. congruence.
Qed.

Lemma ref_rbush_sound : rbush_sound Ref.libs.
Proof.
  intros nodes box n Hn. cbn in Hn. unfold Ref.search in Hn.
  now apply list_elem_of_filter in Hn as [_ Hn].
Qed.

(** The gates on the example of the balloon drifting east. *)
Lemma matched_rows_pass_gates_east :
  Forall (fun row => is_new row = false ->
                     matched_row Ref.libs ∅ [curr_east; curr_far] [prev_east] row)
         (trackBalloons Ref.libs (tracker_at 2) empty_store [curr_east; curr_far]
                        [prev_east] ∅).1.1.
Proof.
  apply matched_rows_pass_gates.
  - exact ref_rbush_sound.
  - repeat constructor. intros H. inversion H.
Defined.

(** ** The snapshot table under a repeated trigger *)

Lemma runHourlyUpdate_service L upstream forceRun now now_cleanup w :
  autoUpdateEnabled (world_service (runHourlyUpdate L upstream forceRun now now_cleanup w))
  = autoUpdateEnabled (world_service w).
Proof.
  unfold runHourlyUpdate. destruct (_ && _); [reflexivity|]. cbn [world_service].
  destruct (fetched (upstream 0)) as [|raw rest].
  - unfold fallbackFullFetch. destruct (fetchAll24Hours _ _ _) as [allData db1].
    destruct allData; [reflexivity|].
    destruct (processHistoricalData _ _ _ _ _) as [[trackedData t] db3]. reflexivity.
  - destruct (trackBalloons _ _ _ _ _ _) as [[trackedNewHour t] db2]. reflexivity.
Qed.

(** The snapshot table after a tick that fetched the current hour. *)
Lemma tick_snapshots L upstream forceRun now now_cleanup w ts :
  autoUpdateEnabled (world_service w) = true \/ forceRun = true ->
  fetched (upstream 0) <> [] ->
  balloon_snapshots (world_db (runHourlyUpdate L upstream forceRun now now_cleanup w)) !! ts
  = if decide (ts < now_cleanup - DAY_MS) then None
    else if decide (ts = getCurrentTimestamp now) then Some (fetched (upstream 0))
    else balloon_snapshots (world_db w) !! ts.
Proof.
  intros Hrun Hne.
  rewrite (runHourlyUpdate_incremental L upstream forceRun now now_cleanup w Hrun Hne).
  cbv zeta.
  destruct (incremental_store L (world_tracker w) (world_db w) (getCurrentTimestamp now)
              (fetched (upstream 0)) Hne) as (Es & _ & _).
  cbv zeta in Es. cbn [cleanupStaleData fst balloon_snapshots].
  rewrite map_lookup_filter, Es. cbn.
  destruct (decide (ts < now_cleanup - DAY_MS)) as [Hlt|Hge].
  - destruct (<[_ := _]> _ !! ts); [|reflexivity]. cbn.
    rewrite option_guard_False by (intros H; apply H; exact Hlt). reflexivity.
  - destruct (decide (ts = getCurrentTimestamp now)) as [-> | Hdiff].
    + rewrite lookup_insert_eq. cbn. now rewrite option_guard_True.
    + rewrite lookup_insert_ne by congruence.
      destruct (balloon_snapshots (world_db w) !! ts); [|reflexivity]. cbn.
      now rewrite option_guard_True.
Qed.

(** The part of idempotent ingest that holds: when the trigger runs again in
    the same hour on the same feed, and no snapshot has expired by the second
    cleanup, the snapshot table is what it was after the first run. *)
Theorem repeated_trigger_keeps_snapshots (L : Libs) (upstream : Upstream)
    (now1 cleanup1 now2 cleanup2 : Z) (w : World) :
  autoUpdateEnabled (world_service w) = true ->
  fetched (upstream 0) <> [] ->
  getCurrentTimestamp now2 = getCurrentTimestamp now1 ->
  cleanup1 - DAY_MS <= getCurrentTimestamp now1 ->
  let w1 := triggerImmediateUpdate L upstream now1 cleanup1 w in
  (forall ts rows, balloon_snapshots (world_db w1) !! ts = Some rows -> cleanup2 - DAY_MS <= ts) ->
  balloon_snapshots (world_db (triggerImmediateUpdate L upstream now2 cleanup2 w1))
  = balloon_snapshots (world_db w1).
Proof.
  intros Hauto Hne Hhour Hkept w1 Hfresh. apply map_eq. intros ts.
  unfold triggerImmediateUpdate in *.
  assert (Hauto1 : autoUpdateEnabled (world_service w1) = true)
    by (subst w1; now rewrite runHourlyUpdate_service).
  pose proof (tick_snapshots L upstream false now2 cleanup2 w1 ts (or_introl Hauto1) Hne) as E2.
  pose proof (tick_snapshots L upstream false now1 cleanup1 w ts (or_introl Hauto) Hne) as E1.
  fold w1 in E1. unfold Timestamp in *. rewrite E2.
  destruct (decide (ts < cleanup2 - DAY_MS)) as [Hlt|Hge].
  - destruct (balloon_snapshots (world_db w1) !! ts) as [rows|] eqn:E; [|symmetry; exact E].
    apply Hfresh in E. lia.
  - destruct (decide (ts = getCurrentTimestamp now2)) as [Heq | Hdiff]; [|reflexivity].
    symmetry. etransitivity; [exact E1|]. destruct (decide (_ < _)); [lia|].
    destruct (decide (_ = _)); [reflexivity|congruence].
Qed.

(** The repeated trigger of 23:05 and 23:06 on the fresh process. *)
Lemma repeated_trigger_keeps_snapshots_fresh :
  balloon_snapshots (world_db (triggerImmediateUpdate Ref.libs one_observation six_past six_past
                                 (triggerImmediateUpdate Ref.libs one_observation
                                    five_past five_past fresh_world)))
  = balloon_snapshots (world_db (triggerImmediateUpdate Ref.libs one_observation
                                   five_past five_past fresh_world)).
Proof.
  apply (repeated_trigger_keeps_snapshots Ref.libs one_observation five_past five_past
           six_past six_past fresh_world).
  - reflexivity.
  - vm_compute. discriminate.
  - vm_compute. reflexivity.
  - vm_compute. discriminate.
  - intros ts rows H. apply elem_of_map_to_list in H. vm_compute in H.
    apply list_elem_of_singleton in H. injection H as -> ->. vm_compute. discriminate.
Defined.

(** ** The wind requests stay within the provider's limits *)

Lemma altitudeToPressure_level M altitude : altitudeToPressure M altitude ∈ PRESSURE_LEVELS.
Proof.
  unfold altitudeToPressure.
  set (pressure := (1013.25 * Math_exp M (- altitude / 7.4))%float). clearbody pressure.
  unfold PRESSURE_LEVELS at 1.
  apply (foldl_invariant_in (fun p => p ∈ PRESSURE_LEVELS)).
  - intros a x Hx Ha. destruct (_ <? _)%float; [|exact Ha].
    unfold PRESSURE_LEVELS. right. exact Hx.
  - unfold PRESSURE_LEVELS. left.
Qed.

Lemma days_ceil_pos ms : 0 <= days_ceil ms.
Proof.
  unfold days_ceil, DAY_MS, HOUR_MS. pose proof (Z.abs_nonneg ms).
  Z.to_euclidean_division_equations; lia.
Qed.

Lemma time_frame_bounds now lo hi :
  0 <= (time_frame now lo hi).1 <= 3 /\ 1 <= (time_frame now lo hi).2 <= 3.
Proof.
  unfold time_frame. destruct lo as [oldest|]; [|simpl; lia].
  set (newest := default oldest hi). clearbody newest.
  pose proof (days_ceil_pos (oldest - now)). pose proof (days_ceil_pos (newest - now)).
  repeat match goal with |- context [if ?c then _ else _] => destruct c end; simpl; lia.
Qed.

Lemma assoc_set_elem {V} (k : Z) (v : V) (m : list (Z * V)) (x : Z * V) :
  x ∈ assoc_set k v m -> x = (k, v) \/ x ∈ m.
Proof.
  induction m as [|[k' v'] m IH]; simpl.
  - intros Hx. apply list_elem_of_singleton in Hx. auto.
  - case_bool_decide.
    + intros Hx. apply elem_of_cons in Hx as [->|Hx]; [auto|]. right. right. exact Hx.
    + intros Hx. apply elem_of_cons in Hx as [->|Hx]; [right; left|].
      destruct (IH Hx) as [->|Hm]; [auto|]. right. right. exact Hm.
Qed.

Lemma group_location_levels M (locations : list WindLocation) :
  forall g, g ∈ foldl (group_location M) [] locations -> g.1 ∈ PRESSURE_LEVELS.
Proof.
  apply (foldl_invariant (fun gs => forall g, g ∈ gs -> g.1 ∈ PRESSURE_LEVELS)).
  - intros gs loc Hgs g Hg. unfold group_location in Hg.
    apply assoc_set_elem in Hg as [->|Hg]; [|auto].
    simpl. apply altitudeToPressure_level.
  - intros g Hg. inversion Hg.
Qed.

Lemma wind_batches_requests M api pressure past_days forecast_days fuel locs acc :
  pressure ∈ PRESSURE_LEVELS -> 0 <= past_days <= 3 -> 1 <= forecast_days <= 3 ->
  requests_in_bounds acc.2 ->
  requests_in_bounds (wind_batches M api pressure past_days forecast_days fuel locs acc).2.
Proof.
  intros Hp Hpast Hfore. revert locs acc.
  induction fuel as [|fuel IH]; intros locs acc Hacc; [destruct locs; exact Hacc|].
  destruct locs as [|loc locs]; [exact Hacc|].
  cbn [wind_batches]. destruct acc as [windDataMap events].
  apply IH. intros req Hreq.
  assert (Hnew : request_in_bounds
            (mkWindRequest
               (map (fun l => Fixed2 (toFixed 2 (loc_latitude l))) (take BATCH_SIZE (loc :: locs)))
               (map (fun l => Fixed2 (toFixed 2 (loc_longitude l))) (take BATCH_SIZE (loc :: locs)))
               pressure forecast_days past_days)).
  { unfold request_in_bounds; cbn [req_latitude req_longitude req_pressure req_past_days
                                   req_forecast_days].
    rewrite !length_map, length_take. unfold BATCH_SIZE. cbn [length]. repeat split; auto; lia. }
  destruct (api _).
  - simpl in Hreq. apply elem_of_app in Hreq as [Hreq|Hreq]; [auto|].
    apply elem_of_cons in Hreq as [Hreq|Hreq]; [injection Hreq as ->; exact Hnew|].
    destruct (bool_decide _); [|inversion Hreq].
    apply list_elem_of_singleton in Hreq. discriminate.
  - destruct (bind_results _ _ _ _ _ _) as [m completed]. simpl in Hreq.
    apply elem_of_app in Hreq as [Hreq|Hreq]; [auto|].
    apply elem_of_cons in Hreq as [Hreq|Hreq]; [injection Hreq as ->; exact Hnew|].
    destruct (_ && _); [|inversion Hreq].
    apply list_elem_of_singleton in Hreq. discriminate.
Qed.

(** X3: every request to the wind provider, from the batch path and from the
    single-location path alike, stays within the provider's limits: at least
    one and at most 300 coordinates, as many longitudes as latitudes, a
    pressure of the level table, between 0 and 3 past days and between 1 and
    3 forecast days. *)
Theorem wind_requests_in_bounds (M : MathLib) (api : WindApi) (now : Z) (db : Store) :
  (forall locations,
     requests_in_bounds (getWindAtMultipleLocations M api now db locations).2) /\
  (forall lucky lat lon altitude ts,
     requests_in_bounds (getWindAtLocation M api now lucky db lat lon altitude ts).2).
Proof.
  split.
  - intros locations. unfold getWindAtMultipleLocations.
    pose proof (group_location_levels M locations) as Hlevels.
    set (groups := foldl (group_location M) [] locations) in *. clearbody groups.
    match goal with |- context [foldl ?f ?a groups] =>
      assert (Hinv : requests_in_bounds (foldl f a groups).2) end.
    { apply (foldl_invariant_in (fun acc => requests_in_bounds acc.2)).
      - intros acc g Hg Hacc.
        pose proof (time_frame_bounds now (g_minTimestamp g.2) (g_maxTimestamp g.2)) as Hb.
        destruct (time_frame _ _ _) as [past_days forecast_days]. simpl in Hb.
        apply wind_batches_requests; [apply Hlevels; exact Hg|lia|lia|exact Hacc].
      - intros req Hreq. inversion Hreq. }
    destruct (foldl _ _ groups) as [windDataMap events]. exact Hinv.
  - intros lucky lat lon altitude ts. unfold getWindAtLocation.
    set (target := getCurrentTimestamp (default now ts)). clearbody target.
    set (isNow := Z.abs (now - target) <? 60 * 60 * 1000). clearbody isNow.
    set (lookup := if isNow then [EvCacheGet (round1 lat) (round1 lon) (round1 altitude)]
                   else []).
    set (req := mkWindRequest _ _ _ _ _).
    assert (Hreq : request_in_bounds req).
    { unfold request_in_bounds, req, BATCH_SIZE; simpl.
      pose proof (days_ceil_pos (target - now)).
      split; [lia|]. split; [reflexivity|]. split; [apply altitudeToPressure_level|].
      repeat match goal with |- context [if ?c then _ else _] => destruct c end; lia. }
    clearbody req.
    assert (Hsent : requests_in_bounds
              (lookup ++ (if lucky then [EvCacheClean] else []) ++ [EvHttpGet req])).
    { intros r Hr. apply elem_of_app in Hr as [Hr|Hr].
      - unfold lookup in Hr. destruct isNow; [|inversion Hr].
        apply list_elem_of_singleton in Hr. discriminate.
      - apply elem_of_app in Hr as [Hr|Hr].
        + destruct lucky; [|inversion Hr]. apply list_elem_of_singleton in Hr. discriminate.
        + apply list_elem_of_singleton in Hr. injection Hr as ->. exact Hreq. }
    assert (Hlookup : requests_in_bounds lookup).
    { intros r Hr. unfold lookup in Hr. destruct isNow; [|inversion Hr].
      apply list_elem_of_singleton in Hr. discriminate. }
    assert (Hset : forall v, requests_in_bounds
              ((lookup ++ (if lucky then [EvCacheClean] else []) ++ [EvHttpGet req])
               ++ [EvCacheSet v])).
    { intros v r Hr. apply elem_of_app in Hr as [Hr|Hr]; [auto|].
      apply list_elem_of_singleton in Hr. discriminate. }
    clearbody lookup.
    repeat match goal with
           | |- requests_in_bounds (match ?x with _ => _ end).2 => destruct x
           | |- requests_in_bounds (if ?x then _ else _).2 => destruct x
           end; cbn [snd]; first [exact Hsent | exact Hlookup | apply Hset].
Qed.

(** ** The hour a wind vector is taken from *)

Lemma closest_hour_snoc times t target :
  closest_hour (times ++ [t]) target
  = let diff := Z.abs (t - target) in
    match closest_hour times target with
    | Some (j, minDiff) => if diff <? minDiff then Some (length times, diff)
                           else Some (j, minDiff)
    | None => Some (length times, diff)
    end.
Proof.
  unfold closest_hour. rewrite imap_app, foldl_app. cbn [imap foldl fst snd].
  rewrite Nat.add_0_r.
  destruct (foldl _ None _) as [[j minDiff]|]; reflexivity.
Qed.

Lemma closest_hour_spec times target :
  match closest_hour times target with
  | None => times = []
  | Some (j, d) =>
      exists t, times !! j = Some t /\ d = Z.abs (t - target) /\
        (forall k t', times !! k = Some t' -> d <= Z.abs (t' - target)) /\
        (forall k t', (k < j)%nat -> times !! k = Some t' -> d < Z.abs (t' - target))
  end.
Proof.
  induction times as [|t times IH] using rev_ind; [reflexivity|].
  rewrite closest_hour_snoc. cbn zeta.
  destruct (closest_hour times target) as [[j d]|].
  - destruct IH as (t0 & Hj & Hd & Hmin & Hfirst).
    destruct (Z.ltb_spec (Z.abs (t - target)) d) as [Hlt|Hge].
    + exists t. split; [apply list_lookup_middle; reflexivity|]. split; [reflexivity|].
      split.
      * intros k t' Hk. apply lookup_app_Some in Hk as [Hk|[_ Hk]].
        -- specialize (Hmin _ _ Hk). lia.
        -- apply list_lookup_singleton_Some in Hk as [_ <-]. lia.
      * intros k t' Hlt' Hk. rewrite lookup_app_l in Hk by exact Hlt'.
        specialize (Hmin _ _ Hk). lia.
    + exists t0. split; [apply lookup_app_l_Some; exact Hj|]. split; [exact Hd|].
      split.
      * intros k t' Hk. apply lookup_app_Some in Hk as [Hk|[_ Hk]].
        -- exact (Hmin _ _ Hk).
        -- apply list_lookup_singleton_Some in Hk as [_ <-]. lia.
      * intros k t' Hlt' Hk. apply lookup_app_Some in Hk as [Hk|[Hlen Hk]].
        -- exact (Hfirst _ _ Hlt' Hk).
        -- apply lookup_lt_Some in Hj. lia.
  - subst times. exists t. split; [reflexivity|]. split; [reflexivity|]. split.
    + intros [|k] t' Hk; [injection Hk as <-; lia|destruct k; discriminate].
    + intros k t' Hlt'. simpl in Hlt'. lia.
Qed.

Lemma bind_result_within M pressure batch m index data m' :
  within_90_minutes m ->
  bind_result M pressure batch m index data = Some m' ->
  within_90_minutes m'.
Proof.
  intros Hm. unfold bind_result.
  destruct data as [hourly|]; [|intros [= <-]; exact Hm].
  destruct (batch !! index) as [loc|]; [|discriminate].
  set (choice := match loc_timestamp loc with Some _ => _ | None => _ end).
  destruct choice as [hourIndex|] eqn:Hchoice; [|intros [= <-]; exact Hm].
  destruct (h_time hourly !! hourIndex) as [ts|] eqn:Hts; [|discriminate].
  destruct (mjoin _) as [speed|]; [|intros [= <-]; exact Hm].
  destruct (mjoin _) as [direction|]; [|intros [= <-]; exact Hm].
  intros [= <-]. intros lat lon alt t v Hv.
  apply lookup_insert_Some in Hv as [[Hkey <-]|[_ Hv]]; [|exact (Hm _ _ _ _ _ Hv)].
  unfold wind_key in Hkey. injection Hkey as _ _ _ Hloc.
  cbn [w_timestamp wind_vector]. unfold choice in Hchoice. rewrite Hloc in Hchoice.
  pose proof (closest_hour_spec (h_time hourly) (getCurrentTimestamp t)) as Hspec.
  destruct (closest_hour _ _) as [[j d]|]; [|discriminate].
  destruct (Z.ltb_spec (90 * 60 * 1000) d) as [|Hle]; [discriminate|].
  injection Hchoice as ->. destruct Hspec as (t0 & Hj & Hd & _).
  unfold Timestamp in *. rewrite Hts in Hj. injection Hj as <-.
  unfold NINETY_MINUTES. lia.
Qed.

Lemma bind_results_within M pressure batch results : forall m index,
  within_90_minutes m ->
  within_90_minutes (bind_results M pressure batch m index results).1.
Proof.
  induction results as [|data rest IH]; intros m index Hm; [exact Hm|].
  cbn [bind_results].
  destruct (bind_result M pressure batch m index data) as [m'|] eqn:E; [|exact Hm].
  apply IH. exact (bind_result_within _ _ _ _ _ _ _ Hm E).
Qed.

Lemma wind_batches_within M api pressure past_days forecast_days fuel : forall locs acc,
  within_90_minutes acc.1 ->
  within_90_minutes (wind_batches M api pressure past_days forecast_days fuel locs acc).1.
Proof.
  induction fuel as [|fuel IH]; intros locs acc Hacc; [destruct locs; exact Hacc|].
  destruct locs as [|loc locs]; [exact Hacc|].
  cbn [wind_batches]. destruct acc as [windDataMap events].
  apply IH. destruct (api _); [exact Hacc|].
  pose proof (bind_results_within M pressure (take BATCH_SIZE (loc :: locs)) results
                windDataMap 0%nat Hacc) as Hb.
  destruct (bind_results _ _ _ _ _ _) as [m completed]. exact Hb.
Qed.

(** X4: a wind vector is never taken from an hour more than 90 minutes away
    from the hour asked for. In the map of the batch path this holds of every
    entry bound to a timestamped location; on the single-location path it
    holds of whatever is returned, from the cache or from the provider, for
    the target hour (the hour of the timestamp, or of the clock without
    one). *)
Theorem wind_vector_within_90_minutes (M : MathLib) (api : WindApi) (now : Z) (db : Store) :
  (forall locations,
     within_90_minutes (getWindAtMultipleLocations M api now db locations).1.1) /\
  (forall lucky lat lon altitude ts v,
     (getWindAtLocation M api now lucky db lat lon altitude ts).1.1 = Some v ->
     Z.abs (w_timestamp v - getCurrentTimestamp (default now ts)) <= NINETY_MINUTES).
Proof.
  split.
  - intros locations. unfold getWindAtMultipleLocations.
    set (groups := foldl (group_location M) [] locations). clearbody groups.
    match goal with |- context [foldl ?f ?a groups] =>
      assert (Hinv : within_90_minutes (foldl f a groups).1) end.
    { apply (foldl_invariant (fun acc => within_90_minutes acc.1)).
      - intros acc g Hacc. destruct (time_frame _ _ _) as [past_days forecast_days].
        apply wind_batches_within. exact Hacc.
      - intros lat lon alt t v Hv. cbn [fst] in Hv. rewrite lookup_empty in Hv. discriminate. }
    destruct (foldl _ _ groups) as [windDataMap events]. exact Hinv.
  - intros lucky lat lon altitude ts v. unfold getWindAtLocation.
    set (target := getCurrentTimestamp (default now ts)). clearbody target.
    set (isNow := Z.abs (now - target) <? 60 * 60 * 1000). clearbody isNow.
    set (hit := if isNow then _ else None).
    destruct hit as [cached|] eqn:Hhit.
    + intros [= <-]. unfold hit in Hhit. destruct isNow; [|discriminate].
      destruct (getWindCache_latest db lat lon altitude) as [[cachedAt c]|]; [|discriminate].
      destruct (now - cachedAt <? CACHE_TTL_MS); [|discriminate]. cbn [andb] in Hhit.
      destruct (Z.ltb_spec (Z.abs (w_timestamp c - target)) (60 * 60 * 1000));
        [|discriminate].
      injection Hhit as <-. unfold NINETY_MINUTES. lia.
    + clear hit Hhit. destruct (api _) as [|[|[hourly|] results]]; try discriminate.
      pose proof (closest_hour_spec (h_time hourly) target) as Hspec.
      destruct (closest_hour _ _) as [[j d]|]; [|discriminate].
      destruct (Z.ltb_spec (90 * 60 * 1000) d) as [|Hle]; [discriminate|].
      destruct Hspec as (t0 & Hj & Hd & _). unfold Timestamp in *. rewrite Hj.
      destruct (mjoin _) as [speed|]; [|discriminate].
      destruct (mjoin _) as [direction|]; [|discriminate].
      assert (Hv : Z.abs (w_timestamp (wind_vector M lat lon altitude
                            (altitudeToPressure M altitude) speed direction t0) - target)
                   <= NINETY_MINUTES).
      { cbn [w_timestamp wind_vector]. unfold NINETY_MINUTES. lia. }
      destruct isNow; intros [= <-]; exact Hv.
Qed.

(** ** Every location is asked for once *)

Lemma assoc_get_cons {V} (k k' : Z) (v' : V) (m : list (Z * V)) :
  assoc_get k ((k', v') :: m) = if bool_decide (k' = k) then Some v' else assoc_get k m.
Proof.
  unfold assoc_get. cbn [list_find]. cbn [fst].
  destruct (decide (k' = k)) as [E|E].
  - rewrite bool_decide_eq_true_2 by exact E. reflexivity.
  - rewrite bool_decide_eq_false_2 by exact E.
    destruct (list_find _ m) as [[i kv]|]; reflexivity.
Qed.

Lemma requested_coordinates_app e1 e2 :
  requested_coordinates (e1 ++ e2) = requested_coordinates e1 ++ requested_coordinates e2.
Proof. unfold requested_coordinates. rewrite map_app, concat_app. reflexivity. Qed.

Lemma zip_batch_coordinates (batch : list WindLocation) :
  zip (map (fun loc => Fixed2 (toFixed 2 (loc_latitude loc))) batch)
      (map (fun loc => Fixed2 (toFixed 2 (loc_longitude loc))) batch)
  = map batch_coordinates batch.
Proof. induction batch as [|loc batch IH]; [reflexivity|]. simpl. rewrite IH. reflexivity. Qed.

Lemma wind_batches_coordinates M api pressure past_days forecast_days fuel : forall locs acc,
  (length locs <= fuel)%nat ->
  requested_coordinates (wind_batches M api pressure past_days forecast_days fuel locs acc).2
  = requested_coordinates acc.2 ++ map batch_coordinates locs.
Proof.
  induction fuel as [|fuel IH]; intros locs acc Hfuel.
  - destruct locs; [|simpl in Hfuel; lia]. simpl. rewrite app_nil_r. reflexivity.
  - destruct locs as [|loc locs]; [simpl; rewrite app_nil_r; reflexivity|].
    cbn [wind_batches]. destruct acc as [windDataMap events].
    rewrite IH.
    2: { rewrite length_drop. simpl in *. unfold BATCH_SIZE. lia. }
    cbn [snd]. set (all := loc :: locs) in *.
    transitivity (requested_coordinates events ++
                  map batch_coordinates (take BATCH_SIZE all) ++
                  map batch_coordinates (drop BATCH_SIZE all)).
    2: { rewrite <- map_app, take_drop. reflexivity. }
    rewrite app_assoc. f_equal.
    destruct (api _).
    + cbn [snd]. rewrite !requested_coordinates_app. f_equal.
      unfold requested_coordinates at 1. cbn [map concat req_latitude req_longitude].
      rewrite zip_batch_coordinates.
      destruct (bool_decide _); simpl; rewrite ?app_nil_r; reflexivity.
    + destruct (bind_results _ _ _ _ _ _) as [m completed].
      cbn [snd]. rewrite !requested_coordinates_app. f_equal.
      unfold requested_coordinates at 1. cbn [map concat req_latitude req_longitude].
      rewrite zip_batch_coordinates.
      destruct (_ && _); simpl; rewrite ?app_nil_r; reflexivity.
Qed.

Lemma assoc_set_grouped pressure (f : LocationGroup -> LocationGroup)
    (fresh : LocationGroup) (loc : WindLocation) (groups : list (Z * LocationGroup)) :
  g_locations fresh = [] ->
  (forall g, g_locations (f g) = g_locations g ++ [loc]) ->
  grouped_locations (assoc_set pressure (f (default fresh (assoc_get pressure groups))) groups)
  ≡ₚ grouped_locations groups ++ [loc].
Proof.
  intros Hfresh Hf. induction groups as [|[k' v'] groups IH].
  - unfold grouped_locations. simpl. rewrite Hf, Hfresh. reflexivity.
  - rewrite assoc_get_cons. cbn [assoc_set]. case_bool_decide.
    + unfold grouped_locations. cbn [map concat snd default]. rewrite Hf.
      rewrite <- !app_assoc. apply Permutation_app_head. apply Permutation_app_comm.
    + unfold grouped_locations in *. cbn [map concat snd]. rewrite IH.
      rewrite app_assoc. reflexivity.
Qed.

Lemma group_location_grouped M groups loc :
  grouped_locations (group_location M groups loc) ≡ₚ grouped_locations groups ++ [loc].
Proof.
  unfold group_location.
  set (pressure := altitudeToPressure M (loc_altitude_km loc)). clearbody pressure.
  set (rounded := getCurrentTimestamp <$> loc_timestamp loc). clearbody rounded.
  apply (assoc_set_grouped pressure
           (fun group =>
              mkGroup (g_locations group ++ [loc])
                (match rounded, g_minTimestamp group with
                 | Some r, Some m => if r <? m then Some r else Some m
                 | Some r, None => Some r
                 | None, m => m
                 end)
                (match rounded, g_maxTimestamp group with
                 | Some r, Some m => if m <? r then Some r else Some m
                 | Some r, None => Some r
                 | None, m => m
                 end))); reflexivity.
Qed.

Lemma foldl_group_location M locations : forall groups,
  grouped_locations (foldl (group_location M) groups locations)
  ≡ₚ grouped_locations groups ++ locations.
Proof.
  induction locations as [|loc locations IH]; intros groups.
  - simpl. rewrite app_nil_r. reflexivity.
  - cbn [foldl]. rewrite IH, group_location_grouped, <- app_assoc. reflexivity.
Qed.

(** X5: the batch path asks the provider for every location exactly once:
    the coordinate pairs of its requests, taken together, are the locations'
    coordinates (to two decimals), rearranged by pressure level. With no
    location there is no request. *)
Theorem every_location_requested_once (M : MathLib) (api : WindApi) (now : Z) (db : Store)
    (locations : list WindLocation) :
  requested_coordinates (getWindAtMultipleLocations M api now db locations).2
  ≡ₚ map batch_coordinates locations.
Proof.
  unfold getWindAtMultipleLocations.
  pose proof (foldl_group_location M locations []) as Hgroups.
  set (groups := foldl (group_location M) [] locations) in *. clearbody groups.
  match goal with |- context [foldl ?f (∅, []) groups] =>
    assert (Hinv : forall acc,
              requested_coordinates (foldl f acc groups).2
              = requested_coordinates acc.2 ++ map batch_coordinates (grouped_locations groups))
  end.
  { clear Hgroups. induction groups as [|g groups IH]; intros acc.
    - simpl. rewrite app_nil_r. reflexivity.
    - cbn [foldl]. rewrite IH. destruct (time_frame _ _ _) as [past_days forecast_days].
      rewrite wind_batches_coordinates by reflexivity.
      unfold grouped_locations. cbn [map concat]. rewrite map_app, app_assoc.
      reflexivity. }
  specialize (Hinv (∅, [])).
  destruct (foldl _ _ groups) as [windDataMap events]. cbn [snd] in *. rewrite Hinv.
  unfold requested_coordinates. cbn [map concat app]. rewrite Hgroups. reflexivity.
Qed.

(** ** Health by the clock *)

(** X6: the health status in terms of the clock. With a last update, the
    status is healthy up to (not including) 66 minutes after it, degraded
    from there up to 91 minutes, and unhealthy from 91 minutes on or when the
    clock is behind the last update; without one it is unhealthy. *)
Theorem health_by_the_clock (lastUpdate now : Z) :
  let status := health_status (getDataAgeMinutes (Some lastUpdate) now) in
  (status = healthy <-> 0 <= now - lastUpdate < 66 * MINUTE_MS) /\
  (status = degraded <-> 66 * MINUTE_MS <= now - lastUpdate < 91 * MINUTE_MS) /\
  (status = unhealthy <-> now - lastUpdate < 0 \/ 91 * MINUTE_MS <= now - lastUpdate) /\
  health_status (getDataAgeMinutes None now) = unhealthy.
Proof.
  cbn zeta. unfold health_status, getDataAgeMinutes, MINUTE_MS.
  set (age := (now - lastUpdate) / (1000 * 60)).
  assert (Hage : 60000 * age <= now - lastUpdate < 60000 * age + 60000).
  { unfold age. Z.to_euclidean_division_equations; lia. }
  clearbody age.
  destruct (Z.ltb_spec age 0); [|destruct (Z.ltb_spec 90 age); [|destruct (Z.ltb_spec 65 age)]].
  all: repeat split; try discriminate; try lia; try reflexivity.
  all: try (intros _; lia).
  all: try (intros [?|?]; lia).
Qed.

(** ** The cleanup *)

Lemma filter_size_le `{Countable K} {A} (P : K * A -> Prop) `{!forall x, Decision (P x)}
    (m : gmap K A) :
  (size (filter P m) <= size m)%nat.
Proof. apply map_subseteq_size. apply map_filter_subseteq. Qed.

(** X7: what the cleanup does. A row of either table survives exactly when
    its timestamp is not before the cutoff, 24 hours before the clock; the
    wind cache is left alone; the two reported numbers are the numbers of
    rows gone; and two cleanups in a row amount to one at the later of the
    two clocks, so repeating one changes nothing. *)
Theorem cleanupStaleData_spec (db : Store) (now : Z) :
  let r := cleanupStaleData db now in
  (forall key, tracked_balloons r.1 !! key
               = if decide (key.2 < now - DAY_MS) then None else tracked_balloons db !! key) /\
  (forall ts, balloon_snapshots r.1 !! ts
              = if decide (ts < now - DAY_MS) then None else balloon_snapshots db !! ts) /\
  wind_cache r.1 = wind_cache db /\
  (size (tracked_balloons r.1) + r.2.1 = size (tracked_balloons db))%nat /\
  (size (balloon_snapshots r.1) + r.2.2 = size (balloon_snapshots db))%nat /\
  (forall later, (cleanupStaleData r.1 later).1 = (cleanupStaleData db (Z.max now later)).1).
Proof.
  cbn zeta. unfold cleanupStaleData. cbn [fst snd tracked_balloons balloon_snapshots wind_cache].
  assert (Ht : forall cutoff key,
            filter (fun kv : string * Timestamp * TrackedRow => ¬ (kv.1.2 < cutoff))
                   (tracked_balloons db) !! key
            = if decide (key.2 < cutoff) then None else tracked_balloons db !! key).
  { intros cutoff key. rewrite map_lookup_filter.
    destruct (tracked_balloons db !! key) as [row|]; cbn.
    - destruct (decide (key.2 < cutoff)).
      + rewrite option_guard_False; [reflexivity|]. cbn. tauto.
      + rewrite option_guard_True; [reflexivity|]. cbn. exact n.
    - destruct (decide _); reflexivity. }
  assert (Hs : forall cutoff ts,
            filter (fun kv : Timestamp * list RawBalloonData => ¬ (kv.1 < cutoff))
                   (balloon_snapshots db) !! ts
            = if decide (ts < cutoff) then None else balloon_snapshots db !! ts).
  { intros cutoff ts. rewrite map_lookup_filter.
    destruct (balloon_snapshots db !! ts) as [rows|]; cbn.
    - destruct (decide (ts < cutoff)).
      + rewrite option_guard_False; [reflexivity|]. cbn. tauto.
      + rewrite option_guard_True; [reflexivity|]. cbn. exact n.
    - destruct (decide _); reflexivity. }
  split; [apply Ht|]. split; [apply Hs|]. split; [reflexivity|].
  split.
  { match goal with |- (size ?a + (size ?b - size ?a) = size ?b)%nat =>
      assert (size a <= size b)%nat by apply filter_size_le; lia end. }
  split.
  { match goal with |- (size ?a + (size ?b - size ?a) = size ?b)%nat =>
      assert (size a <= size b)%nat by apply filter_size_le; lia end. }
  intros later. f_equal.
  - apply map_eq. intros ts. apply option_eq. intros rows.
    rewrite !map_lookup_filter_Some. cbn [fst snd]. split.
    + intros [[Hrow ?] ?]. split; [exact Hrow|lia].
    + intros [Hrow ?]. split; [split; [exact Hrow|lia]|lia].
  - apply map_eq. intros key. apply option_eq. intros row.
    rewrite !map_lookup_filter_Some. cbn [fst snd]. split.
    + intros [[Hrow ?] ?]. split; [exact Hrow|lia].
    + intros [Hrow ?]. split; [split; [exact Hrow|lia]|lia].
Qed.

(** ** Writing tracked rows and reading an hour back *)

Lemma getTrackedBalloonsAtTimestamp_elem db ts b :
  b ∈ getTrackedBalloonsAtTimestamp db ts
  <-> exists key row, tracked_balloons db !! key = Some row /\ key.2 = ts /\
                      b = mapRowToBalloon key row.
Proof.
  unfold getTrackedBalloonsAtTimestamp. rewrite list_elem_of_fmap. split.
  - intros ([key row] & -> & Hin). apply list_elem_of_filter in Hin as [Hts Hin].
    apply bool_decide_unpack in Hts. apply elem_of_map_to_list in Hin.
    exists key, row. auto.
  - intros (key & row & Hrow & Hts & ->). exists (key, row). split; [reflexivity|].
    apply list_elem_of_filter. split; [apply bool_decide_pack; exact Hts|].
    apply elem_of_map_to_list. exact Hrow.
Qed.

Lemma saveTrackedBalloons_last db bs b :
  last_written bs b ->
  tracked_balloons (saveTrackedBalloons db bs) !! (id b, timestamp b) = Some (row_of_balloon b).
Proof.
  intros (before & after & -> & Hafter).
  unfold saveTrackedBalloons. cbn [tracked_balloons set_tracked].
  rewrite foldl_app. cbn [foldl].
  set (m := <[(id b, timestamp b) := row_of_balloon b]> _).
  assert (Hm : m !! (id b, timestamp b) = Some (row_of_balloon b))
    by (unfold m; apply lookup_insert_eq).
  clearbody m. revert m Hm. induction after as [|b' after IH]; intros m Hm; [exact Hm|].
  cbn [foldl]. apply IH.
  - intros b'' Hb''. apply Hafter. right. exact Hb''.
  - rewrite lookup_insert_ne; [exact Hm|]. apply Hafter. left.
Qed.

Lemma getTrackedBalloonsAtTimestamp_ids db ts :
  NoDup (map id (getTrackedBalloonsAtTimestamp db ts)).
Proof.
  unfold getTrackedBalloonsAtTimestamp. rewrite map_map. cbn [mapRowToBalloon id].
  pose proof (NoDup_fst_map_to_list (tracked_balloons db)) as Hnd.
  set (rows := map_to_list (tracked_balloons db)) in *. clearbody rows.
  induction rows as [|[[i t] row] rows IH]; [constructor|].
  cbn [fmap list_fmap] in Hnd. apply NoDup_cons in Hnd as [Hnot Hnd].
  rewrite filter_cons. case_bool_decide as Hts; [|apply IH; exact Hnd].
  cbn [map fst]. apply NoDup_cons. split; [|apply IH; exact Hnd].
  intros Hin. apply Hnot. apply list_elem_of_fmap in Hin as ([[i' t'] row'] & E & Hin).
  apply list_elem_of_filter in Hin as [Hts' Hin]. apply bool_decide_unpack in Hts'.
  cbn in E, Hts, Hts'. apply list_elem_of_fmap. exists (i', t', row').
  split; [cbn; congruence|exact Hin].
Qed.

Lemma saveTrackedBalloons_cases db bs key row :
  tracked_balloons (saveTrackedBalloons db bs) !! key = Some row ->
  (exists b, last_written bs b /\ key = (id b, timestamp b) /\ row = row_of_balloon b) \/
  (tracked_balloons db !! key = Some row /\
   forall b, b ∈ bs -> (id b, timestamp b) <> key).
Proof.
  unfold saveTrackedBalloons. cbn [tracked_balloons set_tracked].
  induction bs as [|b bs IH] using rev_ind.
  - intros Hrow. right. split; [exact Hrow|]. intros b Hb. inversion Hb.
  - rewrite foldl_app. cbn [foldl]. intros Hrow.
    apply lookup_insert_Some in Hrow as [[<- <-]|[Hne Hrow]].
    + left. exists b. split; [|auto]. exists bs, []. split; [reflexivity|].
      intros b' Hb'. inversion Hb'.
    + destruct (IH Hrow) as [(b0 & (before & after & -> & Hafter) & -> & ->)|[Hdb Hnone]].
      * left. exists b0. split; [|auto]. exists before, (after ++ [b]).
        split; [rewrite <- app_assoc; reflexivity|].
        intros b' Hb'. apply elem_of_app in Hb' as [Hb'|Hb']; [auto|].
        apply list_elem_of_singleton in Hb' as ->. exact Hne.
      * right. split; [exact Hdb|]. intros b' Hb'.
        apply elem_of_app in Hb' as [Hb'|Hb']; [auto|].
        apply list_elem_of_singleton in Hb' as ->. exact Hne.
Qed.

(** X8: writing tracked rows and reading an hour back. The rows read for a
    timestamp all carry that timestamp and confidence 1, whatever was
    written, and no id twice; a balloon written for that timestamp comes
    back, in its last written version, with every field but the confidence
    as it was; and what comes back was either just written or was in the
    table under a key the write did not touch. *)
Theorem tracked_rows_round_trip (db : Store) (bs : list BalloonDataPoint) (ts : Timestamp) :
  let out := getTrackedBalloonsAtTimestamp (saveTrackedBalloons db bs) ts in
  (forall r, r ∈ out -> timestamp r = ts /\ confidence r = 1%float) /\
  NoDup (map id out) /\
  (forall b, last_written bs b -> timestamp b = ts -> with_full_confidence b ∈ out) /\
  (forall r, r ∈ out ->
     (exists b, last_written bs b /\ r = with_full_confidence b) \/
     (r ∈ getTrackedBalloonsAtTimestamp db ts /\
      forall b, b ∈ bs -> (id b, timestamp b) <> (id r, timestamp r))).
Proof.
  cbn zeta. split; [|split; [|split]].
  - intros r Hr. apply getTrackedBalloonsAtTimestamp_elem in Hr as (key & row & _ & Hts & ->).
    split; [exact Hts|reflexivity].
  - apply getTrackedBalloonsAtTimestamp_ids.
  - intros b Hlast Hts. apply getTrackedBalloonsAtTimestamp_elem.
    exists (id b, timestamp b), (row_of_balloon b).
    split; [apply saveTrackedBalloons_last; exact Hlast|]. split; [exact Hts|reflexivity].
  - intros r Hr. apply getTrackedBalloonsAtTimestamp_elem in Hr as (key & row & Hrow & Hts & ->).
    apply saveTrackedBalloons_cases in Hrow as [(b & Hlast & -> & ->)|[Hdb Hnone]].
    + left. exists b. split; [exact Hlast|reflexivity].
    + right. split; [|intros b Hb; destruct key; exact (Hnone b Hb)].
      apply getTrackedBalloonsAtTimestamp_elem. exists key, row. auto.
Qed.

(** ** The full fetch *)

Lemma fetchAll24Hours_fold upstream now db :
  fetchAll24Hours upstream now db = foldl (fetch_step upstream now) ([], db) (seq 0 MAX_HOURS).
Proof. reflexivity. Qed.

Lemma fetch_hours_spec upstream now db (n : nat) :
  let r := foldl (fetch_step upstream now) ([], db) (seq 0 n) in
  r.1 = concat (map (hour_points upstream now) (seq 0 n)) /\
  tracked_balloons r.2 = tracked_balloons db /\
  wind_cache r.2 = wind_cache db /\
  (forall h, (h < n)%nat -> fetched (upstream (Z.of_nat h)) <> [] ->
     balloon_snapshots r.2 !! getTimestampForOffset now (Z.of_nat h)
     = Some (fetched (upstream (Z.of_nat h)))) /\
  (forall ts,
     (forall h, (h < n)%nat -> fetched (upstream (Z.of_nat h)) <> [] ->
                ts <> getTimestampForOffset now (Z.of_nat h)) ->
     balloon_snapshots r.2 !! ts = balloon_snapshots db !! ts).
Proof.
  induction n as [|n IH].
  - cbn. repeat split; auto. intros h Hh. lia.
  - rewrite seq_S, foldl_app, map_app, concat_app. cbn [foldl map concat Nat.add].
    cbn zeta in IH. destruct IH as (Hdata & Htracked & Hwind & Hnew & Hold).
    destruct (foldl (fetch_step upstream now) ([], db) (seq 0 n)) as [allData db'].
    cbn [fst snd] in *. unfold fetch_step at 1 2 3 4 5.
    rewrite app_nil_r. fold (hour_points upstream now n).
    destruct (fetched (upstream (Z.of_nat n))) as [|raw rawData] eqn:Hraw.
    + cbn [fst snd]. unfold hour_points at 2. rewrite Hraw. cbn [to_points imap].
      rewrite app_nil_r. split; [exact Hdata|]. split; [exact Htracked|].
      split; [exact Hwind|]. split.
      * intros h Hh Hne. apply Hnew; [|exact Hne].
        destruct (decide (h = n)) as [->|]; [congruence|lia].
      * intros ts Hts. apply Hold. intros h Hh. apply Hts. lia.
    + cbn [fst snd]. split; [|split; [exact Htracked|split; [exact Hwind|split]]].
      * rewrite Hdata. unfold hour_points. rewrite Hraw. reflexivity.
      * intros h Hh Hne. cbn [balloon_snapshots saveBalloonSnapshot set_snapshots].
        destruct (decide (h = n)) as [->|Hhn].
        -- rewrite lookup_insert_eq. rewrite Hraw. reflexivity.
        -- rewrite lookup_insert_ne; [apply Hnew; [lia|exact Hne]|].
           unfold getTimestampForOffset, HOUR_MS. lia.
      * intros ts Hts. cbn [balloon_snapshots saveBalloonSnapshot set_snapshots].
        rewrite lookup_insert_ne.
        -- apply Hold. intros h Hh. apply Hts. lia.
        -- intros E. apply (Hts n); [lia|rewrite Hraw; discriminate|]. symmetry. exact E.
Qed.

(** X9: what the full fetch returns and leaves behind. The points are those
    of the hours 0 to 23 of the feed in that order, each hour's observations
    in the order received, numbered within the hour and stamped with the top
    of the hour that many hours back; every hour that gave observations has
    them as its snapshot; no other snapshot changes; the tracked rows and the
    wind cache are not touched. *)
Theorem fetchAll24Hours_spec (upstream : Upstream) (now : Z) (db : Store) :
  let r := fetchAll24Hours upstream now db in
  r.1 = concat (map (hour_points upstream now) (seq 0 24)) /\
  (forall h i b, hour_points upstream now h !! i = Some b ->
     exists raw, fetched (upstream (Z.of_nat h)) !! i = Some raw /\
       id b = temp_id (Z.of_nat h) i /\
       (latitude b, longitude b, altitude_km b) = (raw0 raw, raw1 raw, raw2 raw) /\
       timestamp b = getCurrentTimestamp now - Z.of_nat h * HOUR_MS /\
       hour_offset b = Z.of_nat h) /\
  tracked_balloons r.2 = tracked_balloons db /\
  wind_cache r.2 = wind_cache db /\
  (forall h, (h < 24)%nat -> fetched (upstream (Z.of_nat h)) <> [] ->
     balloon_snapshots r.2 !! getTimestampForOffset now (Z.of_nat h)
     = Some (fetched (upstream (Z.of_nat h)))) /\
  (forall ts,
     (forall h, (h < 24)%nat -> fetched (upstream (Z.of_nat h)) <> [] ->
                ts <> getTimestampForOffset now (Z.of_nat h)) ->
     balloon_snapshots r.2 !! ts = balloon_snapshots db !! ts).
Proof.
  cbn zeta. rewrite fetchAll24Hours_fold.
  destruct (fetch_hours_spec upstream now db MAX_HOURS) as (H1 & H2 & H3 & H4 & H5).
  split; [exact H1|]. split; [|auto].
  intros h i b Hb. unfold hour_points, to_points in Hb.
  rewrite list_lookup_imap in Hb.
  destruct (fetched (upstream (Z.of_nat h)) !! i) as [raw|]; [|discriminate].
  injection Hb as <-. exists raw. cbn. repeat split. unfold getCurrentTimestamp,
    getTimestampForOffset. lia.
Qed.

(** ** A tick on a silent feed *)

Lemma fetch_hours_silent upstream now db (n : nat) :
  (forall h, (h < n)%nat -> fetched (upstream (Z.of_nat h)) = []) ->
  foldl (fetch_step upstream now) ([], db) (seq 0 n) = ([], db).
Proof.
  induction n as [|n IH]; intros Hs; [reflexivity|].
  rewrite seq_S, foldl_app, IH by (intros h Hh; apply Hs; lia).
  cbn [foldl Nat.add fetch_step]. rewrite Hs by lia. reflexivity.
Qed.

(** X10: a tick on a silent feed only cleans up. When none of the 24 hours
    of the feed gives a valid observation, a cycle that runs leaves the
    tracker (and with it the id counter), the history in memory and the time
    of the last update as they were; the store is the old one with the rows
    older than 24 hours gone. *)
Theorem tick_on_silent_feed (L : Libs) (upstream : Upstream) (forceRun : bool)
    (now now_cleanup : Z) (w : World) :
  (forall h, (h < 24)%nat -> fetched (upstream (Z.of_nat h)) = []) ->
  autoUpdateEnabled (world_service w) = true \/ forceRun = true ->
  runHourlyUpdate L upstream forceRun now now_cleanup w
  = mkWorld (cleanupStaleData (world_db w) now_cleanup).1 (world_tracker w) (world_service w).
Proof.
  intros Hsilent Hrun. unfold runHourlyUpdate.
  assert (Hgo : negb (autoUpdateEnabled (world_service w)) && negb forceRun = false)
    by (destruct Hrun as [-> | ->]; [reflexivity|apply andb_false_r]).
  rewrite Hgo. pose proof (Hsilent 0%nat ltac:(lia)) as Hzero.
  change (Z.of_nat 0) with 0 in Hzero. rewrite Hzero.
  unfold fallbackFullFetch. rewrite fetchAll24Hours_fold.
  rewrite fetch_hours_silent by exact Hsilent. reflexivity.
Qed.

Lemma tick_on_silent_feed_down :
  (forall h, (h < 24)%nat -> fetched ((fun _ => NoResponse) (Z.of_nat h)) = []) /\
  runHourlyUpdate Ref.libs (fun _ => NoResponse) false 1700003100000 1700003100500 fresh_world
  = mkWorld (cleanupStaleData (world_db fresh_world) 1700003100500).1
            (world_tracker fresh_world) (world_service fresh_world).
Proof.
  split; [intros h _; reflexivity|].
  apply (tick_on_silent_feed Ref.libs (fun _ => NoResponse) false 1700003100000 1700003100500
           fresh_world); [intros h _; reflexivity|left; reflexivity].
Defined.

(** X19: a rebuild on a silent feed leaves nothing behind. When none of the
    24 hours of the feed gives a valid observation, the complete rebuild ends
    with both balloon tables empty, the tracker reset (the id counter back at
    1, its cache empty), no history in memory and no time of a last update;
    the wind cache and the auto-update setting are as before. *)
Theorem rebuild_on_silent_feed (L : Libs) (upstream : Upstream) (now : Z) (w : World) :
  (forall h, (h < 24)%nat -> fetched (upstream (Z.of_nat h)) = []) ->
  completeRebuild L upstream now w
  = mkWorld (mkStore (wind_cache (world_db w)) ∅ ∅) new_tracker
            (mkService [] None (autoUpdateEnabled (world_service w))).
Proof.
  intros Hsilent. unfold completeRebuild, fallbackFullFetch.
  cbn [world_db world_tracker world_service]. rewrite fetchAll24Hours_fold.
  rewrite fetch_hours_silent by exact Hsilent. reflexivity.
Qed.

Lemma rebuild_on_silent_feed_down :
  completeRebuild Ref.libs (fun _ => NoResponse) five_past after_first_trigger
  = mkWorld (mkStore (wind_cache (world_db after_first_trigger)) ∅ ∅) new_tracker
            (mkService [] None (autoUpdateEnabled (world_service after_first_trigger))).
Proof.
  apply (rebuild_on_silent_feed Ref.libs (fun _ => NoResponse) five_past after_first_trigger).
  intros h _. reflexivity.
Defined.

(** ** Sorting by a comparator that subtracts keys *)

Lemma sort_insert_perm {A} (before : A -> A -> bool) (x : A) (l : list A) :
  sort_insert before x l ≡ₚ x :: l.
Proof.
  induction l as [|y l IH]; [reflexivity|]. cbn [sort_insert].
  destruct (before y x); [rewrite IH; apply Permutation_swap|].
  destruct (before x y); [reflexivity|]. rewrite IH. apply Permutation_swap.
Qed.

Lemma stable_sort_perm {A} (before : A -> A -> bool) (l : list A) :
  stable_sort before l ≡ₚ l.
Proof.
  unfold stable_sort.
  assert (H : forall acc, foldl (fun acc x => sort_insert before x acc) acc l ≡ₚ acc ++ l).
  { induction l as [|x l IH]; intros acc; [rewrite app_nil_r; reflexivity|].
    cbn [foldl]. rewrite IH, sort_insert_perm. apply Permutation_middle. }
  apply (H []).
Qed.

Lemma sort_insert_sorted {A} (key : A -> Z) (before : A -> A -> bool) (x : A) (l : list A) :
  (forall a b, before a b = (key a - key b <? 0)) ->
  StronglySorted (fun a b => key a <= key b) l ->
  StronglySorted (fun a b => key a <= key b) (sort_insert before x l).
Proof.
  intros Hbefore. induction l as [|y l IH]; intros Hl; cbn [sort_insert].
  - repeat constructor.
  - apply StronglySorted_inv in Hl as [Hl Hy]. rewrite !Hbefore.
    assert (Hkeep : key y <= key x ->
              StronglySorted (fun a b => key a <= key b) (y :: sort_insert before x l)).
    { intros Hle. constructor; [apply IH; exact Hl|].
      rewrite sort_insert_perm. constructor; assumption. }
    destruct (Z.ltb_spec (key y - key x) 0); [apply Hkeep; lia|].
    destruct (Z.ltb_spec (key x - key y) 0); [|apply Hkeep; lia].
    constructor; [constructor; assumption|].
    constructor; [lia|]. eapply Forall_impl; [exact Hy|]. cbn. intros. lia.
Qed.

Lemma stable_sort_sorted {A} (key : A -> Z) (before : A -> A -> bool) (l : list A) :
  (forall a b, before a b = (key a - key b <? 0)) ->
  StronglySorted (fun a b => key a <= key b) (stable_sort before l).
Proof.
  intros Hbefore. unfold stable_sort.
  apply (foldl_invariant (StronglySorted (fun a b => key a <= key b))).
  - intros acc x. apply sort_insert_sorted. exact Hbefore.
  - constructor.
Qed.

Lemma sorted_distinct_strict {A} (key : A -> Z) (l : list A) :
  StronglySorted (fun a b => key a <= key b) l -> NoDup (map key l) ->
  StronglySorted (fun a b => key a < key b) l.
Proof.
  induction l as [|x l IH]; intros Hs Hnd; [constructor|].
  apply StronglySorted_inv in Hs as [Hs Hx]. cbn [map] in Hnd.
  apply NoDup_cons in Hnd as [Hnot Hnd]. constructor; [apply IH; assumption|].
  apply Forall_forall. intros y Hy. rewrite Forall_forall in Hx. specialize (Hx y Hy).
  destruct (decide (key x = key y)) as [E|]; [|lia].
  exfalso. apply Hnot. rewrite E. apply list_elem_of_fmap. exists y. auto.
Qed.

(** ** The trajectory of one balloon, from the store *)

Lemma rows_of_id_distinct (db : Store) (balloonId : string) :
  NoDup (map (fun kv : string * Timestamp * TrackedRow => kv.1.2)
             (filter (fun kv => kv.1.1 = balloonId) (map_to_list (tracked_balloons db)))).
Proof.
  pose proof (NoDup_fst_map_to_list (tracked_balloons db)) as Hnd.
  set (rows := map_to_list (tracked_balloons db)) in *. clearbody rows.
  induction rows as [|[[i t] row] rows IH]; [constructor|].
  cbn [fmap list_fmap] in Hnd. apply NoDup_cons in Hnd as [Hnot Hnd].
  rewrite filter_cons. destruct (decide _) as [Hid|]; [|apply IH; exact Hnd].
  cbn [map fst snd]. apply NoDup_cons. split; [|apply IH; exact Hnd].
  intros Hin. apply Hnot. apply list_elem_of_fmap in Hin as ([[i' t'] row'] & E & Hin).
  apply list_elem_of_filter in Hin as [Hid' Hin].
  cbn in E, Hid, Hid'. apply list_elem_of_fmap. exists (i', t', row').
  split; [cbn; congruence|exact Hin].
Qed.

Lemma db_getBalloonTrajectory_elem db balloonId p :
  p ∈ db_getBalloonTrajectory db balloonId
  <-> exists ts row, tracked_balloons db !! (balloonId, ts) = Some row /\
                     p = mapRowToBalloon (balloonId, ts) row.
Proof.
  unfold db_getBalloonTrajectory. rewrite list_elem_of_fmap. split.
  - intros ([[i t] row] & -> & Hin). rewrite stable_sort_perm in Hin.
    apply list_elem_of_filter in Hin as [Hid Hin].
    apply elem_of_map_to_list in Hin. cbn in Hid. subst i. exists t, row. auto.
  - intros (ts & row & Hrow & ->). exists (balloonId, ts, row). split; [reflexivity|].
    rewrite stable_sort_perm. apply list_elem_of_filter.
    split; [reflexivity|]. apply elem_of_map_to_list. exact Hrow.
Qed.

Lemma db_getBalloonTrajectory_sorted db balloonId :
  StronglySorted (fun a b => timestamp a < timestamp b) (db_getBalloonTrajectory db balloonId).
Proof.
  unfold db_getBalloonTrajectory.
  apply (StronglySorted_fmap _ (fun a b : string * Timestamp * TrackedRow => a.1.2 < b.1.2)).
  { intros x y Hxy. exact Hxy. }
  apply (sorted_distinct_strict (fun kv : string * Timestamp * TrackedRow => kv.1.2)).
  - apply stable_sort_sorted. reflexivity.
  - match goal with |- NoDup (map ?key (stable_sort ?before ?rows)) =>
      assert (Hperm : map key (stable_sort before rows) ≡ₚ map key rows)
        by (apply Permutation_map, stable_sort_perm)
    end.
    rewrite Hperm. apply rows_of_id_distinct.
Qed.

Lemma getBalloonTrajectoryFromDB_sorted db now balloonId :
  StronglySorted (fun a b => timestamp a < timestamp b)
                 (getBalloonTrajectoryFromDB db now balloonId).
Proof.
  unfold getBalloonTrajectoryFromDB.
  apply (StronglySorted_fmap _ (fun a b => timestamp a < timestamp b)).
  { intros x y Hxy. exact Hxy. }
  apply db_getBalloonTrajectory_sorted.
Qed.

Lemma getBalloonTrajectoryFromDB_elem db now balloonId p :
  p ∈ getBalloonTrajectoryFromDB db now balloonId
  <-> exists ts row, tracked_balloons db !! (balloonId, ts) = Some row /\
        p = set_hour_offset (hours_between now ts) (mapRowToBalloon (balloonId, ts) row).
Proof.
  unfold getBalloonTrajectoryFromDB. rewrite list_elem_of_fmap. split.
  - intros (q & -> & Hq). apply db_getBalloonTrajectory_elem in Hq as (ts & row & Hrow & ->).
    exists ts, row. auto.
  - intros (ts & row & Hrow & ->). exists (mapRowToBalloon (balloonId, ts) row).
    split; [reflexivity|]. apply db_getBalloonTrajectory_elem. eauto.
Qed.

(** X11: the trajectory of a balloon read from the store holds one position
    for each stored row of that id and nothing else; the positions come
    oldest first, with strictly increasing timestamps; each carries the id
    asked for, confidence 1, and as its hour offset the distance from its
    timestamp to the clock, rounded to whole hours. *)
Theorem trajectory_from_store (db : Store) (now : Z) (balloonId : string) :
  let out := getBalloonTrajectoryFromDB db now balloonId in
  (forall ts row, tracked_balloons db !! (balloonId, ts) = Some row ->
     exists p, p ∈ out /\ timestamp p = ts /\
       (latitude p, longitude p, altitude_km p) = (row_lat row, row_lon row, row_alt row)) /\
  (forall p, p ∈ out ->
     id p = balloonId /\ confidence p = 1%float /\
     hour_offset p = hours_between now (timestamp p) /\
     exists row, tracked_balloons db !! (balloonId, timestamp p) = Some row /\
       (latitude p, longitude p, altitude_km p) = (row_lat row, row_lon row, row_alt row)) /\
  StronglySorted (fun a b => timestamp a < timestamp b) out.
Proof.
  cbn zeta. split; [|split].
  - intros ts row Hrow.
    exists (set_hour_offset (hours_between now ts) (mapRowToBalloon (balloonId, ts) row)).
    split; [apply getBalloonTrajectoryFromDB_elem; eauto|]. split; reflexivity.
  - intros p Hp. apply getBalloonTrajectoryFromDB_elem in Hp as (ts & row & Hrow & ->).
    cbn. repeat split. exists row. auto.
  - apply getBalloonTrajectoryFromDB_sorted.
Qed.

(** ** The value calculation: when it answers, and with what *)

Lemma omap_seq_total {A} (f : nat -> option A) (k : nat) :
  (forall i, (i < k)%nat -> is_Some (f i)) ->
  length (omap f (seq 0 k)) = k /\
  forall i v, omap f (seq 0 k) !! i = Some v -> f i = Some v.
Proof.
  induction k as [|k IH]; intros Hf.
  - split; [reflexivity|]. intros i v Hv. discriminate.
  - destruct IH as [Hlen Hget]; [intros i Hi; apply Hf; lia|].
    rewrite seq_S, omap_app. simpl.
    destruct (Hf k) as [v Hv]; [lia|]. rewrite Hv.
    split; [rewrite length_app, Hlen; cbn; lia|].
    intros i w Hw. apply lookup_app_Some in Hw as [Hw|[Hge Hw]]; [auto|].
    rewrite Hlen in Hge, Hw. apply list_lookup_singleton_Some in Hw as [Hi <-].
    replace i with k by lia. exact Hv.
Qed.

Lemma score_hour_is_Some M method sorted wmap (i : nat) :
  (S i < length sorted)%nat -> is_Some (score_hour M method sorted wmap i).
Proof.
  intros Hi. unfold score_hour.
  destruct (lookup_lt_is_Some_2 sorted i) as [cur Hcur]; [lia|].
  destruct (lookup_lt_is_Some_2 sorted (S i)) as [next Hnext]; [lia|].
  rewrite Hcur, Hnext. eauto.
Qed.

Lemma calculateBalloonValueOptimized_answers M fetchWind now balloonId trajectory hours method :
  (2 <= length trajectory)%nat -> 1 <= hours ->
  exists r,
    calculateBalloonValueOptimized M fetchWind now balloonId trajectory hours method = Normal r /\
    vr_balloon_id r = balloonId /\ calculation_timestamp r = now /\ vr_method r = method /\
    hours_calculated r = Z.min hours (Z.of_nat (length trajectory) - 1) /\
    Z.of_nat (length (value_over_time r)) = hours_calculated r /\
    forall i v, value_over_time r !! i = Some v ->
      vp_hour v = i /\ value_score v = prediction_error_km v /\
      exists next, stable_sort by_timestamp trajectory !! S i = Some next /\ scored_against next v.
Proof.
  intros Hlen Hhours. unfold calculateBalloonValueOptimized.
  destruct (Nat.ltb_spec (length trajectory) 2) as [|_]; [lia|].
  set (maxHours := Z.min hours (Z.of_nat (length trajectory) - 1)).
  destruct (Z.ltb_spec maxHours 1) as [|HmaxHours]; [lia|].
  set (sorted := stable_sort by_timestamp trajectory).
  set (wmap := fetchWind _).
  destruct (omap_seq_total (score_hour M method sorted wmap) (Z.to_nat maxHours))
    as [Hcount Hget].
  { intros i Hi. apply score_hour_is_Some. unfold sorted. rewrite stable_sort_length. lia. }
  eexists. split; [reflexivity|]. cbn [vr_balloon_id calculation_timestamp vr_method
                                       hours_calculated value_over_time].
  repeat (split; [reflexivity|]). split; [rewrite Hcount; lia|].
  intros i v Hv. apply Hget in Hv. unfold score_hour in Hv.
  destruct (sorted !! i) as [cur|]; [|discriminate].
  destruct (sorted !! S i) as [next|]; [|discriminate].
  injection Hv as <-. cbn. repeat split. exists next. split; reflexivity.
Qed.

(** X12: when the value calculation answers, and with what. It throws
    exactly when the trajectory has fewer than two positions or fewer than
    one hour is asked for. Otherwise it answers, for each method, with the
    id, the method and the clock it was given, the number of hours asked for
    capped at one less than the number of positions, and exactly that many
    scored hours, numbered from 0 in order; the hour [i] is scored against
    the position [i + 1] of the trajectory sorted by time, and its value
    score is its prediction error. That sorted trajectory holds the positions
    given, oldest first. *)
Theorem value_calculation_spec (M : MathLib)
    (fetchWind : list WindLocation -> gmap WindMapKey WindData) (now : Z)
    (balloonId : string) (trajectory : list BalloonDataPoint) (hours : Z) (method : Method) :
  let answer :=
    calculateBalloonValueOptimized M fetchWind now balloonId trajectory hours method in
  (answer = Throw InsufficientData <-> (length trajectory < 2)%nat \/ hours < 1) /\
  ((2 <= length trajectory)%nat /\ 1 <= hours <->
   exists r, answer = Normal r /\
     vr_balloon_id r = balloonId /\ calculation_timestamp r = now /\ vr_method r = method /\
     hours_calculated r = Z.min hours (Z.of_nat (length trajectory) - 1) /\
     Z.of_nat (length (value_over_time r)) = hours_calculated r /\
     forall i v, value_over_time r !! i = Some v ->
       vp_hour v = i /\ value_score v = prediction_error_km v /\
       exists next, stable_sort by_timestamp trajectory !! S i = Some next /\
                    scored_against next v) /\
  stable_sort by_timestamp trajectory ≡ₚ trajectory /\
  StronglySorted (fun a b => timestamp a <= timestamp b) (stable_sort by_timestamp trajectory).
Proof.
  cbn zeta.
  assert (Hthrow : (length trajectory < 2)%nat \/ hours < 1 ->
            calculateBalloonValueOptimized M fetchWind now balloonId trajectory hours method
            = Throw InsufficientData).
  { intros Hbad. unfold calculateBalloonValueOptimized.
    destruct (Nat.ltb_spec (length trajectory) 2) as [|Hlen]; [reflexivity|].
    destruct (Z.ltb_spec (Z.min hours (Z.of_nat (length trajectory) - 1)) 1); [reflexivity|].
    lia. }
  split; [|split; [|split; [apply stable_sort_perm|apply stable_sort_sorted; reflexivity]]];
    split.
  - intros Hanswer.
    destruct (Nat.lt_ge_cases (length trajectory) 2) as [|Hlen]; [auto|].
    destruct (Z.lt_ge_cases hours 1) as [|Hhours]; [auto|].
    destruct (calculateBalloonValueOptimized_answers M fetchWind now balloonId trajectory
                hours method Hlen ltac:(lia)) as (r & Hr & _).
    rewrite Hr in Hanswer. discriminate.
  - exact Hthrow.
  - intros [Hlen Hhours].
    exact (calculateBalloonValueOptimized_answers M fetchWind now balloonId trajectory
             hours method Hlen Hhours).
  - intros (r & Hr & _).
    destruct (Nat.lt_ge_cases (length trajectory) 2) as [Hlen|Hlen];
      [rewrite Hthrow in Hr by auto; discriminate|].
    destruct (Z.lt_ge_cases hours 1) as [Hhours|Hhours];
      [rewrite Hthrow in Hr by auto; discriminate|].
    split; [exact Hlen|lia].
Qed.

(** ** The routes of one balloon *)


Lemma sorted_ends (l : list BalloonDataPoint) (a z : BalloonDataPoint) :
  StronglySorted (fun a b => timestamp a < timestamp b) l ->
  l !! 0%nat = Some a -> l !! (length l - 1)%nat = Some z ->
  forall p, p ∈ l -> timestamp a <= timestamp p <= timestamp z.
Proof.
  intros Hs Ha Hz p Hp. split.
  - destruct l as [|a' l]; [discriminate|]. injection Ha as ->.
    apply StronglySorted_inv in Hs as [_ Hall].
    apply elem_of_cons in Hp as [->|Hp]; [lia|].
    rewrite Forall_forall in Hall. specialize (Hall p Hp). lia.
  - destruct (list_elem_of_lookup_1 _ _ Hp) as [i Hi].
    pose proof (lookup_lt_Some _ _ _ Hi) as Hlt.
    destruct (decide (i = length l - 1)%nat) as [->|Hne].
    + unfold Timestamp in *. rewrite Hi in Hz. injection Hz as ->. lia.
    + rewrite <- (take_drop_middle l (length l - 1) z Hz) in Hs.
      apply StronglySorted_app in Hs as (Hcross & _ & _).
      assert (Hin : p ∈ take (length l - 1) l).
      { apply list_elem_of_lookup_2 with i. rewrite lookup_take_lt by lia. exact Hi. }
      specialize (Hcross p z Hin ltac:(left)). lia.
Qed.


(** ** The trails of the history route *)

Lemma unique_fold (l : list string) : forall seen,
  NoDup seen ->
  let out := foldl (fun seen s => if decide (s ∈ seen) then seen else seen ++ [s])
                   seen l in
  NoDup out /\ forall s, s ∈ out <-> s ∈ seen \/ s ∈ l.
Proof.
  induction l as [|x l IH]; intros seen Hnd; cbn zeta.
  - split; [exact Hnd|]. intros s. rewrite elem_of_nil. tauto.
  - cbn [foldl]. destruct (decide (x ∈ seen)) as [Hx|Hx].
    + destruct (IH seen Hnd) as [H1 H2]. split; [exact H1|].
      intros s. rewrite H2, elem_of_cons. split; [tauto|].
      intros [?|[->|?]]; auto.
    + destruct (IH (seen ++ [x])) as [H1 H2].
      { apply NoDup_app. split; [exact Hnd|]. split; [|apply NoDup_singleton].
        intros y Hy Hy'. apply list_elem_of_singleton in Hy' as ->. contradiction. }
      split; [exact H1|]. intros s. rewrite H2, elem_of_app, list_elem_of_singleton, elem_of_cons.
      tauto.
Qed.

Lemma concat_filter_one (ids : list string) (b : BalloonDataPoint)
    (f : string -> list BalloonDataPoint) :
  NoDup ids -> id b ∈ ids ->
  concat (map (fun i => if decide (id b = i) then b :: f i else f i) ids)
  ≡ₚ b :: concat (map f ids).
Proof.
  induction ids as [|i ids IH]; intros Hnd Hin; [inversion Hin|].
  apply NoDup_cons in Hnd as [Hnot Hnd]. cbn [map concat].
  destruct (decide (id b = i)) as [Hi|Hi].
  - subst i. cbn [app]. constructor. apply Permutation_app_head.
    clear IH Hin. induction ids as [|j ids IH]; [reflexivity|].
    cbn [map concat]. destruct (decide (id b = j)) as [E|_].
    + exfalso. apply Hnot. rewrite E. left.
    + rewrite IH; [reflexivity| |apply NoDup_cons in Hnd as [_ ?]; assumption].
      intros Hin. apply Hnot. right. exact Hin.
  - apply elem_of_cons in Hin as [E|Hin]; [congruence|].
    rewrite (IH Hnd Hin). symmetry. apply Permutation_middle.
Qed.

Lemma concat_filter_ids (ids : list string) (allData : list BalloonDataPoint) :
  NoDup ids -> (forall b, b ∈ allData -> id b ∈ ids) ->
  concat (map (fun i => filter (fun b => id b = i) allData) ids) ≡ₚ allData.
Proof.
  intros Hnd. induction allData as [|b allData IH]; intros Hids.
  - clear. induction ids as [|i ids IH]; [reflexivity|]. cbn [map concat]. rewrite IH.
    reflexivity.
  - etransitivity; [|apply Permutation_skip, IH; intros b' Hb'; apply Hids; right; exact Hb'].
    rewrite <- (concat_filter_one ids b) by (auto; apply Hids; left).
    reflexivity.
Qed.

(** X15: the trails of the history route. The unique ids are the ids of the
    data, each once; the trail of an id holds the points of that id and no
    other, oldest first; and the trails of the unique ids, taken together,
    are the data: every point is in exactly one trail. *)
Theorem trails_partition_the_data (allData : list BalloonDataPoint) :
  let ids := getUniqueBalloonIds allData in
  NoDup ids /\
  (forall s, s ∈ ids <-> exists b, b ∈ allData /\ id b = s) /\
  (forall s,
     getBalloonTrajectory allData s ≡ₚ filter (fun b => id b = s) allData /\
     StronglySorted (fun a b => timestamp a <= timestamp b) (getBalloonTrajectory allData s)) /\
  concat (map (getBalloonTrajectory allData) ids) ≡ₚ allData.
Proof.
  cbn zeta. unfold getUniqueBalloonIds.
  destruct (unique_fold (map id allData) [] (NoDup_nil_2 (A:=string))) as [Hnd Hmem].
  cbn zeta in Hnd, Hmem.
  set (ids := foldl _ [] (map id allData)) in *. clearbody ids.
  assert (Hids : forall s, s ∈ ids <-> exists b, b ∈ allData /\ id b = s).
  { intros s. rewrite Hmem, elem_of_nil, list_elem_of_fmap. split.
    - intros [[]|(b & -> & Hb)]. eauto.
    - intros (b & Hb & <-). right. eauto. }
  split; [exact Hnd|]. split; [exact Hids|]. split.
  - intros s. unfold getBalloonTrajectory. split.
    + apply stable_sort_perm.
    + apply stable_sort_sorted. reflexivity.
  - etransitivity; [|apply (concat_filter_ids ids allData Hnd)].
    2: { intros b Hb. apply Hids. eauto. }
    clear. induction ids as [|i ids IH]; [reflexivity|]. cbn [map concat].
    apply Permutation_app; [apply stable_sort_perm|exact IH].
Qed.

(** ** The shape of a predicted trajectory, for every method *)

Lemma predict_one_shape M method cur hist windData :
  one_hour_ahead method cur (predict_one M method cur hist windData).
Proof.
  unfold one_hour_ahead, predict_one, add_hours.
  destruct method; cbn.
  - unfold predictByPersistenceSync. destruct (_ =? _)%float; cbn [p_method p_altitude_km
      p_timestamp p_confidence]; (split; [reflexivity|]; split; [reflexivity|]; split; [unfold add_hours; lia|]).
    + left. reflexivity.
    + right. vm_compute. reflexivity.
  - unfold predictByWindSync. destruct windData; cbn [p_method p_altitude_km
      p_timestamp p_confidence]; (split; [reflexivity|]; split; [reflexivity|]; split; [unfold add_hours; lia|]).
    + right. vm_compute. reflexivity.
    + left. reflexivity.
  - unfold predictByHybridSync. cbn [p_method p_altitude_km p_timestamp p_confidence].
    split; [reflexivity|]; split; [reflexivity|]; split; [unfold add_hours; lia|]. vm_compute. reflexivity.
Qed.

Lemma predict_loop_shape M method hist wmap balloon (H : nat) : forall cur,
  altitude_km cur = altitude_km balloon -> timestamp cur = timestamp balloon ->
  Forall (one_hour_ahead method balloon) (predict_loop M method hist wmap H cur).
Proof.
  induction H as [|H IH]; intros cur Halt Hts; [constructor|].
  cbn [predict_loop].
  set (windData := wmap !! _). clearbody windData.
  pose proof (predict_one_shape M method cur hist windData) as Hshape.
  set (prediction := predict_one M method cur hist windData) in *. clearbody prediction.
  destruct Hshape as (Hm & Ha & Ht & Hc).
  constructor.
  - unfold one_hour_ahead. rewrite Hm, Ha, Ht, Halt, Hts. auto.
  - apply IH; cbn [move_to altitude_km timestamp]; congruence.
Qed.

Lemma predict_loop_no_wind M hist wmap (H : nat) : forall cur,
  (forall key, wmap !! key = None) ->
  Forall (fun p => p_latitude p = latitude cur /\ p_longitude p = longitude cur /\
                   p_confidence p = 0.3%float)
         (predict_loop M wind hist wmap H cur).
Proof.
  induction H as [|H IH]; intros cur Hnone; [constructor|].
  cbn [predict_loop predict_one]. rewrite Hnone. cbn [predictByWindSync].
  constructor; [cbn; auto|].
  specialize (IH (move_to cur (predictByWindSync M cur None 1)) Hnone).
  cbn [move_to predictByWindSync p_latitude p_longitude p_altitude_km latitude longitude] in IH.
  exact IH.
Qed.

(** X16: the shape of a predicted trajectory. For each of the three methods
    the trajectory names the balloon, repeats the history and the horizon it
    was given and holds one prediction per hour of the horizon. Every
    prediction, whatever its place in the list, carries the method asked
    for, the altitude of the balloon, the timestamp of the balloon plus one
    hour, and a confidence from a fixed set: 0.3 or 0.65 for persistence,
    0.3 or 0.78 for wind, 0.85 for hybrid. With the wind method and no wind
    data, every prediction leaves the balloon where it is, at confidence
    0.3. *)
Theorem predicted_trajectory_shape (M : MathLib) (balloon : BalloonDataPoint)
    (hist : list BalloonDataPoint) (wmap : gmap WindMapKey WindData) (H : nat)
    (method : Method) :
  let tr := predictTrajectoryWithWindData M balloon hist wmap H method in
  t_balloon_id tr = id balloon /\ historical_positions tr = hist /\
  prediction_horizon_hours tr = H /\
  length (predicted_positions tr) = H /\
  Forall (one_hour_ahead method balloon) (predicted_positions tr) /\
  (method = wind -> (forall key, wmap !! key = None) ->
   Forall (fun p => p_latitude p = latitude balloon /\ p_longitude p = longitude balloon /\
                    p_confidence p = 0.3%float)
          (predicted_positions tr)).
Proof.
  cbn zeta. unfold predictTrajectoryWithWindData.
  cbn [t_balloon_id historical_positions prediction_horizon_hours predicted_positions].
  split; [reflexivity|]. split; [reflexivity|]. split; [reflexivity|].
  split; [apply predict_loop_length|].
  split; [apply predict_loop_shape; reflexivity|].
  intros -> Hnone. apply predict_loop_no_wind. exact Hnone.
Qed.

(** ** One row for every observation, and no id twice *)

Lemma addMatch_consistent M currentData previousData st order curr prev cost currIdx :
  matching_consistent currentData previousData st order ->
  currentData !! currIdx = Some curr -> currIdx ∉ matchedCurrIndices st ->
  prev ∈ previousData -> id prev ∉ matchedPrevIds st ->
  matching_consistent currentData previousData (addMatch M st curr prev cost currIdx)
                      (order ++ [currIdx]).
Proof.
  intros (Hnd & Hset & Hrows & Hids & Hprev & Hfrom) Hcurr Hfresh Hin Hnew.
  unfold matching_consistent, addMatch.
  cbn [tracked matchedPrevIds matchedCurrIndices].
  split; [|split; [|split; [|split; [|split]]]].
  - apply NoDup_app. split; [exact Hnd|]. split; [|apply NoDup_singleton].
    intros i Hi Hi'. apply list_elem_of_singleton in Hi' as ->. apply Hfresh, Hset, Hi.
  - intros i. rewrite elem_of_app, list_elem_of_singleton, elem_of_union, elem_of_singleton, Hset.
    tauto.
  - apply Forall2_app; [exact Hrows|]. constructor; [|constructor].
    exists curr. split; [exact Hcurr|reflexivity].
  - rewrite map_app. cbn [map id]. apply NoDup_app. split; [exact Hids|].
    split; [|apply NoDup_singleton].
    intros s Hs Hs'. apply list_elem_of_singleton in Hs' as ->. apply Hnew, Hprev, Hs.
  - intros s. rewrite map_app. cbn [map id].
    rewrite elem_of_app, list_elem_of_singleton, elem_of_union, elem_of_singleton, Hprev. tauto.
  - apply Forall_app. split; [exact Hfrom|]. constructor; [|constructor].
    exists prev. split; [exact Hin|reflexivity].
Qed.

Lemma foldl_imap_invariant {A S} (P : nat -> S -> Prop) (f : S -> nat * A -> S)
    (l : list A) (s0 : S) :
  P 0%nat s0 ->
  (forall n x s, l !! n = Some x -> P n s -> P (Datatypes.S n) (f s (n, x))) ->
  P (length l) (foldl f s0 (imap (fun i x => (i, x)) l)).
Proof.
  intros H0 Hstep.
  assert (H : forall k, (k <= length l)%nat ->
                        P k (foldl f s0 (imap (fun i x => (i, x)) (take k l)))).
  { induction k as [|k IH]; intros Hk; [rewrite take_0; exact H0|].
    destruct (lookup_lt_is_Some_2 l k) as [x Hx]; [lia|].
    rewrite (take_S_r _ _ _ Hx), imap_app, foldl_app. cbn [imap foldl].
    rewrite length_take, Nat.min_l, Nat.add_0_r by lia.
    apply Hstep; [exact Hx|]. apply IH. lia. }
  specialize (H (length l) (le_n _)). rewrite firstn_all in H. exact H.
Qed.

Lemma defer_consistent currentData previousData n st :
  greedy_consistent currentData previousData n st ->
  greedy_consistent currentData previousData (S n) (defer st n).
Proof.
  intros (Hinv & Hm & Hc & Hnd & Hdis). unfold greedy_consistent, defer.
  cbn [tracked matchedPrevIds matchedCurrIndices conflictingCurrIndices].
  split; [exact Hinv|]. split; [intros i Hi; specialize (Hm i Hi); lia|].
  split.
  { intros i Hi. apply elem_of_app in Hi as [Hi|Hi]; [specialize (Hc i Hi); lia|].
    apply list_elem_of_singleton in Hi as ->. lia. }
  split.
  { apply NoDup_app. split; [exact Hnd|]. split; [|apply NoDup_singleton].
    intros i Hi Hi'. apply list_elem_of_singleton in Hi' as ->. specialize (Hc n Hi). lia. }
  intros i Hi. apply elem_of_app in Hi as [Hi|Hi]; [auto|].
  apply list_elem_of_singleton in Hi as ->. intros Hn. specialize (Hm n Hn). lia.
Qed.

Lemma match_consistent (M : MathLib) currentData previousData n st curr prev cost :
  greedy_consistent currentData previousData n st ->
  currentData !! n = Some curr -> prev ∈ previousData -> id prev ∉ matchedPrevIds st ->
  greedy_consistent currentData previousData (S n) (addMatch M st curr prev cost n).
Proof.
  intros ([order Hinv] & Hm & Hc & Hnd & Hdis) Hcurr Hin Hnew.
  assert (Hfresh : n ∉ matchedCurrIndices st) by (intros Hn; specialize (Hm n Hn); lia).
  split; [exists (order ++ [n]); apply addMatch_consistent; assumption|].
  cbn [addMatch tracked matchedPrevIds matchedCurrIndices conflictingCurrIndices].
  split.
  { intros i Hi. apply elem_of_union in Hi as [Hi|Hi]; [|specialize (Hm i Hi); lia].
    apply elem_of_singleton in Hi as ->. lia. }
  split; [intros i Hi; specialize (Hc i Hi); lia|]. split; [exact Hnd|].
  intros i Hi Hi'. apply elem_of_union in Hi' as [Hi'|Hi']; [|exact (Hdis i Hi Hi')].
  apply elem_of_singleton in Hi' as ->. specialize (Hc n Hi). lia.
Qed.

Lemma greedy_step_consistent L hist currentData previousData demand n st curr :
  rbush_sound L ->
  currentData !! n = Some curr ->
  greedy_consistent currentData previousData n st ->
  greedy_consistent currentData previousData (S n)
    (greedy_step L demand st
       (n, (curr, candidates_for L (map node_of previousData) (prevIndexMap previousData)
                                 hist curr))).
Proof.
  intros Hsound Hcurr Hst. unfold greedy_step.
  destruct (candidates_for _ _ _ _ _) as [|best rest] eqn:Hcands.
  { destruct Hst as (Hinv & Hm & Hc & Hnd & Hdis). split; [exact Hinv|].
    split; [intros i Hi; specialize (Hm i Hi); lia|].
    split; [intros i Hi; specialize (Hc i Hi); lia|]. auto. }
  assert (Hbest : prev best ∈ previousData).
  { eapply candidates_for_ok; [exact Hsound|]. rewrite Hcands. left. }
  repeat match goal with
         | |- greedy_consistent _ _ _ (if ?c then _ else _) => destruct c eqn:?
         | |- greedy_consistent _ _ _ (match ?l with [] => _ | _ :: _ => _ end) => destruct l
         end; try (apply defer_consistent; exact Hst).
  all: apply match_consistent; [exact Hst|exact Hcurr|exact Hbest|].
  all: match goal with
       | H : context [bool_decide (?s ∈ ?X)] |- ?s ∉ ?X =>
           intros Hin; rewrite (bool_decide_eq_true_2 _ Hin) in H;
           cbn in H; rewrite ?andb_false_r in H; discriminate
       end.
Qed.

Lemma greedy_phase_consistent L hist currentData previousData demand :
  rbush_sound L ->
  greedy_consistent currentData previousData (length currentData)
    (foldl (greedy_step L demand) (mkMatching [] ∅ ∅ [])
       (imap (fun i cc => (i, cc))
          (zip currentData
             (map (candidates_for L (map node_of previousData) (prevIndexMap previousData) hist)
                  currentData)))).
Proof.
  intros Hsound.
  set (cf := candidates_for L (map node_of previousData) (prevIndexMap previousData) hist).
  assert (Hlen : length (zip currentData (map cf currentData)) = length currentData).
  { rewrite length_zip_with, length_map. lia. }
  rewrite <- Hlen.
  apply (foldl_imap_invariant (greedy_consistent currentData previousData)).
  - split; [exists []; repeat split; try constructor; cbn; try set_solver|].
    cbn. repeat split; try constructor; set_solver.
  - intros n [curr cands] st Hn Hst.
    apply lookup_zip_with_Some in Hn as (x & y & E & Hx & Hy). injection E as <- <-.
    rewrite list_lookup_fmap, Hx in Hy. injection Hy as <-.
    apply greedy_step_consistent; assumption.
Qed.

Lemma foldl_pairs_invariant {S} (P : S -> Prop) (Q : S -> nat * nat -> Prop)
    (f : S -> nat * nat -> S) (ps : list (nat * nat)) : forall s,
  NoDup (map fst ps) -> NoDup (map snd ps) ->
  P s -> (forall x, x ∈ ps -> Q s x) ->
  (forall s x, P s -> Q s x -> P (f s x)) ->
  (forall s x y, P s -> Q s x -> Q s y -> x.1 <> y.1 -> x.2 <> y.2 -> Q (f s x) y) ->
  P (foldl f s ps).
Proof.
  induction ps as [|x ps IH]; intros s Hfst Hsnd HP HQ Hstep Hkeep; [exact HP|].
  cbn [map] in Hfst, Hsnd. apply NoDup_cons in Hfst as [Hx1 Hfst].
  apply NoDup_cons in Hsnd as [Hx2 Hsnd]. cbn [foldl].
  apply IH; try assumption.
  - apply Hstep; [exact HP|]. apply HQ. left.
  - intros y Hy. apply Hkeep; [exact HP|apply HQ; left|apply HQ; right; exact Hy| |].
    + intros E. apply Hx1. rewrite E. apply list_elem_of_fmap. exists y. auto.
    + intros E. apply Hx2. rewrite E. apply list_elem_of_fmap. exists y. auto.
Qed.

Lemma set_add_NoDup (x : nat) (l : list nat) : NoDup l -> NoDup (set_add x l).
Proof.
  intros Hl. unfold set_add. case_bool_decide as Hx; [exact Hl|].
  apply NoDup_app. split; [exact Hl|]. split; [|apply NoDup_singleton].
  intros y Hy Hy'. apply list_elem_of_singleton in Hy' as ->. contradiction.
Qed.

Lemma set_add_elem (x y : nat) (l : list nat) : y ∈ set_add x l -> y = x \/ y ∈ l.
Proof.
  unfold set_add. case_bool_decide; [auto|].
  intros Hy. apply elem_of_app in Hy as [Hy|Hy]; [auto|].
  apply list_elem_of_singleton in Hy. auto.
Qed.

(** The columns of the conflict matrix: distinct indices of previous
    balloons that are candidates of some current one and not matched in the
    greedy pass. *)
Lemma unmatched_columns L hist currentData previousData (matched1 : gset string)
    (conflicting : list nat) :
  rbush_sound L -> NoDup (map id previousData) ->
  let cands := map (candidates_for L (map node_of previousData) (prevIndexMap previousData)
                                   hist) currentData in
  let columns :=
    foldl (fun acc currIdx =>
             foldl (fun acc c => set_add (prevIdx c) acc) acc
                   (filter (fun c => id (prev c) ∉ matched1) (default [] (cands !! currIdx))))
          [] conflicting in
  NoDup columns /\
  forall pIdx, pIdx ∈ columns ->
    exists p, previousData !! pIdx = Some p /\ id p ∉ matched1.
Proof.
  intros Hsound Hnd. cbn zeta.
  apply (foldl_invariant
           (fun cols : list nat => NoDup cols /\
              forall pIdx, pIdx ∈ cols -> exists p, previousData !! pIdx = Some p /\
                                                    id p ∉ matched1)).
  - intros cols currIdx Hcols.
    apply (foldl_invariant_in
             (fun cols : list nat => NoDup cols /\
                forall pIdx, pIdx ∈ cols -> exists p, previousData !! pIdx = Some p /\
                                                      id p ∉ matched1)); [|exact Hcols].
    intros cols' c Hc [Hnd' Hel]. split; [apply set_add_NoDup; exact Hnd'|].
    intros pIdx Hp. apply set_add_elem in Hp as [->|Hp]; [|auto].
    apply list_elem_of_filter in Hc as [Hfresh Hc].
    rewrite list_lookup_fmap in Hc.
    destruct (currentData !! currIdx) as [curr|]; [|inversion Hc]. cbn in Hc.
    apply candidates_for_ok in Hc as (Hin & Hidx & _); [|exact Hsound].
    destruct (prevIndexMap_lookup previousData (prev c) Hnd Hin) as (i0 & Hmap & Hi0).
    rewrite Hmap in Hidx. cbn in Hidx. rewrite Hidx. exists (prev c). auto.
  - split; [constructor|]. intros pIdx Hp. inversion Hp.
Qed.

Lemma hungarian_phase_consistent L hist currentData previousData st1 :
  rbush_sound L -> munkres_sound L -> NoDup (map id previousData) ->
  greedy_consistent currentData previousData (length currentData) st1 ->
  exists order,
    matching_consistent currentData previousData
      (hungarian_phase L currentData previousData
         (map (candidates_for L (map node_of previousData) (prevIndexMap previousData) hist)
              currentData) st1) order.
Proof.
  intros Hsound Hmunkres Hnd (Hinv & _ & _ & Hconf & Hdis).
  pose proof (unmatched_columns L hist currentData previousData (matchedPrevIds st1)
                (conflictingCurrIndices st1) Hsound Hnd) as Hcols.
  cbn zeta in Hcols. unfold hungarian_phase. cbv zeta.
  match type of Hcols with NoDup ?c /\ _ => set (columns := c) in * end.
  destruct Hcols as [Hcols Hcol].
  destruct (_ || _); [exact Hinv|].
  match goal with |- context [munkres L ?m] => set (costMatrix := m) end.
  destruct (Hmunkres costMatrix) as [Hrows Hcolumns].
  apply (foldl_pairs_invariant
           (fun st => exists order, matching_consistent currentData previousData st order)
           (fun st ij =>
              (forall currIdx, conflictingCurrIndices st1 !! ij.1 = Some currIdx ->
                               currIdx ∉ matchedCurrIndices st) /\
              (forall pIdx p, columns !! ij.2 = Some pIdx -> previousData !! pIdx = Some p ->
                              id p ∉ matchedPrevIds st)));
    [exact Hrows|exact Hcolumns|exact Hinv| | |].
  - intros [i j] _. cbn [fst snd]. split.
    + intros currIdx Hi. apply Hdis. eapply list_elem_of_lookup_2. exact Hi.
    + intros pIdx p Hj Hp. destruct (Hcol pIdx) as (p' & Hp' & Hfresh);
        [eapply list_elem_of_lookup_2; exact Hj|].
      rewrite Hp in Hp'. injection Hp' as <-. exact Hfresh.
  - intros st [i j] [order Hst] [Hq1 Hq2]. cbn [fst snd] in *.
    destruct (conflictingCurrIndices st1 !! i) as [currIdx|] eqn:Ei; [|eauto].
    destruct (columns !! j) as [pIdx|] eqn:Ej; [|eauto].
    destruct (JS.ge _ INFINITY_COST); [eauto|].
    destruct (currentData !! currIdx) as [curr|] eqn:Ec; [|eauto].
    destruct (previousData !! pIdx) as [p|] eqn:Ep; [|eauto].
    exists (order ++ [currIdx]). apply addMatch_consistent; auto.
    + eapply list_elem_of_lookup_2. exact Ep.
    + exact (Hq2 pIdx p eq_refl Ep).
  - intros st [i j] [i' j'] [order Hst] [Hq1 Hq2] [Hq1' Hq2'] Hi Hj. cbn [fst snd] in *.
    destruct (conflictingCurrIndices st1 !! i) as [currIdx|] eqn:Ei; [|auto].
    destruct (columns !! j) as [pIdx|] eqn:Ej; [|auto].
    destruct (JS.ge _ INFINITY_COST); [auto|].
    destruct (currentData !! currIdx) as [curr|] eqn:Ec; [|auto].
    destruct (previousData !! pIdx) as [p|] eqn:Ep; [|auto].
    cbn [addMatch matchedCurrIndices matchedPrevIds]. split.
    + intros currIdx' Hi'. rewrite not_elem_of_union, not_elem_of_singleton.
      split; [|auto]. intros ->. apply Hi.
      exact (NoDup_lookup _ _ _ _ Hconf Ei Hi').
    + intros pIdx' p' Hj' Hp'. rewrite not_elem_of_union, not_elem_of_singleton.
      split; [|eauto]. intros E. apply Hj.
      assert (pIdx = pIdx'); [|subst pIdx'; exact (NoDup_lookup _ _ _ _ Hcols Ej Hj')].
      apply (NoDup_lookup _ _ _ (id p) Hnd); rewrite list_lookup_fmap.
      * rewrite Ep. reflexivity.
      * rewrite Hp'. cbn. congruence.
Qed.

Lemma mint_observations n conf bs :
  map observation (mint n conf bs).1 = map observation bs.
Proof.
  revert n. induction bs as [|b bs IH]; intros n; [reflexivity|].
  cbn [mint]. specialize (IH (n + 1)). destruct (mint (n + 1) conf bs) as [out n'].
  cbn [fst map] in *. rewrite IH. reflexivity.
Qed.

Lemma mint_ids n conf bs :
  map id (mint n conf bs).1 = map balloon_id (seqZ n (Z.of_nat (length bs))).
Proof.
  revert n. induction bs as [|b bs IH]; intros n; [reflexivity|].
  cbn [mint length]. specialize (IH (n + 1)). destruct (mint (n + 1) conf bs) as [out n'].
  cbn [fst map as_new id] in *. rewrite IH, (seqZ_cons n) by lia. cbn [map].
  do 3 f_equal; lia.
Qed.

Lemma minted_ids_distinct n (k : nat) : 0 <= n -> NoDup (map balloon_id (seqZ n (Z.of_nat k))).
Proof.
  intros Hn. apply NoDup_fmap_2_strong; [|apply NoDup_seqZ].
  intros a b Ha Hb E. apply elem_of_seqZ in Ha, Hb. apply balloon_id_inj in E; lia.
Qed.

Lemma indexed_snd {A} (l : list A) : map snd (imap (fun i c => (i, c)) l) = l.
Proof.
  assert (H : forall k, map snd (imap (fun i c => ((k + i)%nat, c)) l) = l).
  { induction l as [|x l IH]; intros k; [reflexivity|]. cbn [imap map snd]. f_equal.
    rewrite <- (IH (S k)) at 2. f_equal. apply imap_ext. intros. cbn. f_equal. lia. }
  exact (H 0%nat).
Qed.

Lemma indexed_NoDup {A} (l : list A) : NoDup (imap (fun i c => (i, c)) l).
Proof.
  apply NoDup_alt. intros i j [a x] Hi Hj.
  rewrite list_lookup_imap in Hi, Hj.
  destruct (l !! i); [|discriminate]. destruct (l !! j); [|discriminate].
  cbn in Hi, Hj. congruence.
Qed.

Lemma filter_split {A} (P : A -> Prop) `{!forall x, Decision (P x)} (l : list A) :
  filter P l ++ filter (fun x => ~ P x) l ≡ₚ l.
Proof.
  induction l as [|x l IH]; [reflexivity|]. rewrite !filter_cons.
  destruct (decide (P x)) as [Hx|Hx].
  - destruct (decide (~ P x)) as [Hn|_]; [contradiction|]. cbn. rewrite IH. reflexivity.
  - destruct (decide (~ P x)) as [_|Hn]; [|contradiction].
    rewrite <- Permutation_middle, IH. reflexivity.
Qed.

Lemma unmatched_filter (matched : gset nat) (items : list (nat * BalloonDataPoint)) :
  omap (fun ic : nat * BalloonDataPoint =>
          if bool_decide (ic.1 ∈ matched) then None else Some ic.2) items
  = map snd (filter (fun ic => ~ ic.1 ∈ matched) items).
Proof.
  induction items as [|ic items IH]; [reflexivity|]. rewrite filter_cons.
  destruct (decide (ic.1 ∈ matched)) as [Hin|Hout].
  - destruct (decide (~ ic.1 ∈ matched)); [contradiction|].
    rewrite <- IH. simpl. rewrite bool_decide_eq_true_2 by exact Hin. reflexivity.
  - destruct (decide (~ ic.1 ∈ matched)); [|contradiction].
    cbn [map]. rewrite <- IH. simpl. rewrite bool_decide_eq_false_2 by exact Hout.
    reflexivity.
Qed.

Lemma matched_rows_items (currentData rows : list BalloonDataPoint) (order : list nat) :
  Forall2 (fun row i => exists curr, currentData !! i = Some curr /\
                                     observation row = observation curr) rows order ->
  exists items : list (nat * BalloonDataPoint),
    map fst items = order /\
    map observation rows = map (fun ic => observation ic.2) items /\
    forall ic, ic ∈ items -> currentData !! ic.1 = Some ic.2.
Proof.
  induction 1 as [|row i rows order (curr & Hcurr & Hobs) _ (items & Hfst & Hmap & Hin)].
  - exists []. repeat split. intros ic Hic. inversion Hic.
  - exists ((i, curr) :: items). cbn [map fst snd]. rewrite Hfst, Hmap, Hobs.
    repeat split. intros ic Hic. apply elem_of_cons in Hic as [->|Hic]; [exact Hcurr|auto].
Qed.

(** X17: one row for every observation, and no id twice. When the spatial
    index returns only nodes it holds, the assignment solver pairs no row
    and no column twice, the previous balloons have distinct ids and the
    counter is not negative and ahead of their ids, the rows [trackBalloons]
    returns are the current observations, each exactly once (position,
    altitude, timestamp and hour offset), and no two rows carry the same
    id. *)
Theorem one_row_per_observation (L : Libs) (t : Tracker) (db : Store)
    (currentData previousData : list BalloonDataPoint)
    (historyByBalloonId : gmap string (list BalloonDataPoint)) :
  rbush_sound L -> munkres_sound L ->
  NoDup (map id previousData) ->
  0 <= nextId t ->
  (forall p n, p ∈ previousData -> nextId t <= n -> id p <> balloon_id n) ->
  let out := (trackBalloons L t db currentData previousData historyByBalloonId).1.1 in
  map observation out ≡ₚ map observation currentData /\
  NoDup (map id out).
Proof.
  intros Hsound Hmunkres Hnd Hnext Hahead. cbn zeta. unfold trackBalloons.
  destruct previousData as [|p0 previousData'].
  - pose proof (mint_observations (nextId t) 1 currentData) as Hobs.
    pose proof (mint_ids (nextId t) 1 currentData) as Hids.
    destruct (mint (nextId t) 1 currentData) as [out n]. cbn [fst] in *.
    split; [rewrite Hobs; reflexivity|]. rewrite Hids. apply minted_ids_distinct. exact Hnext.
  - set (previousData := p0 :: previousData') in *.
    match goal with
    | |- context [omap ?f (imap ?g currentData)] =>
        set (unmatched := omap f (imap g currentData))
    end.
    match goal with
    | |- context [hungarian_phase ?a ?b ?c ?d ?e] => set (st2 := hungarian_phase a b c d e) in *
    end.
    assert (Hst2 : exists order, matching_consistent currentData previousData st2 order).
    { apply hungarian_phase_consistent; try assumption.
      apply greedy_phase_consistent. exact Hsound. }
    destruct Hst2 as (order & Horder & Hset & Hrows & Hids & _ & Hfrom).
    pose proof (mint_observations (nextId t) 0.5 unmatched) as Hobs.
    pose proof (mint_ids (nextId t) 0.5 unmatched) as Hfresh.
    destruct (mint (nextId t) 0.5 unmatched) as [fresh n]. cbn [fst] in *.
    split.
    + rewrite map_app, Hobs. unfold unmatched. rewrite unmatched_filter.
      destruct (matched_rows_items _ _ _ Hrows) as (items & Hfst & Hmap & Hitems).
      rewrite Hmap, map_map.
      set (indexed := imap (fun i c => (i, c)) currentData).
      assert (Hperm : items ≡ₚ filter (fun ic => ic.1 ∈ matchedCurrIndices st2) indexed).
      { apply NoDup_Permutation.
        - apply (NoDup_fmap_1 fst). change (NoDup (map fst items)). rewrite Hfst.
          exact Horder.
        - apply NoDup_filter, indexed_NoDup.
        - intros [i c]. rewrite list_elem_of_filter. cbn [fst]. unfold indexed.
          rewrite elem_of_lookup_imap. split.
          + intros Hic. split.
            * apply Hset. rewrite <- Hfst. apply list_elem_of_fmap. exists (i, c). auto.
            * exists i, c. split; [reflexivity|]. exact (Hitems _ Hic).
          + intros [Hi (i' & c' & E & Hc)]. injection E as <- <-.
            apply Hset in Hi. rewrite <- Hfst in Hi.
            apply list_elem_of_fmap in Hi as ([i'' c''] & E & Hic). cbn in E. subst i''.
            pose proof (Hitems _ Hic) as Hc''. cbn in Hc''. rewrite Hc in Hc''.
            injection Hc'' as <-. exact Hic. }
      rewrite Hperm, <- map_app, filter_split. unfold indexed.
      rewrite <- (map_map snd observation), indexed_snd. reflexivity.
    + rewrite map_app. apply NoDup_app. split; [exact Hids|]. split.
      * intros s Hs Hs'. rewrite Hfresh in Hs'.
        apply list_elem_of_fmap in Hs' as (k & -> & Hk). apply elem_of_seqZ in Hk.
        apply list_elem_of_fmap in Hs as (row & E & Hrow).
        rewrite Forall_forall in Hfrom. destruct (Hfrom row Hrow) as (p & Hp & Hid).
        apply (Hahead p k Hp); [lia|congruence].
      * rewrite Hfresh. apply minted_ids_distinct. exact Hnext.
Qed.

Lemma ref_munkres_sound : munkres_sound Ref.libs.
Proof.
  intros matrix. cbn [munkres Ref.libs]. unfold Ref.munkres.
  set (n := length matrix).
  match goal with |- context [default [] ?b] => set (best := b) end.
  assert (Hbest : NoDup (default [] best)).
  { unfold best.
    apply (foldl_invariant_in (fun b : option (list nat) => NoDup (default [] b))).
    - intros b perm Hperm Hb.
      assert (Hp : NoDup perm).
      { apply permutations_Permutation in Hperm. rewrite <- Hperm. apply NoDup_seq. }
      destruct b as [b|]; [|exact Hp]. destruct (_ <? _)%float; [exact Hp|exact Hb].
    - constructor. }
  clearbody best. split.
  - apply NoDup_alt. intros i j a Hi Hj.
    rewrite list_lookup_fmap, list_lookup_imap in Hi, Hj.
    destruct (default [] best !! i); [|discriminate].
    destruct (default [] best !! j); [|discriminate]. cbn in Hi, Hj. congruence.
  - assert (E : map snd (imap (fun i j : nat => (i, j)) (default [] best)) = default [] best)
      by apply indexed_snd.
    rewrite E. exact Hbest.
Qed.

(** The example of the balloon drifting east, with a newcomer far away. *)
Lemma one_row_per_observation_east :
  let out := (trackBalloons Ref.libs (tracker_at 2) empty_store [curr_east; curr_far]
                            [prev_east] ∅).1.1 in
  map observation out ≡ₚ map observation [curr_east; curr_far] /\
  NoDup (map id out).
Proof.
  apply (one_row_per_observation Ref.libs (tracker_at 2) empty_store [curr_east; curr_far]
           [prev_east] ∅).
  - exact ref_rbush_sound.
  - exact ref_munkres_sound.
  - repeat constructor. intros H. inversion H.
  - cbn. lia.
  - intros p n Hp Hn E. apply list_elem_of_singleton in Hp as ->. cbn in Hn, E.
    apply balloon_id_inj in E; lia.
Defined.

(** ** The cache of processed data *)

Lemma assoc_set_keys {V} (k : Z) (v : V) (m : list (Z * V)) :
  map fst (assoc_set k v m) = if decide (k ∈ map fst m) then map fst m else map fst m ++ [k].
Proof.
  induction m as [|[k' v'] m IH]; [reflexivity|]. cbn [assoc_set map fst].
  case_bool_decide as E.
  - subst k'. cbn [map fst]. destruct (decide (k ∈ k :: map fst m)) as [_|Hn]; [reflexivity|].
    exfalso. apply Hn. left.
  - cbn [map fst]. rewrite IH. destruct (decide (k ∈ map fst m)) as [Hin|Hout].
    + destruct (decide (k ∈ k' :: map fst m)) as [_|Hn]; [reflexivity|].
      exfalso. apply Hn. right. exact Hin.
    + destruct (decide (k ∈ k' :: map fst m)) as [Hin|_]; [|reflexivity].
      apply elem_of_cons in Hin as [->|Hin]; [congruence|contradiction].
Qed.

Lemma assoc_set_fresh {V} (k : Z) (v : V) (m : list (Z * V)) :
  k ∉ map fst m -> assoc_set k v m = m ++ [(k, v)].
Proof.
  induction m as [|[k' v'] m IH]; intros Hk; [reflexivity|]. cbn [assoc_set].
  cbn [map fst] in Hk. apply not_elem_of_cons in Hk as [Hne Hk].
  rewrite bool_decide_eq_false_2 by congruence. rewrite IH by exact Hk. reflexivity.
Qed.

Lemma assoc_get_elem {V} (k : Z) (v : V) (m : list (Z * V)) :
  assoc_get k m = Some v -> (k, v) ∈ m.
Proof.
  induction m as [|[k' v'] m IH]; [discriminate|]. rewrite assoc_get_cons.
  case_bool_decide as E.
  - intros [= <-]. subst k'. left.
  - intros Hm. right. auto.
Qed.

Lemma assoc_get_key {V} (k : Z) (m : list (Z * V)) :
  k ∈ map fst m -> is_Some (assoc_get k m).
Proof.
  induction m as [|[k' v'] m IH]; intros Hk; [inversion Hk|]. rewrite assoc_get_cons.
  case_bool_decide as E; [eauto|]. cbn [map fst] in Hk.
  apply elem_of_cons in Hk as [->|Hk]; [congruence|auto].
Qed.

Lemma group_by_hour_spec (allData : list BalloonDataPoint) :
  NoDup (map fst (group_by_hour allData)) /\
  Forall (fun g => g.2 <> []) (group_by_hour allData) /\
  (allData <> [] -> group_by_hour allData <> []).
Proof.
  unfold group_by_hour.
  assert (H : forall m,
            NoDup (map fst m) -> Forall (fun g : Z * list BalloonDataPoint => g.2 <> []) m ->
            let r := foldl (fun m b => assoc_set (hour_offset b)
                              (default [] (assoc_get (hour_offset b) m) ++ [b]) m) m allData in
            NoDup (map fst r) /\ Forall (fun g => g.2 <> []) r /\
            (m <> [] \/ allData <> [] -> r <> [])).
  { induction allData as [|b allData IH]; intros m Hnd Hne; cbn zeta.
    - split; [exact Hnd|]. split; [exact Hne|]. cbn. intros [?|?]; [assumption|congruence].
    - cbn [foldl]. set (m' := assoc_set _ _ m).
      destruct (IH m') as (H1 & H2 & H3).
      + unfold m'. rewrite assoc_set_keys. destruct (decide _); [exact Hnd|].
        apply NoDup_app. split; [exact Hnd|]. split; [|apply NoDup_singleton].
        intros k Hk Hk'. apply list_elem_of_singleton in Hk' as ->. contradiction.
      + apply Forall_forall. intros g Hg. unfold m' in Hg.
        apply assoc_set_elem in Hg as [->|Hg].
        * cbn. intros E. apply app_eq_nil in E as [_ E]. discriminate.
        * rewrite Forall_forall in Hne. auto.
      + split; [exact H1|]. split; [exact H2|]. intros _. apply H3. left.
        unfold m'. intros E. apply (f_equal (map fst)) in E. rewrite assoc_set_keys in E.
        destruct (decide _) as [Hin|_].
        * rewrite E in Hin. inversion Hin.
        * apply app_eq_nil in E as [_ E]. discriminate. }
  destruct (H [] (NoDup_nil_2 (A:=Z)) (Forall_nil_2 _)) as (H1 & H2 & H3).
  split; [exact H1|]. split; [exact H2|]. intros Hne. apply H3. right. exact Hne.
Qed.

Lemma trackBalloons_cache L t db curr prev hist :
  processedDataCache (trackBalloons L t db curr prev hist).1.2 = processedDataCache t.
Proof.
  destruct (trackBalloons_unfold L curr prev hist) as (matched & unmatched & _ & _ & E).
  cbn zeta in E. rewrite E. reflexivity.
Qed.

Lemma process_hour_cache L currentTimestamp byHour st hour :
  Forall (fun g : Z * list BalloonDataPoint => g.2 <> []) byHour ->
  hour ∈ map fst byHour ->
  hour ∉ map fst (processedDataCache (rp_tracker st)) ->
  cache_holds st ->
  let st' := process_hour L currentTimestamp byHour st hour in
  cache_holds st' /\
  map fst (processedDataCache (rp_tracker st'))
  = map fst (processedDataCache (rp_tracker st)) ++ [hour].
Proof.
  intros Hne Hkey Hfresh Hcache. cbn zeta. unfold process_hour.
  destruct (assoc_get_key hour byHour Hkey) as [group Hgroup]. rewrite Hgroup. cbn [default].
  unfold Datatypes.id.
  apply assoc_get_elem in Hgroup. rewrite Forall_forall in Hne. specialize (Hne _ Hgroup).
  destruct group as [|first rest]; [contradiction|]. clear Hne Hgroup. cbv beta iota.
  assert (Hstep : forall tracked t db,
            processedDataCache t = processedDataCache (rp_tracker st) ->
            let st' := mkReprocess
                         (mkTracker (nextId t) (assoc_set hour tracked (processedDataCache t))
                                    (cacheTimestamp t) (cacheCreatedAt t))
                         db tracked (rp_processedData st ++ tracked)
                         (foldl push_history (rp_history st) tracked) in
            cache_holds st' /\
            map fst (processedDataCache (rp_tracker st'))
            = map fst (processedDataCache (rp_tracker st)) ++ [hour]).
  { intros tracked t db Ht. cbn zeta. unfold cache_holds.
    cbn [rp_tracker rp_processedData processedDataCache]. rewrite Ht.
    rewrite assoc_set_fresh by exact Hfresh.
    rewrite !map_app, concat_app. cbn [map concat fst snd]. rewrite app_nil_r.
    unfold cache_holds in Hcache. rewrite Hcache. auto. }
  destruct (getTrackedBalloonsAtTimestamp (rp_db st) (timestamp first)) as [|e es].
  - pose proof (trackBalloons_cache L (rp_tracker st) (rp_db st) (first :: rest)
                  (rp_previousHourData st) (rp_history st)) as Hc.
    destruct (trackBalloons _ _ _ _ _ _) as [[tracked t] db]. cbn [fst snd] in Hc.
    exact (Hstep tracked t db Hc).
  - destruct (_ <=? _); refine (Hstep _ _ _ _); reflexivity.
Qed.

Lemma process_hours_cache L currentTimestamp byHour (hours : list Z) : forall st,
  Forall (fun g : Z * list BalloonDataPoint => g.2 <> []) byHour ->
  NoDup hours -> (forall h, h ∈ hours -> h ∈ map fst byHour) ->
  (forall h, h ∈ hours -> h ∉ map fst (processedDataCache (rp_tracker st))) ->
  cache_holds st ->
  let st' := foldl (process_hour L currentTimestamp byHour) st hours in
  cache_holds st' /\
  map fst (processedDataCache (rp_tracker st'))
  = map fst (processedDataCache (rp_tracker st)) ++ hours.
Proof.
  induction hours as [|h hours IH]; intros st Hne Hnd Hkeys Hfresh Hcache; cbn zeta.
  - rewrite app_nil_r. auto.
  - apply NoDup_cons in Hnd as [Hh Hnd]. cbn [foldl].
    destruct (process_hour_cache L currentTimestamp byHour st h Hne) as [Hc Hk];
      [apply Hkeys; left|apply Hfresh; left|exact Hcache|]. cbn zeta in Hc, Hk.
    destruct (IH (process_hour L currentTimestamp byHour st h) Hne Hnd) as [Hc' Hk'].
    + intros h' Hh'. apply Hkeys. right. exact Hh'.
    + intros h' Hh'. rewrite Hk, elem_of_app, list_elem_of_singleton.
      intros [Hin| ->]; [|contradiction]. apply (Hfresh h'); [right; exact Hh'|exact Hin].
    + exact Hc.
    + split; [exact Hc'|]. cbn zeta in Hk'. rewrite Hk', Hk, <- app_assoc. reflexivity.
Qed.

(** X18: the cache of processed data. After a computation on data that are
    not empty, starting from an empty cache, a further call made less than
    ten minutes later by the clock, on any data whose first point carries the
    same timestamp, returns the rows of that computation and leaves the
    tracker (and with it the id counter) and the store as they are. *)
Theorem processHistoricalData_cached (L : Libs) (t : Tracker) (db : Store)
    (allData : list BalloonDataPoint) (now : Z)
    (db' : Store) (allData' : list BalloonDataPoint) (now' : Z) :
  processedDataCache t = [] ->
  allData <> [] ->
  head (map timestamp allData') = head (map timestamp allData) ->
  now' - now < cacheMaxAge ->
  let first := processHistoricalData L t db allData now in
  processHistoricalData L first.1.2 db' allData' now' = (first.1.1, first.1.2, db').
Proof.
  intros Hempty Hdata Hhead Hage. cbn zeta.
  unfold processHistoricalData at 2 3 4. rewrite Hempty. cbn [length Nat.ltb Nat.leb].
  rewrite andb_false_r. cbn [andb].
  fold (group_by_hour allData).
  destruct (group_by_hour_spec allData) as (Hnd & Hne & Hsome). specialize (Hsome Hdata).
  set (byHour := group_by_hour allData) in *.
  set (hours := stable_sort (fun a b => b - a <? 0) (map fst byHour)).
  assert (Hperm : hours ≡ₚ map fst byHour) by apply stable_sort_perm.
  set (currentTimestamp := match allData with b :: _ => timestamp b | [] => now end).
  destruct (process_hours_cache L currentTimestamp byHour hours
              (mkReprocess t db [] [] ∅) Hne) as [Hcache Hkeys].
  { rewrite Hperm. exact Hnd. }
  { intros h Hh. rewrite <- Hperm. exact Hh. }
  { intros h _. cbn. rewrite Hempty. apply not_elem_of_nil. }
  { unfold cache_holds. cbn. rewrite Hempty. reflexivity. }
  cbn zeta in Hcache, Hkeys.
  set (st := foldl (process_hour L currentTimestamp byHour) (mkReprocess t db [] [] ∅) hours)
    in *.
  cbn [fst snd]. unfold processHistoricalData.
  cbn [processedDataCache cacheTimestamp cacheCreatedAt nextId].
  assert (Hts : match allData' with b :: _ => timestamp b | [] => now' end = currentTimestamp).
  { unfold currentTimestamp. destruct allData as [|b rest]; [contradiction|].
    destruct allData' as [|b' rest']; [discriminate|]. cbn in Hhead. congruence. }
  rewrite Hts. rewrite bool_decide_eq_true_2 by reflexivity.
  assert (Hlen : (0 <? length (processedDataCache (rp_tracker st)))%nat = true).
  { apply Nat.ltb_lt. rewrite <- (length_map fst), Hkeys. cbn [rp_tracker]. rewrite Hempty.
    cbn [map app]. rewrite Hperm, length_map.
    destruct byHour; [contradiction|cbn; lia]. }
  rewrite Hlen. destruct (Z.ltb_spec (now' - now) cacheMaxAge) as [_|]; [|lia].
  cbn [andb]. unfold cache_holds in Hcache. rewrite Hcache. reflexivity.
Qed.

(** A second request a minute after the first, on a fresh tracker. *)
Lemma processHistoricalData_cached_minute :
  let first := processHistoricalData Ref.libs new_tracker empty_store [curr_east] five_past in
  processHistoricalData Ref.libs first.1.2 empty_store [curr_east] six_past
  = (first.1.1, first.1.2, empty_store).
Proof.
  apply (processHistoricalData_cached Ref.libs new_tracker empty_store [curr_east] five_past
           empty_store [curr_east] six_past).
  - reflexivity.
  - discriminate.
  - reflexivity.
  - vm_compute. reflexivity.
Defined.

(** ** The balloons of one hour *)

Lemma hours_between_within (H delta r : Z) :
  0 <= delta < HOUR_MS ->
  hours_between (H + delta) (H - r * HOUR_MS)
  = r + (if delta <? 30 * 60 * 1000 then 0 else 1).
Proof.
  intros Hd. unfold hours_between, HOUR_MS in *.
  destruct (Z.ltb_spec delta (30 * 60 * 1000)); Z.to_euclidean_division_equations; lia.
Qed.

(** X20: the balloons of one hour. When the two clocks of the request read
    the same hour, [GET /balloons] returns the stored rows of the top of the
    hour, the requested number of hours back (0 when the parameter is
    missing or not a number): each row once, none of another hour, with
    confidence 1; the count is their number; and the hour offset of every
    balloon returned is the requested one while the clock is less than 30
    minutes past the hour, and one more from then on. *)
Theorem balloons_route_spec (w : World) (now now_query now_answer : Z)
    (hour_offset_param : option Z) :
  getCurrentTimestamp now_query = getCurrentTimestamp now ->
  let requested := default 0 hour_offset_param in
  let hour := getCurrentTimestamp now - requested * HOUR_MS in
  let answer := balloons_route w now now_query now_answer hour_offset_param in
  balloon_count answer = length (balloons answer) /\
  NoDup (map id (balloons answer)) /\
  (forall b, b ∈ balloons answer ->
     timestamp b = hour /\ confidence b = 1%float /\
     is_Some (tracked_balloons (world_db w) !! (id b, hour)) /\
     hour_offset b
     = requested + (if now_query - getCurrentTimestamp now <? 30 * 60 * 1000 then 0 else 1)) /\
  (forall s row, tracked_balloons (world_db w) !! (s, hour) = Some row ->
     exists b, b ∈ balloons answer /\ id b = s /\
       (latitude b, longitude b, altitude_km b) = (row_lat row, row_lon row, row_alt row)).
Proof.
  intros Hsame. cbn zeta. unfold balloons_route.
  cbn [balloon_count balloons]. unfold getBalloonsAtTimestamp.
  set (requested := default 0 hour_offset_param).
  assert (Hhour : getCurrentTimestamp (getCurrentTimestamp now - requested * 60 * 60 * 1000)
                  = getCurrentTimestamp now - requested * HOUR_MS).
  { unfold getCurrentTimestamp, getTimestampForOffset, HOUR_MS.
    Z.to_euclidean_division_equations; lia. }
  rewrite Hhour. set (hour := getCurrentTimestamp now - requested * HOUR_MS).
  assert (Hoffset : hours_between now_query hour
                    = requested + (if now_query - getCurrentTimestamp now <? 30 * 60 * 1000
                                   then 0 else 1)).
  { unfold hour.
    replace now_query with (getCurrentTimestamp now + (now_query - getCurrentTimestamp now))
      at 1 by lia.
    apply hours_between_within. rewrite <- Hsame.
    unfold getCurrentTimestamp, getTimestampForOffset, HOUR_MS.
    Z.to_euclidean_division_equations; lia. }
  split; [reflexivity|]. split.
  { rewrite map_map. cbn [set_hour_offset id].
    exact (getTrackedBalloonsAtTimestamp_ids (world_db w) hour). }
  split.
  - intros b Hb. apply list_elem_of_fmap in Hb as (b0 & -> & Hb0).
    apply getTrackedBalloonsAtTimestamp_elem in Hb0 as ([s t] & row & Hrow & Ht & ->).
    cbn in Ht. subst t. cbn [set_hour_offset mapRowToBalloon timestamp confidence id hour_offset
                             fst snd].
    split; [reflexivity|]. split; [reflexivity|]. split; [eauto|exact Hoffset].
  - intros s row Hrow.
    exists (set_hour_offset (hours_between now_query hour) (mapRowToBalloon (s, hour) row)).
    split; [|split; reflexivity].
    apply list_elem_of_fmap. exists (mapRowToBalloon (s, hour) row). split; [reflexivity|].
    apply getTrackedBalloonsAtTimestamp_elem. exists (s, hour), row. auto.
Qed.

(** At twenty to midnight, on the store left by the first trigger. *)
Lemma balloons_route_spec_at_2340 :
  let w := after_first_trigger in
  let answer := balloons_route w 1700005200000 1700005200050 1700005200100 None in
  balloon_count answer = length (balloons answer) /\
  NoDup (map id (balloons answer)) /\
  (forall b, b ∈ balloons answer ->
     timestamp b = getCurrentTimestamp 1700005200000 - 0 * HOUR_MS /\
     confidence b = 1%float /\
     is_Some (tracked_balloons (world_db w)
                !! (id b, getCurrentTimestamp 1700005200000 - 0 * HOUR_MS)) /\
     hour_offset b
     = 0 + (if 1700005200050 - getCurrentTimestamp 1700005200000 <? 30 * 60 * 1000
            then 0 else 1)) /\
  (forall s row,
     tracked_balloons (world_db w) !! (s, getCurrentTimestamp 1700005200000 - 0 * HOUR_MS)
     = Some row ->
     exists b, b ∈ balloons answer /\ id b = s /\
       (latitude b, longitude b, altitude_km b) = (row_lat row, row_lon row, row_alt row)).
Proof.
  apply (balloons_route_spec after_first_trigger 1700005200000 1700005200050 1700005200100 None).
  reflexivity.
Defined.

(** ** Reading the balloon data *)

Lemma hour_points_current upstream now (h : nat) :
  (h < 24)%nat ->
  Forall (current_point (getCurrentTimestamp now)) (hour_points upstream now h).
Proof.
  intros Hh. apply Forall_forall. intros b Hb. unfold hour_points, to_points in Hb.
  apply elem_of_lookup_imap in Hb as (i & raw & -> & _).
  unfold current_point, hoursDiff_rounded, hours_between. cbn [timestamp hour_offset].
  unfold getCurrentTimestamp, getTimestampForOffset, DAY_MS, HOUR_MS.
  split; [lia|]. Z.to_euclidean_division_equations; lia.
Qed.

Lemma fetchAll24Hours_current upstream now db :
  Forall (current_point (getCurrentTimestamp now)) (fetchAll24Hours upstream now db).1.
Proof.
  rewrite fetchAll24Hours_fold.
  destruct (fetch_hours_spec upstream now db MAX_HOURS) as (-> & _).
  apply Forall_concat, Forall_forall. intros l Hl.
  apply list_elem_of_fmap in Hl as (h & -> & Hh). apply elem_of_seq in Hh.
  apply hour_points_current. unfold MAX_HOURS in Hh. lia.
Qed.

Lemma restore_history_current db currentTimestamp :
  Forall (current_point currentTimestamp) (restore_history db currentTimestamp).
Proof.
  unfold restore_history. apply Forall_concat, Forall_forall. intros l Hl.
  apply list_elem_of_fmap in Hl as ([ts rawData] & -> & _). cbn [fst snd].
  unfold hoursDiff_below_24. destruct (Z.ltb_spec (Z.abs (currentTimestamp - ts)) DAY_MS);
    [|constructor].
  apply Forall_forall. intros b Hb. unfold to_points in Hb.
  apply elem_of_lookup_imap in Hb as (i & raw & -> & _).
  unfold current_point. cbn [timestamp hour_offset]. split; [exact H|reflexivity].
Qed.

(** X21: what reading the balloon data does. [getBalloonData] returns the
    history it leaves in memory. It never touches the tracker, the tracked
    rows, the wind cache or the auto-update setting, and of the snapshots it
    changes at most those of feed hours that gave observations. Afterwards
    there is a time of the last update: the current hour, or the time of the
    newest snapshot when that lies between 54 and 66 minutes before the
    current hour. Unless the last update
    already was the current hour, every point returned is less than 24 hours
    from the current hour and carries as hour offset its rounded distance to
    it. *)
Theorem getBalloonData_spec (upstream : Upstream) (now : Z) (w : World) :
  let currentTimestamp := getCurrentTimestamp now in
  let r := getBalloonData upstream now w in
  r.1 = balloonHistory (world_service r.2) /\
  world_tracker r.2 = world_tracker w /\
  tracked_balloons (world_db r.2) = tracked_balloons (world_db w) /\
  wind_cache (world_db r.2) = wind_cache (world_db w) /\
  autoUpdateEnabled (world_service r.2) = autoUpdateEnabled (world_service w) /\
  snapshots_kept upstream now (world_db w) (world_db r.2) /\
  (exists last, lastUpdateTimestamp (world_service r.2) = Some last /\
     (last = currentTimestamp \/
      (getLatestSnapshotTimestamp (world_db w) = Some last /\
       54 * MINUTE_MS <= currentTimestamp - last <= 66 * MINUTE_MS))) /\
  (lastUpdateTimestamp (world_service w) <> Some currentTimestamp ->
   Forall (current_point currentTimestamp) r.1).
Proof.
  cbn zeta. unfold getBalloonData.
  set (cur := getCurrentTimestamp now).
  set (S := fun r : list BalloonDataPoint * World =>
         r.1 = balloonHistory (world_service r.2) /\
         world_tracker r.2 = world_tracker w /\
         tracked_balloons (world_db r.2) = tracked_balloons (world_db w) /\
         wind_cache (world_db r.2) = wind_cache (world_db w) /\
         autoUpdateEnabled (world_service r.2) = autoUpdateEnabled (world_service w) /\
         snapshots_kept upstream now (world_db w) (world_db r.2) /\
         (exists last, lastUpdateTimestamp (world_service r.2) = Some last /\
            (last = cur \/
             (getLatestSnapshotTimestamp (world_db w) = Some last /\
              54 * MINUTE_MS <= cur - last <= 66 * MINUTE_MS))) /\
         (lastUpdateTimestamp (world_service w) <> Some cur ->
          Forall (current_point cur) r.1)).
  set (full_fetch :=
         let '(allData, db1) := fetchAll24Hours upstream now (world_db w) in
         (allData, mkWorld db1 (world_tracker w)
                     (mkService allData (Some cur) (autoUpdateEnabled (world_service w))))).
  assert (Hfull : S full_fetch).
  { unfold S, full_fetch.
    pose proof (fetchAll24Hours_current upstream now (world_db w)) as Hcur.
    pose proof (fetchAll24Hours_fold upstream now (world_db w)) as Hfold.
    destruct (fetch_hours_spec upstream now (world_db w) MAX_HOURS) as (_ & Ht & Hw & _ & Hs).
    rewrite <- Hfold in Ht, Hw, Hs.
    destruct (fetchAll24Hours upstream now (world_db w)) as [allData db1].
    cbn [fst snd world_db world_tracker world_service balloonHistory lastUpdateTimestamp
         autoUpdateEnabled] in *.
    split; [reflexivity|]. split; [reflexivity|]. split; [exact Ht|]. split; [exact Hw|].
    split; [reflexivity|]. split; [exact Hs|]. split; [eauto|]. intros _. exact Hcur. }
  assert (Hcatch :
    S match getLatestSnapshotTimestamp (world_db w) with
      | Some latestFromDB =>
          if bool_decide (latestFromDB = cur) || isConsecutiveHour latestFromDB cur
          then
            match restore_history (world_db w) cur with
            | [] => full_fetch
            | history =>
                (history,
                 mkWorld (world_db w) (world_tracker w)
                   (mkService history (Some latestFromDB)
                      (autoUpdateEnabled (world_service w))))
            end
          else full_fetch
      | None => full_fetch
      end).
  { destruct (getLatestSnapshotTimestamp (world_db w)) as [latest|] eqn:Hlatest;
      [|exact Hfull].
    destruct (bool_decide (latest = cur) || isConsecutiveHour latest cur) eqn:Hrecent;
      [|exact Hfull].
    pose proof (restore_history_current (world_db w) cur) as Hcur.
    destruct (restore_history (world_db w) cur) as [|b0 rest] eqn:Hrestore; [exact Hfull|].
    unfold S. cbn [fst snd world_db world_tracker world_service balloonHistory
                   lastUpdateTimestamp autoUpdateEnabled].
    split; [reflexivity|]. split; [reflexivity|]. split; [reflexivity|].
    split; [reflexivity|]. split; [reflexivity|]. split; [intros ts _; reflexivity|].
    split; [|intros _; exact Hcur].
    exists latest. split; [reflexivity|].
    apply orb_true_iff in Hrecent as [Heq|Hcons].
    - left. apply bool_decide_eq_true in Heq. exact Heq.
    - right. split; [reflexivity|]. unfold isConsecutiveHour, MINUTE_MS in *. lia. }
  fold full_fetch. fold S.
  destruct (lastUpdateTimestamp (world_service w)) as [lastUpdate|] eqn:Hlast; [|exact Hcatch].
  destruct (decide (lastUpdate = cur)) as [->|Hne].
  - rewrite bool_decide_eq_true_2 by reflexivity. cbn [negb andb].
    rewrite bool_decide_eq_true_2 by reflexivity. unfold S. cbn [fst snd].
    split; [reflexivity|]. split; [reflexivity|]. split; [reflexivity|].
    split; [reflexivity|]. split; [reflexivity|]. split; [intros ts _; reflexivity|].
    split; [exists cur; rewrite Hlast; auto|]. intros Hc. contradiction.
  - rewrite (bool_decide_eq_false_2 (lastUpdate = cur)) by exact Hne. cbn [negb andb].
    destruct (isConsecutiveHour lastUpdate cur) eqn:Hcons; cbn [negb]; [|exact Hcatch].
    rewrite bool_decide_eq_false_2 by congruence. unfold S.
    cbn [fst snd world_db world_tracker world_service balloonHistory lastUpdateTimestamp
         autoUpdateEnabled].
    split; [reflexivity|]. split; [reflexivity|].
    split; [destruct (fetched (upstream 0)); reflexivity|].
    split; [destruct (fetched (upstream 0)); reflexivity|].
    split; [reflexivity|]. split.
    { intros ts Hts. destruct (fetched (upstream 0)) as [|raw rawData] eqn:Hraw;
        [reflexivity|].
      cbn [balloon_snapshots saveBalloonSnapshot set_snapshots].
      apply lookup_insert_ne. intros E. apply (Hts 0%nat); [lia| |].
      - change (Z.of_nat 0) with 0. rewrite Hraw. discriminate.
      - rewrite <- E. unfold cur, getCurrentTimestamp. reflexivity. }
    split; [eauto|]. intros _.
    apply Forall_forall. intros b Hb. apply list_elem_of_fmap in Hb as (b0 & -> & Hb0).
    apply list_elem_of_filter in Hb0 as [Hrecent _].
    unfold current_point. cbn [set_hour_offset timestamp hour_offset].
    unfold hoursDiff_below_24 in Hrecent. apply Z.ltb_lt in Hrecent.
    split; [exact Hrecent|reflexivity].
Qed.

(** ** A manual refresh *)

(** X22: a manual refresh while the feed has the current hour. The cycle
    runs whether auto-update is enabled or not. What the refresh returns is
    the history it leaves in memory: the rows the tracker made of the
    observations of the current hour and nothing of the hours before, all
    stamped with the current hour; the time of the last update is the current
    hour, so the health status is healthy for the rest of the hour. *)
Theorem forceRefresh_spec (L : Libs) (upstream : Upstream) (now now_cleanup now_read : Z)
    (w : World) :
  fetched (upstream 0) <> [] ->
  getCurrentTimestamp now_read = getCurrentTimestamp now ->
  now <= now_read ->
  let H := getCurrentTimestamp now in
  let db1 := saveBalloonSnapshot (world_db w) H (fetched (upstream 0)) in
  let r := forceRefresh L upstream now now_cleanup now_read w in
  r.1 = (trackBalloons L (world_tracker w) db1 (to_points 0 H (fetched (upstream 0)))
           (getTrackedBalloonsAtTimestamp db1 (H - HOUR_MS)) ∅).1.1 /\
  r.1 = balloonHistory (world_service r.2) /\
  r.1 <> [] /\
  Forall (fun b => timestamp b = H) r.1 /\
  lastUpdateTimestamp (world_service r.2) = Some H /\
  health_status (getDataAgeMinutes (lastUpdateTimestamp (world_service r.2)) now_read)
  = healthy.
Proof.
  intros Hdata Hsame Hle. cbn zeta. unfold forceRefresh, runHourlyUpdate.
  rewrite andb_false_r.
  destruct (fetched (upstream 0)) as [|raw rawData] eqn:Hraw; [contradiction|].
  set (H := getCurrentTimestamp now) in *.
  assert (Hprev : getCurrentTimestamp (H - 60 * 60 * 1000) = H - HOUR_MS).
  { unfold H, getCurrentTimestamp, getTimestampForOffset, HOUR_MS.
    Z.to_euclidean_division_equations; lia. }
  rewrite Hprev.
  set (db1 := saveBalloonSnapshot (world_db w) H (raw :: rawData)).
  pose proof (trackBalloons_rows L (world_tracker w) db1 (to_points 0 H (raw :: rawData))
                (getTrackedBalloonsAtTimestamp db1 (H - HOUR_MS)) ∅ H
                (to_points_timestamp 0 H (raw :: rawData))
                (to_points_nonempty 0 H (raw :: rawData) ltac:(discriminate))) as [Hts Hne].
  cbn zeta in Hts, Hne.
  destruct (trackBalloons L (world_tracker w) db1 (to_points 0 H (raw :: rawData))
              (getTrackedBalloonsAtTimestamp db1 (H - HOUR_MS)) ∅) as [[tracked t] db2].
  cbn [fst snd] in *.
  unfold getBalloonData.
  cbn [world_service world_db world_tracker lastUpdateTimestamp balloonHistory
       autoUpdateEnabled].
  rewrite Hsame. fold H.
  rewrite (bool_decide_eq_true_2 (H = H)) by reflexivity. cbn [negb andb].
  rewrite bool_decide_eq_true_2 by reflexivity. cbn [fst snd world_service balloonHistory
                                                     lastUpdateTimestamp].
  split; [reflexivity|]. split; [reflexivity|]. split; [exact Hne|]. split; [exact Hts|].
  split; [reflexivity|].
  unfold health_status, getDataAgeMinutes.
  assert (Hage : 0 <= (now_read - H) / (1000 * 60) < 60).
  { unfold H in *. unfold getCurrentTimestamp, getTimestampForOffset, HOUR_MS in *.
    Z.to_euclidean_division_equations; lia. }
  destruct (Z.ltb_spec ((now_read - H) / (1000 * 60)) 0); [lia|].
  destruct (Z.ltb_spec 90 ((now_read - H) / (1000 * 60))); [lia|].
  destruct (Z.ltb_spec 65 ((now_read - H) / (1000 * 60))); [lia|]. reflexivity.
Qed.

(** A refresh at five past, read a minute later, with auto-update off. *)
Lemma forceRefresh_spec_five_past :
  let w := mkWorld empty_store new_tracker (mkService [] None false) in
  let H := getCurrentTimestamp five_past in
  let db1 := saveBalloonSnapshot (world_db w) H (fetched (one_observation 0)) in
  let r := forceRefresh Ref.libs one_observation five_past five_past six_past w in
  r.1 = (trackBalloons Ref.libs (world_tracker w) db1
           (to_points 0 H (fetched (one_observation 0)))
           (getTrackedBalloonsAtTimestamp db1 (H - HOUR_MS)) ∅).1.1 /\
  r.1 = balloonHistory (world_service r.2) /\
  r.1 <> [] /\
  Forall (fun b => timestamp b = H) r.1 /\
  lastUpdateTimestamp (world_service r.2) = Some H /\
  health_status (getDataAgeMinutes (lastUpdateTimestamp (world_service r.2)) six_past)
  = healthy.
Proof.
  apply (forceRefresh_spec Ref.libs one_observation five_past five_past six_past
           (mkWorld empty_store new_tracker (mkService [] None false))).
  - vm_compute. discriminate.
  - reflexivity.
  - vm_compute. discriminate.
Defined.

(** ** What the wind cache serves *)



(** ** The proximity tracker *)

Lemma best_match_spec M absent matched curr candidates node score :
  TrackerService.best_match M absent matched curr candidates = (Some node, score) ->
  node ∈ candidates /\ (id (balloon node) ∉ matched) /\
  (JS.gt (calculateDistance M (latitude curr) (longitude curr)
                            (latitude (balloon node)) (longitude (balloon node)))
         TrackerService.MAX_DISTANCE_KM_PER_HOUR = false).
Proof.
  unfold TrackerService.best_match.
  assert (H : forall best : option BalloonTreeNode * float,
            (forall n, best.1 = Some n ->
               n ∈ candidates /\ (id (balloon n) ∉ matched) /\
               (JS.gt (calculateDistance M (latitude curr) (longitude curr)
                                         (latitude (balloon n)) (longitude (balloon n)))
                      TrackerService.MAX_DISTANCE_KM_PER_HOUR = false)) ->
            forall n, (foldl (fun best candidate =>
                         match TrackerService.candidate_score M absent matched curr candidate
                         with
                         | Some score =>
                             if (score <? best.2)%float then (Some candidate, score) else best
                         | None => best
                         end) best candidates).1 = Some n ->
              n ∈ candidates /\ (id (balloon n) ∉ matched) /\
              (JS.gt (calculateDistance M (latitude curr) (longitude curr)
                                        (latitude (balloon n)) (longitude (balloon n)))
                     TrackerService.MAX_DISTANCE_KM_PER_HOUR = false)).
  { intros best. apply (foldl_invariant_in (fun best : option BalloonTreeNode * float =>
       forall n, best.1 = Some n ->
         n ∈ candidates /\ (id (balloon n) ∉ matched) /\
         (JS.gt (calculateDistance M (latitude curr) (longitude curr)
                                   (latitude (balloon n)) (longitude (balloon n)))
                TrackerService.MAX_DISTANCE_KM_PER_HOUR = false))).
    intros b c Hc Hb n. unfold TrackerService.candidate_score.
    case_bool_decide as Hm; [apply Hb|].
    destruct (JS.gt _ TrackerService.MAX_DISTANCE_KM_PER_HOUR) eqn:Hd; [apply Hb|].
    destruct (_ <? _)%float; [|apply Hb]. cbn [fst]. intros [= <-]. auto. }
  intros E. apply (H (None, infinity)); [intros n Hn; discriminate|]. rewrite E. reflexivity.
Qed.

Lemma track_step_consistent (L : Libs) absent prevNodes currentData n0 done st curr :
  curr ∈ currentData ->
  proximity_consistent L prevNodes (rbush_search L) currentData n0 done st ->
  proximity_consistent L prevNodes (rbush_search L) currentData n0 (done ++ [curr])
    (TrackerService.track_step L absent prevNodes st curr).
Proof.
  intros Hcurr. destruct st as [[tracked matched] n].
  intros (Hobs & Hnd & Hids & Hrows & Hn & Hminted). cbn [fst snd] in *.
  assert (Hnew : proximity_consistent L prevNodes (rbush_search L) currentData n0
                   (done ++ [curr]) (tracked ++ [as_new n 0.5 curr], matched, n + 1)).
  { unfold proximity_consistent. cbn [fst snd].
    rewrite !map_app, Hobs, filter_app. cbn [map]. rewrite filter_cons.
    destruct (decide (is_new (as_new n 0.5 curr) = false)) as [E|_]; [discriminate E|].
    rewrite filter_nil, app_nil_r.
    split; [reflexivity|]. split; [exact Hnd|]. split; [exact Hids|].
    split.
    { apply Forall_app. split; [exact Hrows|]. constructor; [|constructor].
      intros E. discriminate E. }
    split; [lia|].
    unfold minted in *. rewrite filter_app, map_app, Hminted. rewrite filter_cons.
    destruct (decide (is_new (as_new n 0.5 curr) = true)) as [_|E]; [|destruct E; reflexivity].
    rewrite filter_nil. cbn [map as_new id].
    replace (n + 1 - n0) with ((n - n0) + 1) by lia.
    rewrite seqZ_app by lia. rewrite map_app. do 2 f_equal.
    replace (n0 + (n - n0)) with n by lia. reflexivity. }
  unfold TrackerService.track_step.
  destruct (rbush_search L prevNodes (TrackerService.search_box curr)) as [|c0 cs] eqn:Hsearch;
    [exact Hnew|].
  destruct (TrackerService.best_match L absent matched curr (c0 :: cs))
    as [[node|] score] eqn:Hbest; [|exact Hnew].
  apply best_match_spec in Hbest as (Hnode & Hfree & Hdist).
  unfold proximity_consistent. cbn [fst snd].
  rewrite !map_app, Hobs, filter_app. cbn [map]. rewrite filter_cons.
  destruct (decide (is_new (TrackerService.as_matched L curr (balloon node) score) = false))
    as [_|E]; [|destruct E; reflexivity].
  rewrite filter_nil.
  split; [reflexivity|]. split.
  { rewrite map_app. cbn [map TrackerService.as_matched id]. apply NoDup_app.
    split; [exact Hnd|]. split; [|apply NoDup_singleton].
    intros s Hs Hs'. apply list_elem_of_singleton in Hs' as ->. apply Hfree, Hids, Hs. }
  split.
  { intros s. rewrite map_app. cbn [map TrackerService.as_matched id].
    rewrite elem_of_app, list_elem_of_singleton, elem_of_union, elem_of_singleton, Hids. tauto. }
  split.
  { apply Forall_app. split; [exact Hrows|]. constructor; [|constructor].
    intros _. exists curr, node. rewrite Hsearch. auto. }
  split; [exact Hn|].
  unfold minted in *. rewrite filter_app, map_app, Hminted. rewrite filter_cons.
  destruct (decide (is_new (TrackerService.as_matched L curr (balloon node) score) = true))
    as [E|_]; [discriminate E|].
  rewrite filter_nil, app_nil_r. reflexivity.
Qed.

Lemma track_loop_consistent (L : Libs) absent prevNodes currentData n0
    (todo : list BalloonDataPoint) :
  forall done st,
    (forall c, c ∈ todo -> c ∈ currentData) ->
    proximity_consistent L prevNodes (rbush_search L) currentData n0 done st ->
    proximity_consistent L prevNodes (rbush_search L) currentData n0 (done ++ todo)
      (foldl (TrackerService.track_step L absent prevNodes) st todo).
Proof.
  induction todo as [|c todo IH]; intros done st Hin Hst.
  - rewrite app_nil_r. exact Hst.
  - cbn [foldl]. replace (done ++ c :: todo) with ((done ++ [c]) ++ todo)
      by (rewrite <- app_assoc; reflexivity).
    apply IH; [intros c' Hc'; apply Hin; right; exact Hc'|].
    apply track_step_consistent; [apply Hin; left|exact Hst].
Qed.

(** X24: the proximity tracker. Whatever the previous balloons are, the rows
    [trackBalloons] returns are the current observations in the order given,
    one row each. The rows that are not new continue pairwise distinct
    previous ids, each the id of a node the spatial index returned around the
    observation and not more than 300 km from it by the test of the code; the
    new rows carry the ids numbered from the counter on, in order, and the
    counter ends behind them. With a previous hour the rows returned are the
    rows saved; on the first hour nothing is saved. *)
Theorem proximity_tracker_spec (L : Libs) (absent : TrackerService.Absent) (t : Tracker)
    (db : Store) (currentData previousData : list BalloonDataPoint) :
  let r := TrackerService.trackBalloons L absent t db currentData previousData in
  let out := r.1.1 in
  map observation out = map observation currentData /\
  NoDup (map id (filter (fun b => is_new b = false) out)) /\
  Forall (fun row => is_new row = false ->
            continues_nearby L (map node_of previousData) (rbush_search L) currentData row)
         out /\
  (exists k, 0 <= k /\ minted out = map balloon_id (seqZ (nextId t) k) /\
             r.1.2 = set_nextId t (nextId t + k)) /\
  r.2 = match previousData with [] => db | _ => saveTrackedBalloons db out end.
Proof.
  cbn zeta. unfold TrackerService.trackBalloons.
  destruct previousData as [|p0 previousData'].
  - pose proof (mint_observations (nextId t) 1 currentData) as Hobs.
    pose proof (mint_minted (nextId t) 1 currentData) as Hminted.
    pose proof (mint_all_new (nextId t) 1 currentData) as Hnew.
    pose proof (mint_counter (nextId t) 1 currentData) as Hcount.
    destruct (mint (nextId t) 1 currentData) as [out n]. cbn [fst snd] in *.
    split; [exact Hobs|]. split.
    { rewrite Hnew. constructor. }
    split.
    { apply Forall_forall. intros row Hrow E.
      assert (Hin : row ∈ filter (fun b => is_new b = false) out)
        by (apply list_elem_of_filter; auto).
      rewrite Hnew in Hin. inversion Hin. }
    split; [|reflexivity].
    exists (Z.of_nat (length currentData)). split; [lia|]. split; [exact Hminted|].
    rewrite Hcount. reflexivity.
  - set (previousData := p0 :: previousData') in *.
    pose proof (track_loop_consistent L absent (map node_of previousData) currentData
                  (nextId t) currentData [] ([], ∅, nextId t)
                  (fun c Hc => Hc)) as Hloop.
    destruct (foldl _ _ currentData) as [[tracked matched] n].
    destruct Hloop as (Hobs & Hnd & _ & Hrows & Hn & Hminted).
    { unfold proximity_consistent. cbn. rewrite Z.sub_diag.
      repeat split; try constructor; try set_solver; lia. }
    cbn [fst snd] in *.
    split; [exact Hobs|]. split; [exact Hnd|]. split; [exact Hrows|]. split; [|reflexivity].
    exists (n - nextId t). split; [lia|]. split; [exact Hminted|].
    f_equal. lia.
Qed.
